(** * Survey word-frequency pipeline: a shallow embedding of
    [survey1_analysis_script.py] and the properties of its three stages
    (tokenization, frequency aggregation, table building).

    Conventions of the embedding.
    - Python [str] is [string], the bytes of its UTF-8 encoding; [str.lower]
      and [str.strip] work on the characters that these bytes encode, with
      the tables of Unicode 14.0.0 (CPython 3.11).  A byte that belongs to no
      character stands for the lone surrogate that Python keeps for it.
    - A cell of the sheet is a text or is missing; cells of other types
      (numbers, dates) are outside the model.
    - A Python exception is a [Raise] in the [result] monad.
    - A [collections.Counter] and the dictionary handed to [pd.DataFrame]
      are insertion-ordered, and their order is observable (tie-breaks of
      the ranking, order of the output columns): they are association lists
      in insertion order with assignment in place.  Dictionaries whose order
      is never observed ([counters], [sorted_data], a table row) are [gmap]s.
    - The spaCy pipeline [nlp] is a black box: a function from a text to the
      analysed document, or to an exception. *)

From Stdlib Require Import Strings.Ascii.
From stdpp Require Import gmap strings list fin_maps sorting.

Local Open Scope string_scope.
Local Open Scope nat_scope.
Local Open Scope list_scope.

(* ===================================================================== *)
(** * Exceptions *)
(* ===================================================================== *)

Inductive exn : Type :=
  | KeyError (key : string)
  | ValueError
  | OSError (filename : string)
  | CapabilityFailure (msg : string)
  | Diverged.

Inductive result (A : Type) : Type :=
  | Ok (a : A)
  | Raise (e : exn).
Arguments Ok {A} a.
Arguments Raise {A} e.

#[global] Instance result_ret : MRet result := λ A a, Ok a.
#[global] Instance result_bind : MBind result := λ A B f m,
  match m with
  | Ok a => f a
  | Raise e => Raise e
  end.
#[global] Instance result_fmap : FMap result := λ A B f m,
  match m with
  | Ok a => Ok (f a)
  | Raise e => Raise e
  end.

(** [for x in xs: s = body(s, x)], leaving the loop at the first exception. *)
Fixpoint for_each {A S : Type} (xs : list A) (body : S → A → result S) (s : S)
  : result S :=
  match xs with
  | [] => Ok s
  | x :: xs' => s' ← body s x; for_each xs' body s'
  end.

(* ===================================================================== *)
(** * Text primitives *)
(* ===================================================================== *)

Module Str.

Local Open Scope Z_scope.

(** ** Characters

    A Python [str] is held as its UTF-8 encoding: a [string] is the list of
    its bytes, and a character is the one to four bytes of a code point. *)

Definition code (b : ascii) : Z := Z.of_N (N_of_ascii b).
Definition byte (n : Z) : ascii := ascii_of_N (Z.to_N n).

(** The UTF-8 encoding of a code point. *)
Definition encode (c : Z) : string :=
  if c <? 0x80 then String (byte c) ""
  else if c <? 0x800 then
    String (byte (0xC0 + c / 0x40)) (String (byte (0x80 + c mod 0x40)) "")
  else if c <? 0x10000 then
    String (byte (0xE0 + c / 0x1000))
      (String (byte (0x80 + (c / 0x40) mod 0x40))
         (String (byte (0x80 + c mod 0x40)) ""))
  else
    String (byte (0xF0 + c / 0x40000))
      (String (byte (0x80 + (c / 0x1000) mod 0x40))
         (String (byte (0x80 + (c / 0x40) mod 0x40))
            (String (byte (0x80 + c mod 0x40)) ""))).

(** The well-formed byte sequences of UTF-8. *)
Definition cont (b : ascii) : bool := (0x80 <=? code b) && (code b <=? 0xBF).

Definition is1 (b1 : ascii) : bool := code b1 <? 0x80.

Definition is2 (b1 b2 : ascii) : bool :=
  (0xC2 <=? code b1) && (code b1 <=? 0xDF) && cont b2.

Definition is3 (b1 b2 b3 : ascii) : bool :=
  ((code b1 =? 0xE0) && (0xA0 <=? code b2) && (code b2 <=? 0xBF)
   || (0xE1 <=? code b1) && (code b1 <=? 0xEC) && cont b2
   || (code b1 =? 0xED) && (0x80 <=? code b2) && (code b2 <=? 0x9F)
   || (0xEE <=? code b1) && (code b1 <=? 0xEF) && cont b2)
  && cont b3.

Definition is4 (b1 b2 b3 b4 : ascii) : bool :=
  ((code b1 =? 0xF0) && (0x90 <=? code b2) && (code b2 <=? 0xBF)
   || (0xF1 <=? code b1) && (code b1 <=? 0xF3) && cont b2
   || (code b1 =? 0xF4) && (0x80 <=? code b2) && (code b2 <=? 0x8F))
  && cont b3 && cont b4.

(** The first character of a string and what follows it. *)
Definition next (s : string) : option (string * string) :=
  match s with
  | String b1 r1 =>
      if is1 b1 then Some (String b1 "", r1) else
      match r1 with
      | String b2 r2 =>
          if is2 b1 b2 then Some (String b1 (String b2 ""), r2) else
          match r2 with
          | String b3 r3 =>
              if is3 b1 b2 b3
              then Some (String b1 (String b2 (String b3 "")), r3) else
              match r3 with
              | String b4 r4 =>
                  if is4 b1 b2 b3 b4
                  then Some (String b1 (String b2 (String b3 (String b4 ""))),
                             r4)
                  else None
              | EmptyString => None
              end
          | EmptyString => None
          end
      | EmptyString => None
      end
  | EmptyString => None
  end.

(** The characters of a string, [list(s)].  A byte that begins no well-formed
    sequence is an item of its own: it stands for the lone surrogate that
    Python keeps for a byte it could not decode. *)
Fixpoint chars (s : string) : list string :=
  match s with
  | EmptyString => []
  | String b1 r1 =>
      if is1 b1 then String b1 "" :: chars r1 else
      match r1 with
      | String b2 r2 =>
          if is2 b1 b2 then String b1 (String b2 "") :: chars r2 else
          match r2 with
          | String b3 r3 =>
              if is3 b1 b2 b3
              then String b1 (String b2 (String b3 "")) :: chars r3
              else
              match r3 with
              | String b4 r4 =>
                  if is4 b1 b2 b3 b4
                  then String b1 (String b2 (String b3 (String b4 "")))
                       :: chars r4
                  else String b1 "" :: chars r1
              | EmptyString => String b1 "" :: chars r1
              end
          | EmptyString => String b1 "" :: chars r1
          end
      | EmptyString => String b1 "" :: chars r1
      end
  end.

(** The code point of a character, [ord(ch)]. *)
Definition point (ch : string) : Z :=
  match ch with
  | String b1 EmptyString =>
      if is1 b1 then code b1 else 0xDC00 + code b1
  | String b1 (String b2 EmptyString) =>
      (code b1 - 0xC0) * 0x40 + (code b2 - 0x80)
  | String b1 (String b2 (String b3 EmptyString)) =>
      (code b1 - 0xE0) * 0x1000 + (code b2 - 0x80) * 0x40 + (code b3 - 0x80)
  | String b1 (String b2 (String b3 (String b4 EmptyString))) =>
      (code b1 - 0xF0) * 0x40000 + (code b2 - 0x80) * 0x1000
      + (code b3 - 0x80) * 0x40 + (code b4 - 0x80)
  | _ => -1
  end.

Definition in_ranges (c : Z) (ranges : list (Z * Z)) : bool :=
  existsb (λ r, (r.1 <=? c) && (c <=? r.2)) ranges.

(** ** [str.lower]

    The tables are those of Unicode 14.0.0, the character database of
    CPython 3.11. *)

(** The characters with a one-character lowercase mapping other than
    themselves, U+03A3 apart. *)
Definition lower_pairs : list (Z * Z) :=
  [
    (0x41, 0x61); (0x42, 0x62); (0x43, 0x63); (0x44, 0x64); (0x45, 0x65);
    (0x46, 0x66); (0x47, 0x67); (0x48, 0x68); (0x49, 0x69); (0x4A, 0x6A);
    (0x4B, 0x6B); (0x4C, 0x6C); (0x4D, 0x6D); (0x4E, 0x6E); (0x4F, 0x6F);
    (0x50, 0x70); (0x51, 0x71); (0x52, 0x72); (0x53, 0x73); (0x54, 0x74);
    (0x55, 0x75); (0x56, 0x76); (0x57, 0x77); (0x58, 0x78); (0x59, 0x79);
    (0x5A, 0x7A); (0xC0, 0xE0); (0xC1, 0xE1); (0xC2, 0xE2); (0xC3, 0xE3);
    (0xC4, 0xE4); (0xC5, 0xE5); (0xC6, 0xE6); (0xC7, 0xE7); (0xC8, 0xE8);
    (0xC9, 0xE9); (0xCA, 0xEA); (0xCB, 0xEB); (0xCC, 0xEC); (0xCD, 0xED);
    (0xCE, 0xEE); (0xCF, 0xEF); (0xD0, 0xF0); (0xD1, 0xF1); (0xD2, 0xF2);
    (0xD3, 0xF3); (0xD4, 0xF4); (0xD5, 0xF5); (0xD6, 0xF6); (0xD8, 0xF8);
    (0xD9, 0xF9); (0xDA, 0xFA); (0xDB, 0xFB); (0xDC, 0xFC); (0xDD, 0xFD);
    (0xDE, 0xFE); (0x100, 0x101); (0x102, 0x103); (0x104, 0x105); (0x106, 0x107);
    (0x108, 0x109); (0x10A, 0x10B); (0x10C, 0x10D); (0x10E, 0x10F); (0x110, 0x111);
    (0x112, 0x113); (0x114, 0x115); (0x116, 0x117); (0x118, 0x119); (0x11A, 0x11B);
    (0x11C, 0x11D); (0x11E, 0x11F); (0x120, 0x121); (0x122, 0x123); (0x124, 0x125);
    (0x126, 0x127); (0x128, 0x129); (0x12A, 0x12B); (0x12C, 0x12D); (0x12E, 0x12F);
    (0x132, 0x133); (0x134, 0x135); (0x136, 0x137); (0x139, 0x13A); (0x13B, 0x13C);
    (0x13D, 0x13E); (0x13F, 0x140); (0x141, 0x142); (0x143, 0x144); (0x145, 0x146);
    (0x147, 0x148); (0x14A, 0x14B); (0x14C, 0x14D); (0x14E, 0x14F); (0x150, 0x151);
    (0x152, 0x153); (0x154, 0x155); (0x156, 0x157); (0x158, 0x159); (0x15A, 0x15B);
    (0x15C, 0x15D); (0x15E, 0x15F); (0x160, 0x161); (0x162, 0x163); (0x164, 0x165);
    (0x166, 0x167); (0x168, 0x169); (0x16A, 0x16B); (0x16C, 0x16D); (0x16E, 0x16F);
    (0x170, 0x171); (0x172, 0x173); (0x174, 0x175); (0x176, 0x177); (0x178, 0xFF);
    (0x179, 0x17A); (0x17B, 0x17C); (0x17D, 0x17E); (0x181, 0x253); (0x182, 0x183);
    (0x184, 0x185); (0x186, 0x254); (0x187, 0x188); (0x189, 0x256); (0x18A, 0x257);
    (0x18B, 0x18C); (0x18E, 0x1DD); (0x18F, 0x259); (0x190, 0x25B); (0x191, 0x192);
    (0x193, 0x260); (0x194, 0x263); (0x196, 0x269); (0x197, 0x268); (0x198, 0x199);
    (0x19C, 0x26F); (0x19D, 0x272); (0x19F, 0x275); (0x1A0, 0x1A1); (0x1A2, 0x1A3);
    (0x1A4, 0x1A5); (0x1A6, 0x280); (0x1A7, 0x1A8); (0x1A9, 0x283); (0x1AC, 0x1AD);
    (0x1AE, 0x288); (0x1AF, 0x1B0); (0x1B1, 0x28A); (0x1B2, 0x28B); (0x1B3, 0x1B4);
    (0x1B5, 0x1B6); (0x1B7, 0x292); (0x1B8, 0x1B9); (0x1BC, 0x1BD); (0x1C4, 0x1C6);
    (0x1C5, 0x1C6); (0x1C7, 0x1C9); (0x1C8, 0x1C9); (0x1CA, 0x1CC); (0x1CB, 0x1CC);
    (0x1CD, 0x1CE); (0x1CF, 0x1D0); (0x1D1, 0x1D2); (0x1D3, 0x1D4); (0x1D5, 0x1D6);
    (0x1D7, 0x1D8); (0x1D9, 0x1DA); (0x1DB, 0x1DC); (0x1DE, 0x1DF); (0x1E0, 0x1E1);
    (0x1E2, 0x1E3); (0x1E4, 0x1E5); (0x1E6, 0x1E7); (0x1E8, 0x1E9); (0x1EA, 0x1EB);
    (0x1EC, 0x1ED); (0x1EE, 0x1EF); (0x1F1, 0x1F3); (0x1F2, 0x1F3); (0x1F4, 0x1F5);
    (0x1F6, 0x195); (0x1F7, 0x1BF); (0x1F8, 0x1F9); (0x1FA, 0x1FB); (0x1FC, 0x1FD);
    (0x1FE, 0x1FF); (0x200, 0x201); (0x202, 0x203); (0x204, 0x205); (0x206, 0x207);
    (0x208, 0x209); (0x20A, 0x20B); (0x20C, 0x20D); (0x20E, 0x20F); (0x210, 0x211);
    (0x212, 0x213); (0x214, 0x215); (0x216, 0x217); (0x218, 0x219); (0x21A, 0x21B);
    (0x21C, 0x21D); (0x21E, 0x21F); (0x220, 0x19E); (0x222, 0x223); (0x224, 0x225);
    (0x226, 0x227); (0x228, 0x229); (0x22A, 0x22B); (0x22C, 0x22D); (0x22E, 0x22F);
    (0x230, 0x231); (0x232, 0x233); (0x23A, 0x2C65); (0x23B, 0x23C); (0x23D, 0x19A);
    (0x23E, 0x2C66); (0x241, 0x242); (0x243, 0x180); (0x244, 0x289); (0x245, 0x28C);
    (0x246, 0x247); (0x248, 0x249); (0x24A, 0x24B); (0x24C, 0x24D); (0x24E, 0x24F);
    (0x370, 0x371); (0x372, 0x373); (0x376, 0x377); (0x37F, 0x3F3); (0x386, 0x3AC);
    (0x388, 0x3AD); (0x389, 0x3AE); (0x38A, 0x3AF); (0x38C, 0x3CC); (0x38E, 0x3CD);
    (0x38F, 0x3CE); (0x391, 0x3B1); (0x392, 0x3B2); (0x393, 0x3B3); (0x394, 0x3B4);
    (0x395, 0x3B5); (0x396, 0x3B6); (0x397, 0x3B7); (0x398, 0x3B8); (0x399, 0x3B9);
    (0x39A, 0x3BA); (0x39B, 0x3BB); (0x39C, 0x3BC); (0x39D, 0x3BD); (0x39E, 0x3BE);
    (0x39F, 0x3BF); (0x3A0, 0x3C0); (0x3A1, 0x3C1); (0x3A4, 0x3C4); (0x3A5, 0x3C5);
    (0x3A6, 0x3C6); (0x3A7, 0x3C7); (0x3A8, 0x3C8); (0x3A9, 0x3C9); (0x3AA, 0x3CA);
    (0x3AB, 0x3CB); (0x3CF, 0x3D7); (0x3D8, 0x3D9); (0x3DA, 0x3DB); (0x3DC, 0x3DD);
    (0x3DE, 0x3DF); (0x3E0, 0x3E1); (0x3E2, 0x3E3); (0x3E4, 0x3E5); (0x3E6, 0x3E7);
    (0x3E8, 0x3E9); (0x3EA, 0x3EB); (0x3EC, 0x3ED); (0x3EE, 0x3EF); (0x3F4, 0x3B8);
    (0x3F7, 0x3F8); (0x3F9, 0x3F2); (0x3FA, 0x3FB); (0x3FD, 0x37B); (0x3FE, 0x37C);
    (0x3FF, 0x37D); (0x400, 0x450); (0x401, 0x451); (0x402, 0x452); (0x403, 0x453);
    (0x404, 0x454); (0x405, 0x455); (0x406, 0x456); (0x407, 0x457); (0x408, 0x458);
    (0x409, 0x459); (0x40A, 0x45A); (0x40B, 0x45B); (0x40C, 0x45C); (0x40D, 0x45D);
    (0x40E, 0x45E); (0x40F, 0x45F); (0x410, 0x430); (0x411, 0x431); (0x412, 0x432);
    (0x413, 0x433); (0x414, 0x434); (0x415, 0x435); (0x416, 0x436); (0x417, 0x437);
    (0x418, 0x438); (0x419, 0x439); (0x41A, 0x43A); (0x41B, 0x43B); (0x41C, 0x43C);
    (0x41D, 0x43D); (0x41E, 0x43E); (0x41F, 0x43F); (0x420, 0x440); (0x421, 0x441);
    (0x422, 0x442); (0x423, 0x443); (0x424, 0x444); (0x425, 0x445); (0x426, 0x446);
    (0x427, 0x447); (0x428, 0x448); (0x429, 0x449); (0x42A, 0x44A); (0x42B, 0x44B);
    (0x42C, 0x44C); (0x42D, 0x44D); (0x42E, 0x44E); (0x42F, 0x44F); (0x460, 0x461);
    (0x462, 0x463); (0x464, 0x465); (0x466, 0x467); (0x468, 0x469); (0x46A, 0x46B);
    (0x46C, 0x46D); (0x46E, 0x46F); (0x470, 0x471); (0x472, 0x473); (0x474, 0x475);
    (0x476, 0x477); (0x478, 0x479); (0x47A, 0x47B); (0x47C, 0x47D); (0x47E, 0x47F);
    (0x480, 0x481); (0x48A, 0x48B); (0x48C, 0x48D); (0x48E, 0x48F); (0x490, 0x491);
    (0x492, 0x493); (0x494, 0x495); (0x496, 0x497); (0x498, 0x499); (0x49A, 0x49B);
    (0x49C, 0x49D); (0x49E, 0x49F); (0x4A0, 0x4A1); (0x4A2, 0x4A3); (0x4A4, 0x4A5);
    (0x4A6, 0x4A7); (0x4A8, 0x4A9); (0x4AA, 0x4AB); (0x4AC, 0x4AD); (0x4AE, 0x4AF);
    (0x4B0, 0x4B1); (0x4B2, 0x4B3); (0x4B4, 0x4B5); (0x4B6, 0x4B7); (0x4B8, 0x4B9);
    (0x4BA, 0x4BB); (0x4BC, 0x4BD); (0x4BE, 0x4BF); (0x4C0, 0x4CF); (0x4C1, 0x4C2);
    (0x4C3, 0x4C4); (0x4C5, 0x4C6); (0x4C7, 0x4C8); (0x4C9, 0x4CA); (0x4CB, 0x4CC);
    (0x4CD, 0x4CE); (0x4D0, 0x4D1); (0x4D2, 0x4D3); (0x4D4, 0x4D5); (0x4D6, 0x4D7);
    (0x4D8, 0x4D9); (0x4DA, 0x4DB); (0x4DC, 0x4DD); (0x4DE, 0x4DF); (0x4E0, 0x4E1);
    (0x4E2, 0x4E3); (0x4E4, 0x4E5); (0x4E6, 0x4E7); (0x4E8, 0x4E9); (0x4EA, 0x4EB);
    (0x4EC, 0x4ED); (0x4EE, 0x4EF); (0x4F0, 0x4F1); (0x4F2, 0x4F3); (0x4F4, 0x4F5);
    (0x4F6, 0x4F7); (0x4F8, 0x4F9); (0x4FA, 0x4FB); (0x4FC, 0x4FD); (0x4FE, 0x4FF);
    (0x500, 0x501); (0x502, 0x503); (0x504, 0x505); (0x506, 0x507); (0x508, 0x509);
    (0x50A, 0x50B); (0x50C, 0x50D); (0x50E, 0x50F); (0x510, 0x511); (0x512, 0x513);
    (0x514, 0x515); (0x516, 0x517); (0x518, 0x519); (0x51A, 0x51B); (0x51C, 0x51D);
    (0x51E, 0x51F); (0x520, 0x521); (0x522, 0x523); (0x524, 0x525); (0x526, 0x527);
    (0x528, 0x529); (0x52A, 0x52B); (0x52C, 0x52D); (0x52E, 0x52F); (0x531, 0x561);
    (0x532, 0x562); (0x533, 0x563); (0x534, 0x564); (0x535, 0x565); (0x536, 0x566);
    (0x537, 0x567); (0x538, 0x568); (0x539, 0x569); (0x53A, 0x56A); (0x53B, 0x56B);
    (0x53C, 0x56C); (0x53D, 0x56D); (0x53E, 0x56E); (0x53F, 0x56F); (0x540, 0x570);
    (0x541, 0x571); (0x542, 0x572); (0x543, 0x573); (0x544, 0x574); (0x545, 0x575);
    (0x546, 0x576); (0x547, 0x577); (0x548, 0x578); (0x549, 0x579); (0x54A, 0x57A);
    (0x54B, 0x57B); (0x54C, 0x57C); (0x54D, 0x57D); (0x54E, 0x57E); (0x54F, 0x57F);
    (0x550, 0x580); (0x551, 0x581); (0x552, 0x582); (0x553, 0x583); (0x554, 0x584);
    (0x555, 0x585); (0x556, 0x586); (0x10A0, 0x2D00); (0x10A1, 0x2D01); (0x10A2, 0x2D02);
    (0x10A3, 0x2D03); (0x10A4, 0x2D04); (0x10A5, 0x2D05); (0x10A6, 0x2D06); (0x10A7, 0x2D07);
    (0x10A8, 0x2D08); (0x10A9, 0x2D09); (0x10AA, 0x2D0A); (0x10AB, 0x2D0B); (0x10AC, 0x2D0C);
    (0x10AD, 0x2D0D); (0x10AE, 0x2D0E); (0x10AF, 0x2D0F); (0x10B0, 0x2D10); (0x10B1, 0x2D11);
    (0x10B2, 0x2D12); (0x10B3, 0x2D13); (0x10B4, 0x2D14); (0x10B5, 0x2D15); (0x10B6, 0x2D16);
    (0x10B7, 0x2D17); (0x10B8, 0x2D18); (0x10B9, 0x2D19); (0x10BA, 0x2D1A); (0x10BB, 0x2D1B);
    (0x10BC, 0x2D1C); (0x10BD, 0x2D1D); (0x10BE, 0x2D1E); (0x10BF, 0x2D1F); (0x10C0, 0x2D20);
    (0x10C1, 0x2D21); (0x10C2, 0x2D22); (0x10C3, 0x2D23); (0x10C4, 0x2D24); (0x10C5, 0x2D25);
    (0x10C7, 0x2D27); (0x10CD, 0x2D2D); (0x13A0, 0xAB70); (0x13A1, 0xAB71); (0x13A2, 0xAB72);
    (0x13A3, 0xAB73); (0x13A4, 0xAB74); (0x13A5, 0xAB75); (0x13A6, 0xAB76); (0x13A7, 0xAB77);
    (0x13A8, 0xAB78); (0x13A9, 0xAB79); (0x13AA, 0xAB7A); (0x13AB, 0xAB7B); (0x13AC, 0xAB7C);
    (0x13AD, 0xAB7D); (0x13AE, 0xAB7E); (0x13AF, 0xAB7F); (0x13B0, 0xAB80); (0x13B1, 0xAB81);
    (0x13B2, 0xAB82); (0x13B3, 0xAB83); (0x13B4, 0xAB84); (0x13B5, 0xAB85); (0x13B6, 0xAB86);
    (0x13B7, 0xAB87); (0x13B8, 0xAB88); (0x13B9, 0xAB89); (0x13BA, 0xAB8A); (0x13BB, 0xAB8B);
    (0x13BC, 0xAB8C); (0x13BD, 0xAB8D); (0x13BE, 0xAB8E); (0x13BF, 0xAB8F); (0x13C0, 0xAB90);
    (0x13C1, 0xAB91); (0x13C2, 0xAB92); (0x13C3, 0xAB93); (0x13C4, 0xAB94); (0x13C5, 0xAB95);
    (0x13C6, 0xAB96); (0x13C7, 0xAB97); (0x13C8, 0xAB98); (0x13C9, 0xAB99); (0x13CA, 0xAB9A);
    (0x13CB, 0xAB9B); (0x13CC, 0xAB9C); (0x13CD, 0xAB9D); (0x13CE, 0xAB9E); (0x13CF, 0xAB9F);
    (0x13D0, 0xABA0); (0x13D1, 0xABA1); (0x13D2, 0xABA2); (0x13D3, 0xABA3); (0x13D4, 0xABA4);
    (0x13D5, 0xABA5); (0x13D6, 0xABA6); (0x13D7, 0xABA7); (0x13D8, 0xABA8); (0x13D9, 0xABA9);
    (0x13DA, 0xABAA); (0x13DB, 0xABAB); (0x13DC, 0xABAC); (0x13DD, 0xABAD); (0x13DE, 0xABAE);
    (0x13DF, 0xABAF); (0x13E0, 0xABB0); (0x13E1, 0xABB1); (0x13E2, 0xABB2); (0x13E3, 0xABB3);
    (0x13E4, 0xABB4); (0x13E5, 0xABB5); (0x13E6, 0xABB6); (0x13E7, 0xABB7); (0x13E8, 0xABB8);
    (0x13E9, 0xABB9); (0x13EA, 0xABBA); (0x13EB, 0xABBB); (0x13EC, 0xABBC); (0x13ED, 0xABBD);
    (0x13EE, 0xABBE); (0x13EF, 0xABBF); (0x13F0, 0x13F8); (0x13F1, 0x13F9); (0x13F2, 0x13FA);
    (0x13F3, 0x13FB); (0x13F4, 0x13FC); (0x13F5, 0x13FD); (0x1C90, 0x10D0); (0x1C91, 0x10D1);
    (0x1C92, 0x10D2); (0x1C93, 0x10D3); (0x1C94, 0x10D4); (0x1C95, 0x10D5); (0x1C96, 0x10D6);
    (0x1C97, 0x10D7); (0x1C98, 0x10D8); (0x1C99, 0x10D9); (0x1C9A, 0x10DA); (0x1C9B, 0x10DB);
    (0x1C9C, 0x10DC); (0x1C9D, 0x10DD); (0x1C9E, 0x10DE); (0x1C9F, 0x10DF); (0x1CA0, 0x10E0);
    (0x1CA1, 0x10E1); (0x1CA2, 0x10E2); (0x1CA3, 0x10E3); (0x1CA4, 0x10E4); (0x1CA5, 0x10E5);
    (0x1CA6, 0x10E6); (0x1CA7, 0x10E7); (0x1CA8, 0x10E8); (0x1CA9, 0x10E9); (0x1CAA, 0x10EA);
    (0x1CAB, 0x10EB); (0x1CAC, 0x10EC); (0x1CAD, 0x10ED); (0x1CAE, 0x10EE); (0x1CAF, 0x10EF);
    (0x1CB0, 0x10F0); (0x1CB1, 0x10F1); (0x1CB2, 0x10F2); (0x1CB3, 0x10F3); (0x1CB4, 0x10F4);
    (0x1CB5, 0x10F5); (0x1CB6, 0x10F6); (0x1CB7, 0x10F7); (0x1CB8, 0x10F8); (0x1CB9, 0x10F9);
    (0x1CBA, 0x10FA); (0x1CBD, 0x10FD); (0x1CBE, 0x10FE); (0x1CBF, 0x10FF); (0x1E00, 0x1E01);
    (0x1E02, 0x1E03); (0x1E04, 0x1E05); (0x1E06, 0x1E07); (0x1E08, 0x1E09); (0x1E0A, 0x1E0B);
    (0x1E0C, 0x1E0D); (0x1E0E, 0x1E0F); (0x1E10, 0x1E11); (0x1E12, 0x1E13); (0x1E14, 0x1E15);
    (0x1E16, 0x1E17); (0x1E18, 0x1E19); (0x1E1A, 0x1E1B); (0x1E1C, 0x1E1D); (0x1E1E, 0x1E1F);
    (0x1E20, 0x1E21); (0x1E22, 0x1E23); (0x1E24, 0x1E25); (0x1E26, 0x1E27); (0x1E28, 0x1E29);
    (0x1E2A, 0x1E2B); (0x1E2C, 0x1E2D); (0x1E2E, 0x1E2F); (0x1E30, 0x1E31); (0x1E32, 0x1E33);
    (0x1E34, 0x1E35); (0x1E36, 0x1E37); (0x1E38, 0x1E39); (0x1E3A, 0x1E3B); (0x1E3C, 0x1E3D);
    (0x1E3E, 0x1E3F); (0x1E40, 0x1E41); (0x1E42, 0x1E43); (0x1E44, 0x1E45); (0x1E46, 0x1E47);
    (0x1E48, 0x1E49); (0x1E4A, 0x1E4B); (0x1E4C, 0x1E4D); (0x1E4E, 0x1E4F); (0x1E50, 0x1E51);
    (0x1E52, 0x1E53); (0x1E54, 0x1E55); (0x1E56, 0x1E57); (0x1E58, 0x1E59); (0x1E5A, 0x1E5B);
    (0x1E5C, 0x1E5D); (0x1E5E, 0x1E5F); (0x1E60, 0x1E61); (0x1E62, 0x1E63); (0x1E64, 0x1E65);
    (0x1E66, 0x1E67); (0x1E68, 0x1E69); (0x1E6A, 0x1E6B); (0x1E6C, 0x1E6D); (0x1E6E, 0x1E6F);
    (0x1E70, 0x1E71); (0x1E72, 0x1E73); (0x1E74, 0x1E75); (0x1E76, 0x1E77); (0x1E78, 0x1E79);
    (0x1E7A, 0x1E7B); (0x1E7C, 0x1E7D); (0x1E7E, 0x1E7F); (0x1E80, 0x1E81); (0x1E82, 0x1E83);
    (0x1E84, 0x1E85); (0x1E86, 0x1E87); (0x1E88, 0x1E89); (0x1E8A, 0x1E8B); (0x1E8C, 0x1E8D);
    (0x1E8E, 0x1E8F); (0x1E90, 0x1E91); (0x1E92, 0x1E93); (0x1E94, 0x1E95); (0x1E9E, 0xDF);
    (0x1EA0, 0x1EA1); (0x1EA2, 0x1EA3); (0x1EA4, 0x1EA5); (0x1EA6, 0x1EA7); (0x1EA8, 0x1EA9);
    (0x1EAA, 0x1EAB); (0x1EAC, 0x1EAD); (0x1EAE, 0x1EAF); (0x1EB0, 0x1EB1); (0x1EB2, 0x1EB3);
    (0x1EB4, 0x1EB5); (0x1EB6, 0x1EB7); (0x1EB8, 0x1EB9); (0x1EBA, 0x1EBB); (0x1EBC, 0x1EBD);
    (0x1EBE, 0x1EBF); (0x1EC0, 0x1EC1); (0x1EC2, 0x1EC3); (0x1EC4, 0x1EC5); (0x1EC6, 0x1EC7);
    (0x1EC8, 0x1EC9); (0x1ECA, 0x1ECB); (0x1ECC, 0x1ECD); (0x1ECE, 0x1ECF); (0x1ED0, 0x1ED1);
    (0x1ED2, 0x1ED3); (0x1ED4, 0x1ED5); (0x1ED6, 0x1ED7); (0x1ED8, 0x1ED9); (0x1EDA, 0x1EDB);
    (0x1EDC, 0x1EDD); (0x1EDE, 0x1EDF); (0x1EE0, 0x1EE1); (0x1EE2, 0x1EE3); (0x1EE4, 0x1EE5);
    (0x1EE6, 0x1EE7); (0x1EE8, 0x1EE9); (0x1EEA, 0x1EEB); (0x1EEC, 0x1EED); (0x1EEE, 0x1EEF);
    (0x1EF0, 0x1EF1); (0x1EF2, 0x1EF3); (0x1EF4, 0x1EF5); (0x1EF6, 0x1EF7); (0x1EF8, 0x1EF9);
    (0x1EFA, 0x1EFB); (0x1EFC, 0x1EFD); (0x1EFE, 0x1EFF); (0x1F08, 0x1F00); (0x1F09, 0x1F01);
    (0x1F0A, 0x1F02); (0x1F0B, 0x1F03); (0x1F0C, 0x1F04); (0x1F0D, 0x1F05); (0x1F0E, 0x1F06);
    (0x1F0F, 0x1F07); (0x1F18, 0x1F10); (0x1F19, 0x1F11); (0x1F1A, 0x1F12); (0x1F1B, 0x1F13);
    (0x1F1C, 0x1F14); (0x1F1D, 0x1F15); (0x1F28, 0x1F20); (0x1F29, 0x1F21); (0x1F2A, 0x1F22);
    (0x1F2B, 0x1F23); (0x1F2C, 0x1F24); (0x1F2D, 0x1F25); (0x1F2E, 0x1F26); (0x1F2F, 0x1F27);
    (0x1F38, 0x1F30); (0x1F39, 0x1F31); (0x1F3A, 0x1F32); (0x1F3B, 0x1F33); (0x1F3C, 0x1F34);
    (0x1F3D, 0x1F35); (0x1F3E, 0x1F36); (0x1F3F, 0x1F37); (0x1F48, 0x1F40); (0x1F49, 0x1F41);
    (0x1F4A, 0x1F42); (0x1F4B, 0x1F43); (0x1F4C, 0x1F44); (0x1F4D, 0x1F45); (0x1F59, 0x1F51);
    (0x1F5B, 0x1F53); (0x1F5D, 0x1F55); (0x1F5F, 0x1F57); (0x1F68, 0x1F60); (0x1F69, 0x1F61);
    (0x1F6A, 0x1F62); (0x1F6B, 0x1F63); (0x1F6C, 0x1F64); (0x1F6D, 0x1F65); (0x1F6E, 0x1F66);
    (0x1F6F, 0x1F67); (0x1F88, 0x1F80); (0x1F89, 0x1F81); (0x1F8A, 0x1F82); (0x1F8B, 0x1F83);
    (0x1F8C, 0x1F84); (0x1F8D, 0x1F85); (0x1F8E, 0x1F86); (0x1F8F, 0x1F87); (0x1F98, 0x1F90);
    (0x1F99, 0x1F91); (0x1F9A, 0x1F92); (0x1F9B, 0x1F93); (0x1F9C, 0x1F94); (0x1F9D, 0x1F95);
    (0x1F9E, 0x1F96); (0x1F9F, 0x1F97); (0x1FA8, 0x1FA0); (0x1FA9, 0x1FA1); (0x1FAA, 0x1FA2);
    (0x1FAB, 0x1FA3); (0x1FAC, 0x1FA4); (0x1FAD, 0x1FA5); (0x1FAE, 0x1FA6); (0x1FAF, 0x1FA7);
    (0x1FB8, 0x1FB0); (0x1FB9, 0x1FB1); (0x1FBA, 0x1F70); (0x1FBB, 0x1F71); (0x1FBC, 0x1FB3);
    (0x1FC8, 0x1F72); (0x1FC9, 0x1F73); (0x1FCA, 0x1F74); (0x1FCB, 0x1F75); (0x1FCC, 0x1FC3);
    (0x1FD8, 0x1FD0); (0x1FD9, 0x1FD1); (0x1FDA, 0x1F76); (0x1FDB, 0x1F77); (0x1FE8, 0x1FE0);
    (0x1FE9, 0x1FE1); (0x1FEA, 0x1F7A); (0x1FEB, 0x1F7B); (0x1FEC, 0x1FE5); (0x1FF8, 0x1F78);
    (0x1FF9, 0x1F79); (0x1FFA, 0x1F7C); (0x1FFB, 0x1F7D); (0x1FFC, 0x1FF3); (0x2126, 0x3C9);
    (0x212A, 0x6B); (0x212B, 0xE5); (0x2132, 0x214E); (0x2160, 0x2170); (0x2161, 0x2171);
    (0x2162, 0x2172); (0x2163, 0x2173); (0x2164, 0x2174); (0x2165, 0x2175); (0x2166, 0x2176);
    (0x2167, 0x2177); (0x2168, 0x2178); (0x2169, 0x2179); (0x216A, 0x217A); (0x216B, 0x217B);
    (0x216C, 0x217C); (0x216D, 0x217D); (0x216E, 0x217E); (0x216F, 0x217F); (0x2183, 0x2184);
    (0x24B6, 0x24D0); (0x24B7, 0x24D1); (0x24B8, 0x24D2); (0x24B9, 0x24D3); (0x24BA, 0x24D4);
    (0x24BB, 0x24D5); (0x24BC, 0x24D6); (0x24BD, 0x24D7); (0x24BE, 0x24D8); (0x24BF, 0x24D9);
    (0x24C0, 0x24DA); (0x24C1, 0x24DB); (0x24C2, 0x24DC); (0x24C3, 0x24DD); (0x24C4, 0x24DE);
    (0x24C5, 0x24DF); (0x24C6, 0x24E0); (0x24C7, 0x24E1); (0x24C8, 0x24E2); (0x24C9, 0x24E3);
    (0x24CA, 0x24E4); (0x24CB, 0x24E5); (0x24CC, 0x24E6); (0x24CD, 0x24E7); (0x24CE, 0x24E8);
    (0x24CF, 0x24E9); (0x2C00, 0x2C30); (0x2C01, 0x2C31); (0x2C02, 0x2C32); (0x2C03, 0x2C33);
    (0x2C04, 0x2C34); (0x2C05, 0x2C35); (0x2C06, 0x2C36); (0x2C07, 0x2C37); (0x2C08, 0x2C38);
    (0x2C09, 0x2C39); (0x2C0A, 0x2C3A); (0x2C0B, 0x2C3B); (0x2C0C, 0x2C3C); (0x2C0D, 0x2C3D);
    (0x2C0E, 0x2C3E); (0x2C0F, 0x2C3F); (0x2C10, 0x2C40); (0x2C11, 0x2C41); (0x2C12, 0x2C42);
    (0x2C13, 0x2C43); (0x2C14, 0x2C44); (0x2C15, 0x2C45); (0x2C16, 0x2C46); (0x2C17, 0x2C47);
    (0x2C18, 0x2C48); (0x2C19, 0x2C49); (0x2C1A, 0x2C4A); (0x2C1B, 0x2C4B); (0x2C1C, 0x2C4C);
    (0x2C1D, 0x2C4D); (0x2C1E, 0x2C4E); (0x2C1F, 0x2C4F); (0x2C20, 0x2C50); (0x2C21, 0x2C51);
    (0x2C22, 0x2C52); (0x2C23, 0x2C53); (0x2C24, 0x2C54); (0x2C25, 0x2C55); (0x2C26, 0x2C56);
    (0x2C27, 0x2C57); (0x2C28, 0x2C58); (0x2C29, 0x2C59); (0x2C2A, 0x2C5A); (0x2C2B, 0x2C5B);
    (0x2C2C, 0x2C5C); (0x2C2D, 0x2C5D); (0x2C2E, 0x2C5E); (0x2C2F, 0x2C5F); (0x2C60, 0x2C61);
    (0x2C62, 0x26B); (0x2C63, 0x1D7D); (0x2C64, 0x27D); (0x2C67, 0x2C68); (0x2C69, 0x2C6A);
    (0x2C6B, 0x2C6C); (0x2C6D, 0x251); (0x2C6E, 0x271); (0x2C6F, 0x250); (0x2C70, 0x252);
    (0x2C72, 0x2C73); (0x2C75, 0x2C76); (0x2C7E, 0x23F); (0x2C7F, 0x240); (0x2C80, 0x2C81);
    (0x2C82, 0x2C83); (0x2C84, 0x2C85); (0x2C86, 0x2C87); (0x2C88, 0x2C89); (0x2C8A, 0x2C8B);
    (0x2C8C, 0x2C8D); (0x2C8E, 0x2C8F); (0x2C90, 0x2C91); (0x2C92, 0x2C93); (0x2C94, 0x2C95);
    (0x2C96, 0x2C97); (0x2C98, 0x2C99); (0x2C9A, 0x2C9B); (0x2C9C, 0x2C9D); (0x2C9E, 0x2C9F);
    (0x2CA0, 0x2CA1); (0x2CA2, 0x2CA3); (0x2CA4, 0x2CA5); (0x2CA6, 0x2CA7); (0x2CA8, 0x2CA9);
    (0x2CAA, 0x2CAB); (0x2CAC, 0x2CAD); (0x2CAE, 0x2CAF); (0x2CB0, 0x2CB1); (0x2CB2, 0x2CB3);
    (0x2CB4, 0x2CB5); (0x2CB6, 0x2CB7); (0x2CB8, 0x2CB9); (0x2CBA, 0x2CBB); (0x2CBC, 0x2CBD);
    (0x2CBE, 0x2CBF); (0x2CC0, 0x2CC1); (0x2CC2, 0x2CC3); (0x2CC4, 0x2CC5); (0x2CC6, 0x2CC7);
    (0x2CC8, 0x2CC9); (0x2CCA, 0x2CCB); (0x2CCC, 0x2CCD); (0x2CCE, 0x2CCF); (0x2CD0, 0x2CD1);
    (0x2CD2, 0x2CD3); (0x2CD4, 0x2CD5); (0x2CD6, 0x2CD7); (0x2CD8, 0x2CD9); (0x2CDA, 0x2CDB);
    (0x2CDC, 0x2CDD); (0x2CDE, 0x2CDF); (0x2CE0, 0x2CE1); (0x2CE2, 0x2CE3); (0x2CEB, 0x2CEC);
    (0x2CED, 0x2CEE); (0x2CF2, 0x2CF3); (0xA640, 0xA641); (0xA642, 0xA643); (0xA644, 0xA645);
    (0xA646, 0xA647); (0xA648, 0xA649); (0xA64A, 0xA64B); (0xA64C, 0xA64D); (0xA64E, 0xA64F);
    (0xA650, 0xA651); (0xA652, 0xA653); (0xA654, 0xA655); (0xA656, 0xA657); (0xA658, 0xA659);
    (0xA65A, 0xA65B); (0xA65C, 0xA65D); (0xA65E, 0xA65F); (0xA660, 0xA661); (0xA662, 0xA663);
    (0xA664, 0xA665); (0xA666, 0xA667); (0xA668, 0xA669); (0xA66A, 0xA66B); (0xA66C, 0xA66D);
    (0xA680, 0xA681); (0xA682, 0xA683); (0xA684, 0xA685); (0xA686, 0xA687); (0xA688, 0xA689);
    (0xA68A, 0xA68B); (0xA68C, 0xA68D); (0xA68E, 0xA68F); (0xA690, 0xA691); (0xA692, 0xA693);
    (0xA694, 0xA695); (0xA696, 0xA697); (0xA698, 0xA699); (0xA69A, 0xA69B); (0xA722, 0xA723);
    (0xA724, 0xA725); (0xA726, 0xA727); (0xA728, 0xA729); (0xA72A, 0xA72B); (0xA72C, 0xA72D);
    (0xA72E, 0xA72F); (0xA732, 0xA733); (0xA734, 0xA735); (0xA736, 0xA737); (0xA738, 0xA739);
    (0xA73A, 0xA73B); (0xA73C, 0xA73D); (0xA73E, 0xA73F); (0xA740, 0xA741); (0xA742, 0xA743);
    (0xA744, 0xA745); (0xA746, 0xA747); (0xA748, 0xA749); (0xA74A, 0xA74B); (0xA74C, 0xA74D);
    (0xA74E, 0xA74F); (0xA750, 0xA751); (0xA752, 0xA753); (0xA754, 0xA755); (0xA756, 0xA757);
    (0xA758, 0xA759); (0xA75A, 0xA75B); (0xA75C, 0xA75D); (0xA75E, 0xA75F); (0xA760, 0xA761);
    (0xA762, 0xA763); (0xA764, 0xA765); (0xA766, 0xA767); (0xA768, 0xA769); (0xA76A, 0xA76B);
    (0xA76C, 0xA76D); (0xA76E, 0xA76F); (0xA779, 0xA77A); (0xA77B, 0xA77C); (0xA77D, 0x1D79);
    (0xA77E, 0xA77F); (0xA780, 0xA781); (0xA782, 0xA783); (0xA784, 0xA785); (0xA786, 0xA787);
    (0xA78B, 0xA78C); (0xA78D, 0x265); (0xA790, 0xA791); (0xA792, 0xA793); (0xA796, 0xA797);
    (0xA798, 0xA799); (0xA79A, 0xA79B); (0xA79C, 0xA79D); (0xA79E, 0xA79F); (0xA7A0, 0xA7A1);
    (0xA7A2, 0xA7A3); (0xA7A4, 0xA7A5); (0xA7A6, 0xA7A7); (0xA7A8, 0xA7A9); (0xA7AA, 0x266);
    (0xA7AB, 0x25C); (0xA7AC, 0x261); (0xA7AD, 0x26C); (0xA7AE, 0x26A); (0xA7B0, 0x29E);
    (0xA7B1, 0x287); (0xA7B2, 0x29D); (0xA7B3, 0xAB53); (0xA7B4, 0xA7B5); (0xA7B6, 0xA7B7);
    (0xA7B8, 0xA7B9); (0xA7BA, 0xA7BB); (0xA7BC, 0xA7BD); (0xA7BE, 0xA7BF); (0xA7C0, 0xA7C1);
    (0xA7C2, 0xA7C3); (0xA7C4, 0xA794); (0xA7C5, 0x282); (0xA7C6, 0x1D8E); (0xA7C7, 0xA7C8);
    (0xA7C9, 0xA7CA); (0xA7D0, 0xA7D1); (0xA7D6, 0xA7D7); (0xA7D8, 0xA7D9); (0xA7F5, 0xA7F6);
    (0xFF21, 0xFF41); (0xFF22, 0xFF42); (0xFF23, 0xFF43); (0xFF24, 0xFF44); (0xFF25, 0xFF45);
    (0xFF26, 0xFF46); (0xFF27, 0xFF47); (0xFF28, 0xFF48); (0xFF29, 0xFF49); (0xFF2A, 0xFF4A);
    (0xFF2B, 0xFF4B); (0xFF2C, 0xFF4C); (0xFF2D, 0xFF4D); (0xFF2E, 0xFF4E); (0xFF2F, 0xFF4F);
    (0xFF30, 0xFF50); (0xFF31, 0xFF51); (0xFF32, 0xFF52); (0xFF33, 0xFF53); (0xFF34, 0xFF54);
    (0xFF35, 0xFF55); (0xFF36, 0xFF56); (0xFF37, 0xFF57); (0xFF38, 0xFF58); (0xFF39, 0xFF59);
    (0xFF3A, 0xFF5A); (0x10400, 0x10428); (0x10401, 0x10429); (0x10402, 0x1042A); (0x10403, 0x1042B);
    (0x10404, 0x1042C); (0x10405, 0x1042D); (0x10406, 0x1042E); (0x10407, 0x1042F); (0x10408, 0x10430);
    (0x10409, 0x10431); (0x1040A, 0x10432); (0x1040B, 0x10433); (0x1040C, 0x10434); (0x1040D, 0x10435);
    (0x1040E, 0x10436); (0x1040F, 0x10437); (0x10410, 0x10438); (0x10411, 0x10439); (0x10412, 0x1043A);
    (0x10413, 0x1043B); (0x10414, 0x1043C); (0x10415, 0x1043D); (0x10416, 0x1043E); (0x10417, 0x1043F);
    (0x10418, 0x10440); (0x10419, 0x10441); (0x1041A, 0x10442); (0x1041B, 0x10443); (0x1041C, 0x10444);
    (0x1041D, 0x10445); (0x1041E, 0x10446); (0x1041F, 0x10447); (0x10420, 0x10448); (0x10421, 0x10449);
    (0x10422, 0x1044A); (0x10423, 0x1044B); (0x10424, 0x1044C); (0x10425, 0x1044D); (0x10426, 0x1044E);
    (0x10427, 0x1044F); (0x104B0, 0x104D8); (0x104B1, 0x104D9); (0x104B2, 0x104DA); (0x104B3, 0x104DB);
    (0x104B4, 0x104DC); (0x104B5, 0x104DD); (0x104B6, 0x104DE); (0x104B7, 0x104DF); (0x104B8, 0x104E0);
    (0x104B9, 0x104E1); (0x104BA, 0x104E2); (0x104BB, 0x104E3); (0x104BC, 0x104E4); (0x104BD, 0x104E5);
    (0x104BE, 0x104E6); (0x104BF, 0x104E7); (0x104C0, 0x104E8); (0x104C1, 0x104E9); (0x104C2, 0x104EA);
    (0x104C3, 0x104EB); (0x104C4, 0x104EC); (0x104C5, 0x104ED); (0x104C6, 0x104EE); (0x104C7, 0x104EF);
    (0x104C8, 0x104F0); (0x104C9, 0x104F1); (0x104CA, 0x104F2); (0x104CB, 0x104F3); (0x104CC, 0x104F4);
    (0x104CD, 0x104F5); (0x104CE, 0x104F6); (0x104CF, 0x104F7); (0x104D0, 0x104F8); (0x104D1, 0x104F9);
    (0x104D2, 0x104FA); (0x104D3, 0x104FB); (0x10570, 0x10597); (0x10571, 0x10598); (0x10572, 0x10599);
    (0x10573, 0x1059A); (0x10574, 0x1059B); (0x10575, 0x1059C); (0x10576, 0x1059D); (0x10577, 0x1059E);
    (0x10578, 0x1059F); (0x10579, 0x105A0); (0x1057A, 0x105A1); (0x1057C, 0x105A3); (0x1057D, 0x105A4);
    (0x1057E, 0x105A5); (0x1057F, 0x105A6); (0x10580, 0x105A7); (0x10581, 0x105A8); (0x10582, 0x105A9);
    (0x10583, 0x105AA); (0x10584, 0x105AB); (0x10585, 0x105AC); (0x10586, 0x105AD); (0x10587, 0x105AE);
    (0x10588, 0x105AF); (0x10589, 0x105B0); (0x1058A, 0x105B1); (0x1058C, 0x105B3); (0x1058D, 0x105B4);
    (0x1058E, 0x105B5); (0x1058F, 0x105B6); (0x10590, 0x105B7); (0x10591, 0x105B8); (0x10592, 0x105B9);
    (0x10594, 0x105BB); (0x10595, 0x105BC); (0x10C80, 0x10CC0); (0x10C81, 0x10CC1); (0x10C82, 0x10CC2);
    (0x10C83, 0x10CC3); (0x10C84, 0x10CC4); (0x10C85, 0x10CC5); (0x10C86, 0x10CC6); (0x10C87, 0x10CC7);
    (0x10C88, 0x10CC8); (0x10C89, 0x10CC9); (0x10C8A, 0x10CCA); (0x10C8B, 0x10CCB); (0x10C8C, 0x10CCC);
    (0x10C8D, 0x10CCD); (0x10C8E, 0x10CCE); (0x10C8F, 0x10CCF); (0x10C90, 0x10CD0); (0x10C91, 0x10CD1);
    (0x10C92, 0x10CD2); (0x10C93, 0x10CD3); (0x10C94, 0x10CD4); (0x10C95, 0x10CD5); (0x10C96, 0x10CD6);
    (0x10C97, 0x10CD7); (0x10C98, 0x10CD8); (0x10C99, 0x10CD9); (0x10C9A, 0x10CDA); (0x10C9B, 0x10CDB);
    (0x10C9C, 0x10CDC); (0x10C9D, 0x10CDD); (0x10C9E, 0x10CDE); (0x10C9F, 0x10CDF); (0x10CA0, 0x10CE0);
    (0x10CA1, 0x10CE1); (0x10CA2, 0x10CE2); (0x10CA3, 0x10CE3); (0x10CA4, 0x10CE4); (0x10CA5, 0x10CE5);
    (0x10CA6, 0x10CE6); (0x10CA7, 0x10CE7); (0x10CA8, 0x10CE8); (0x10CA9, 0x10CE9); (0x10CAA, 0x10CEA);
    (0x10CAB, 0x10CEB); (0x10CAC, 0x10CEC); (0x10CAD, 0x10CED); (0x10CAE, 0x10CEE); (0x10CAF, 0x10CEF);
    (0x10CB0, 0x10CF0); (0x10CB1, 0x10CF1); (0x10CB2, 0x10CF2); (0x118A0, 0x118C0); (0x118A1, 0x118C1);
    (0x118A2, 0x118C2); (0x118A3, 0x118C3); (0x118A4, 0x118C4); (0x118A5, 0x118C5); (0x118A6, 0x118C6);
    (0x118A7, 0x118C7); (0x118A8, 0x118C8); (0x118A9, 0x118C9); (0x118AA, 0x118CA); (0x118AB, 0x118CB);
    (0x118AC, 0x118CC); (0x118AD, 0x118CD); (0x118AE, 0x118CE); (0x118AF, 0x118CF); (0x118B0, 0x118D0);
    (0x118B1, 0x118D1); (0x118B2, 0x118D2); (0x118B3, 0x118D3); (0x118B4, 0x118D4); (0x118B5, 0x118D5);
    (0x118B6, 0x118D6); (0x118B7, 0x118D7); (0x118B8, 0x118D8); (0x118B9, 0x118D9); (0x118BA, 0x118DA);
    (0x118BB, 0x118DB); (0x118BC, 0x118DC); (0x118BD, 0x118DD); (0x118BE, 0x118DE); (0x118BF, 0x118DF);
    (0x16E40, 0x16E60); (0x16E41, 0x16E61); (0x16E42, 0x16E62); (0x16E43, 0x16E63); (0x16E44, 0x16E64);
    (0x16E45, 0x16E65); (0x16E46, 0x16E66); (0x16E47, 0x16E67); (0x16E48, 0x16E68); (0x16E49, 0x16E69);
    (0x16E4A, 0x16E6A); (0x16E4B, 0x16E6B); (0x16E4C, 0x16E6C); (0x16E4D, 0x16E6D); (0x16E4E, 0x16E6E);
    (0x16E4F, 0x16E6F); (0x16E50, 0x16E70); (0x16E51, 0x16E71); (0x16E52, 0x16E72); (0x16E53, 0x16E73);
    (0x16E54, 0x16E74); (0x16E55, 0x16E75); (0x16E56, 0x16E76); (0x16E57, 0x16E77); (0x16E58, 0x16E78);
    (0x16E59, 0x16E79); (0x16E5A, 0x16E7A); (0x16E5B, 0x16E7B); (0x16E5C, 0x16E7C); (0x16E5D, 0x16E7D);
    (0x16E5E, 0x16E7E); (0x16E5F, 0x16E7F); (0x1E900, 0x1E922); (0x1E901, 0x1E923); (0x1E902, 0x1E924);
    (0x1E903, 0x1E925); (0x1E904, 0x1E926); (0x1E905, 0x1E927); (0x1E906, 0x1E928); (0x1E907, 0x1E929);
    (0x1E908, 0x1E92A); (0x1E909, 0x1E92B); (0x1E90A, 0x1E92C); (0x1E90B, 0x1E92D); (0x1E90C, 0x1E92E);
    (0x1E90D, 0x1E92F); (0x1E90E, 0x1E930); (0x1E90F, 0x1E931); (0x1E910, 0x1E932); (0x1E911, 0x1E933);
    (0x1E912, 0x1E934); (0x1E913, 0x1E935); (0x1E914, 0x1E936); (0x1E915, 0x1E937); (0x1E916, 0x1E938);
    (0x1E917, 0x1E939); (0x1E918, 0x1E93A); (0x1E919, 0x1E93B); (0x1E91A, 0x1E93C); (0x1E91B, 0x1E93D);
    (0x1E91C, 0x1E93E); (0x1E91D, 0x1E93F); (0x1E91E, 0x1E940); (0x1E91F, 0x1E941); (0x1E920, 0x1E942);
    (0x1E921, 0x1E943) ].

(** The cased characters that are not case-ignorable. *)
Definition cased_ranges : list (Z * Z) :=
  [
    (0x41, 0x5A); (0x61, 0x7A); (0xAA, 0xAA); (0xB5, 0xB5); (0xBA, 0xBA);
    (0xC0, 0xD6); (0xD8, 0xF6); (0xF8, 0x1BA); (0x1BC, 0x1BF); (0x1C4, 0x293);
    (0x295, 0x2AF); (0x370, 0x373); (0x376, 0x377); (0x37B, 0x37D); (0x37F, 0x37F);
    (0x386, 0x386); (0x388, 0x38A); (0x38C, 0x38C); (0x38E, 0x3A1); (0x3A3, 0x3F5);
    (0x3F7, 0x481); (0x48A, 0x52F); (0x531, 0x556); (0x560, 0x588); (0x10A0, 0x10C5);
    (0x10C7, 0x10C7); (0x10CD, 0x10CD); (0x10D0, 0x10FA); (0x10FD, 0x10FF); (0x13A0, 0x13F5);
    (0x13F8, 0x13FD); (0x1C80, 0x1C88); (0x1C90, 0x1CBA); (0x1CBD, 0x1CBF); (0x1D00, 0x1D2B);
    (0x1D6B, 0x1D77); (0x1D79, 0x1D9A); (0x1E00, 0x1F15); (0x1F18, 0x1F1D); (0x1F20, 0x1F45);
    (0x1F48, 0x1F4D); (0x1F50, 0x1F57); (0x1F59, 0x1F59); (0x1F5B, 0x1F5B); (0x1F5D, 0x1F5D);
    (0x1F5F, 0x1F7D); (0x1F80, 0x1FB4); (0x1FB6, 0x1FBC); (0x1FBE, 0x1FBE); (0x1FC2, 0x1FC4);
    (0x1FC6, 0x1FCC); (0x1FD0, 0x1FD3); (0x1FD6, 0x1FDB); (0x1FE0, 0x1FEC); (0x1FF2, 0x1FF4);
    (0x1FF6, 0x1FFC); (0x2102, 0x2102); (0x2107, 0x2107); (0x210A, 0x2113); (0x2115, 0x2115);
    (0x2119, 0x211D); (0x2124, 0x2124); (0x2126, 0x2126); (0x2128, 0x2128); (0x212A, 0x212D);
    (0x212F, 0x2134); (0x2139, 0x2139); (0x213C, 0x213F); (0x2145, 0x2149); (0x214E, 0x214E);
    (0x2160, 0x217F); (0x2183, 0x2184); (0x24B6, 0x24E9); (0x2C00, 0x2C7B); (0x2C7E, 0x2CE4);
    (0x2CEB, 0x2CEE); (0x2CF2, 0x2CF3); (0x2D00, 0x2D25); (0x2D27, 0x2D27); (0x2D2D, 0x2D2D);
    (0xA640, 0xA66D); (0xA680, 0xA69B); (0xA722, 0xA76F); (0xA771, 0xA787); (0xA78B, 0xA78E);
    (0xA790, 0xA7CA); (0xA7D0, 0xA7D1); (0xA7D3, 0xA7D3); (0xA7D5, 0xA7D9); (0xA7F5, 0xA7F6);
    (0xA7FA, 0xA7FA); (0xAB30, 0xAB5A); (0xAB60, 0xAB68); (0xAB70, 0xABBF); (0xFB00, 0xFB06);
    (0xFB13, 0xFB17); (0xFF21, 0xFF3A); (0xFF41, 0xFF5A); (0x10400, 0x1044F); (0x104B0, 0x104D3);
    (0x104D8, 0x104FB); (0x10570, 0x1057A); (0x1057C, 0x1058A); (0x1058C, 0x10592); (0x10594, 0x10595);
    (0x10597, 0x105A1); (0x105A3, 0x105B1); (0x105B3, 0x105B9); (0x105BB, 0x105BC); (0x10C80, 0x10CB2);
    (0x10CC0, 0x10CF2); (0x118A0, 0x118DF); (0x16E40, 0x16E7F); (0x1D400, 0x1D454); (0x1D456, 0x1D49C);
    (0x1D49E, 0x1D49F); (0x1D4A2, 0x1D4A2); (0x1D4A5, 0x1D4A6); (0x1D4A9, 0x1D4AC); (0x1D4AE, 0x1D4B9);
    (0x1D4BB, 0x1D4BB); (0x1D4BD, 0x1D4C3); (0x1D4C5, 0x1D505); (0x1D507, 0x1D50A); (0x1D50D, 0x1D514);
    (0x1D516, 0x1D51C); (0x1D51E, 0x1D539); (0x1D53B, 0x1D53E); (0x1D540, 0x1D544); (0x1D546, 0x1D546);
    (0x1D54A, 0x1D550); (0x1D552, 0x1D6A5); (0x1D6A8, 0x1D6C0); (0x1D6C2, 0x1D6DA); (0x1D6DC, 0x1D6FA);
    (0x1D6FC, 0x1D714); (0x1D716, 0x1D734); (0x1D736, 0x1D74E); (0x1D750, 0x1D76E); (0x1D770, 0x1D788);
    (0x1D78A, 0x1D7A8); (0x1D7AA, 0x1D7C2); (0x1D7C4, 0x1D7CB); (0x1DF00, 0x1DF09); (0x1DF0B, 0x1DF1E);
    (0x1E900, 0x1E943); (0x1F130, 0x1F149); (0x1F150, 0x1F169); (0x1F170, 0x1F189) ].

(** The case-ignorable characters. *)
Definition ignorable_ranges : list (Z * Z) :=
  [
    (0x27, 0x27); (0x2E, 0x2E); (0x3A, 0x3A); (0x5E, 0x5E); (0x60, 0x60);
    (0xA8, 0xA8); (0xAD, 0xAD); (0xAF, 0xAF); (0xB4, 0xB4); (0xB7, 0xB8);
    (0x2B0, 0x36F); (0x374, 0x375); (0x37A, 0x37A); (0x384, 0x385); (0x387, 0x387);
    (0x483, 0x489); (0x559, 0x559); (0x55F, 0x55F); (0x591, 0x5BD); (0x5BF, 0x5BF);
    (0x5C1, 0x5C2); (0x5C4, 0x5C5); (0x5C7, 0x5C7); (0x5F4, 0x5F4); (0x600, 0x605);
    (0x610, 0x61A); (0x61C, 0x61C); (0x640, 0x640); (0x64B, 0x65F); (0x670, 0x670);
    (0x6D6, 0x6DD); (0x6DF, 0x6E8); (0x6EA, 0x6ED); (0x70F, 0x70F); (0x711, 0x711);
    (0x730, 0x74A); (0x7A6, 0x7B0); (0x7EB, 0x7F5); (0x7FA, 0x7FA); (0x7FD, 0x7FD);
    (0x816, 0x82D); (0x859, 0x85B); (0x888, 0x888); (0x890, 0x891); (0x898, 0x89F);
    (0x8C9, 0x902); (0x93A, 0x93A); (0x93C, 0x93C); (0x941, 0x948); (0x94D, 0x94D);
    (0x951, 0x957); (0x962, 0x963); (0x971, 0x971); (0x981, 0x981); (0x9BC, 0x9BC);
    (0x9C1, 0x9C4); (0x9CD, 0x9CD); (0x9E2, 0x9E3); (0x9FE, 0x9FE); (0xA01, 0xA02);
    (0xA3C, 0xA3C); (0xA41, 0xA42); (0xA47, 0xA48); (0xA4B, 0xA4D); (0xA51, 0xA51);
    (0xA70, 0xA71); (0xA75, 0xA75); (0xA81, 0xA82); (0xABC, 0xABC); (0xAC1, 0xAC5);
    (0xAC7, 0xAC8); (0xACD, 0xACD); (0xAE2, 0xAE3); (0xAFA, 0xAFF); (0xB01, 0xB01);
    (0xB3C, 0xB3C); (0xB3F, 0xB3F); (0xB41, 0xB44); (0xB4D, 0xB4D); (0xB55, 0xB56);
    (0xB62, 0xB63); (0xB82, 0xB82); (0xBC0, 0xBC0); (0xBCD, 0xBCD); (0xC00, 0xC00);
    (0xC04, 0xC04); (0xC3C, 0xC3C); (0xC3E, 0xC40); (0xC46, 0xC48); (0xC4A, 0xC4D);
    (0xC55, 0xC56); (0xC62, 0xC63); (0xC81, 0xC81); (0xCBC, 0xCBC); (0xCBF, 0xCBF);
    (0xCC6, 0xCC6); (0xCCC, 0xCCD); (0xCE2, 0xCE3); (0xD00, 0xD01); (0xD3B, 0xD3C);
    (0xD41, 0xD44); (0xD4D, 0xD4D); (0xD62, 0xD63); (0xD81, 0xD81); (0xDCA, 0xDCA);
    (0xDD2, 0xDD4); (0xDD6, 0xDD6); (0xE31, 0xE31); (0xE34, 0xE3A); (0xE46, 0xE4E);
    (0xEB1, 0xEB1); (0xEB4, 0xEBC); (0xEC6, 0xEC6); (0xEC8, 0xECD); (0xF18, 0xF19);
    (0xF35, 0xF35); (0xF37, 0xF37); (0xF39, 0xF39); (0xF71, 0xF7E); (0xF80, 0xF84);
    (0xF86, 0xF87); (0xF8D, 0xF97); (0xF99, 0xFBC); (0xFC6, 0xFC6); (0x102D, 0x1030);
    (0x1032, 0x1037); (0x1039, 0x103A); (0x103D, 0x103E); (0x1058, 0x1059); (0x105E, 0x1060);
    (0x1071, 0x1074); (0x1082, 0x1082); (0x1085, 0x1086); (0x108D, 0x108D); (0x109D, 0x109D);
    (0x10FC, 0x10FC); (0x135D, 0x135F); (0x1712, 0x1714); (0x1732, 0x1733); (0x1752, 0x1753);
    (0x1772, 0x1773); (0x17B4, 0x17B5); (0x17B7, 0x17BD); (0x17C6, 0x17C6); (0x17C9, 0x17D3);
    (0x17D7, 0x17D7); (0x17DD, 0x17DD); (0x180B, 0x180F); (0x1843, 0x1843); (0x1885, 0x1886);
    (0x18A9, 0x18A9); (0x1920, 0x1922); (0x1927, 0x1928); (0x1932, 0x1932); (0x1939, 0x193B);
    (0x1A17, 0x1A18); (0x1A1B, 0x1A1B); (0x1A56, 0x1A56); (0x1A58, 0x1A5E); (0x1A60, 0x1A60);
    (0x1A62, 0x1A62); (0x1A65, 0x1A6C); (0x1A73, 0x1A7C); (0x1A7F, 0x1A7F); (0x1AA7, 0x1AA7);
    (0x1AB0, 0x1ACE); (0x1B00, 0x1B03); (0x1B34, 0x1B34); (0x1B36, 0x1B3A); (0x1B3C, 0x1B3C);
    (0x1B42, 0x1B42); (0x1B6B, 0x1B73); (0x1B80, 0x1B81); (0x1BA2, 0x1BA5); (0x1BA8, 0x1BA9);
    (0x1BAB, 0x1BAD); (0x1BE6, 0x1BE6); (0x1BE8, 0x1BE9); (0x1BED, 0x1BED); (0x1BEF, 0x1BF1);
    (0x1C2C, 0x1C33); (0x1C36, 0x1C37); (0x1C78, 0x1C7D); (0x1CD0, 0x1CD2); (0x1CD4, 0x1CE0);
    (0x1CE2, 0x1CE8); (0x1CED, 0x1CED); (0x1CF4, 0x1CF4); (0x1CF8, 0x1CF9); (0x1D2C, 0x1D6A);
    (0x1D78, 0x1D78); (0x1D9B, 0x1DFF); (0x1FBD, 0x1FBD); (0x1FBF, 0x1FC1); (0x1FCD, 0x1FCF);
    (0x1FDD, 0x1FDF); (0x1FED, 0x1FEF); (0x1FFD, 0x1FFE); (0x200B, 0x200F); (0x2018, 0x2019);
    (0x2024, 0x2024); (0x2027, 0x2027); (0x202A, 0x202E); (0x2060, 0x2064); (0x2066, 0x206F);
    (0x2071, 0x2071); (0x207F, 0x207F); (0x2090, 0x209C); (0x20D0, 0x20F0); (0x2C7C, 0x2C7D);
    (0x2CEF, 0x2CF1); (0x2D6F, 0x2D6F); (0x2D7F, 0x2D7F); (0x2DE0, 0x2DFF); (0x2E2F, 0x2E2F);
    (0x3005, 0x3005); (0x302A, 0x302D); (0x3031, 0x3035); (0x303B, 0x303B); (0x3099, 0x309E);
    (0x30FC, 0x30FE); (0xA015, 0xA015); (0xA4F8, 0xA4FD); (0xA60C, 0xA60C); (0xA66F, 0xA672);
    (0xA674, 0xA67D); (0xA67F, 0xA67F); (0xA69C, 0xA69F); (0xA6F0, 0xA6F1); (0xA700, 0xA721);
    (0xA770, 0xA770); (0xA788, 0xA78A); (0xA7F2, 0xA7F4); (0xA7F8, 0xA7F9); (0xA802, 0xA802);
    (0xA806, 0xA806); (0xA80B, 0xA80B); (0xA825, 0xA826); (0xA82C, 0xA82C); (0xA8C4, 0xA8C5);
    (0xA8E0, 0xA8F1); (0xA8FF, 0xA8FF); (0xA926, 0xA92D); (0xA947, 0xA951); (0xA980, 0xA982);
    (0xA9B3, 0xA9B3); (0xA9B6, 0xA9B9); (0xA9BC, 0xA9BD); (0xA9CF, 0xA9CF); (0xA9E5, 0xA9E6);
    (0xAA29, 0xAA2E); (0xAA31, 0xAA32); (0xAA35, 0xAA36); (0xAA43, 0xAA43); (0xAA4C, 0xAA4C);
    (0xAA70, 0xAA70); (0xAA7C, 0xAA7C); (0xAAB0, 0xAAB0); (0xAAB2, 0xAAB4); (0xAAB7, 0xAAB8);
    (0xAABE, 0xAABF); (0xAAC1, 0xAAC1); (0xAADD, 0xAADD); (0xAAEC, 0xAAED); (0xAAF3, 0xAAF4);
    (0xAAF6, 0xAAF6); (0xAB5B, 0xAB5F); (0xAB69, 0xAB6B); (0xABE5, 0xABE5); (0xABE8, 0xABE8);
    (0xABED, 0xABED); (0xFB1E, 0xFB1E); (0xFBB2, 0xFBC2); (0xFE00, 0xFE0F); (0xFE13, 0xFE13);
    (0xFE20, 0xFE2F); (0xFE52, 0xFE52); (0xFE55, 0xFE55); (0xFEFF, 0xFEFF); (0xFF07, 0xFF07);
    (0xFF0E, 0xFF0E); (0xFF1A, 0xFF1A); (0xFF3E, 0xFF3E); (0xFF40, 0xFF40); (0xFF70, 0xFF70);
    (0xFF9E, 0xFF9F); (0xFFE3, 0xFFE3); (0xFFF9, 0xFFFB); (0x101FD, 0x101FD); (0x102E0, 0x102E0);
    (0x10376, 0x1037A); (0x10780, 0x10785); (0x10787, 0x107B0); (0x107B2, 0x107BA); (0x10A01, 0x10A03);
    (0x10A05, 0x10A06); (0x10A0C, 0x10A0F); (0x10A38, 0x10A3A); (0x10A3F, 0x10A3F); (0x10AE5, 0x10AE6);
    (0x10D24, 0x10D27); (0x10EAB, 0x10EAC); (0x10F46, 0x10F50); (0x10F82, 0x10F85); (0x11001, 0x11001);
    (0x11038, 0x11046); (0x11070, 0x11070); (0x11073, 0x11074); (0x1107F, 0x11081); (0x110B3, 0x110B6);
    (0x110B9, 0x110BA); (0x110BD, 0x110BD); (0x110C2, 0x110C2); (0x110CD, 0x110CD); (0x11100, 0x11102);
    (0x11127, 0x1112B); (0x1112D, 0x11134); (0x11173, 0x11173); (0x11180, 0x11181); (0x111B6, 0x111BE);
    (0x111C9, 0x111CC); (0x111CF, 0x111CF); (0x1122F, 0x11231); (0x11234, 0x11234); (0x11236, 0x11237);
    (0x1123E, 0x1123E); (0x112DF, 0x112DF); (0x112E3, 0x112EA); (0x11300, 0x11301); (0x1133B, 0x1133C);
    (0x11340, 0x11340); (0x11366, 0x1136C); (0x11370, 0x11374); (0x11438, 0x1143F); (0x11442, 0x11444);
    (0x11446, 0x11446); (0x1145E, 0x1145E); (0x114B3, 0x114B8); (0x114BA, 0x114BA); (0x114BF, 0x114C0);
    (0x114C2, 0x114C3); (0x115B2, 0x115B5); (0x115BC, 0x115BD); (0x115BF, 0x115C0); (0x115DC, 0x115DD);
    (0x11633, 0x1163A); (0x1163D, 0x1163D); (0x1163F, 0x11640); (0x116AB, 0x116AB); (0x116AD, 0x116AD);
    (0x116B0, 0x116B5); (0x116B7, 0x116B7); (0x1171D, 0x1171F); (0x11722, 0x11725); (0x11727, 0x1172B);
    (0x1182F, 0x11837); (0x11839, 0x1183A); (0x1193B, 0x1193C); (0x1193E, 0x1193E); (0x11943, 0x11943);
    (0x119D4, 0x119D7); (0x119DA, 0x119DB); (0x119E0, 0x119E0); (0x11A01, 0x11A0A); (0x11A33, 0x11A38);
    (0x11A3B, 0x11A3E); (0x11A47, 0x11A47); (0x11A51, 0x11A56); (0x11A59, 0x11A5B); (0x11A8A, 0x11A96);
    (0x11A98, 0x11A99); (0x11C30, 0x11C36); (0x11C38, 0x11C3D); (0x11C3F, 0x11C3F); (0x11C92, 0x11CA7);
    (0x11CAA, 0x11CB0); (0x11CB2, 0x11CB3); (0x11CB5, 0x11CB6); (0x11D31, 0x11D36); (0x11D3A, 0x11D3A);
    (0x11D3C, 0x11D3D); (0x11D3F, 0x11D45); (0x11D47, 0x11D47); (0x11D90, 0x11D91); (0x11D95, 0x11D95);
    (0x11D97, 0x11D97); (0x11EF3, 0x11EF4); (0x13430, 0x13438); (0x16AF0, 0x16AF4); (0x16B30, 0x16B36);
    (0x16B40, 0x16B43); (0x16F4F, 0x16F4F); (0x16F8F, 0x16F9F); (0x16FE0, 0x16FE1); (0x16FE3, 0x16FE4);
    (0x1AFF0, 0x1AFF3); (0x1AFF5, 0x1AFFB); (0x1AFFD, 0x1AFFE); (0x1BC9D, 0x1BC9E); (0x1BCA0, 0x1BCA3);
    (0x1CF00, 0x1CF2D); (0x1CF30, 0x1CF46); (0x1D167, 0x1D169); (0x1D173, 0x1D182); (0x1D185, 0x1D18B);
    (0x1D1AA, 0x1D1AD); (0x1D242, 0x1D244); (0x1DA00, 0x1DA36); (0x1DA3B, 0x1DA6C); (0x1DA75, 0x1DA75);
    (0x1DA84, 0x1DA84); (0x1DA9B, 0x1DA9F); (0x1DAA1, 0x1DAAF); (0x1E000, 0x1E006); (0x1E008, 0x1E018);
    (0x1E01B, 0x1E021); (0x1E023, 0x1E024); (0x1E026, 0x1E02A); (0x1E130, 0x1E13D); (0x1E2AE, 0x1E2AE);
    (0x1E2EC, 0x1E2EF); (0x1E8D0, 0x1E8D6); (0x1E944, 0x1E94B); (0x1F3FB, 0x1F3FF); (0xE0001, 0xE0001);
    (0xE0020, 0xE007F); (0xE0100, 0xE01EF) ].

Definition cased (ch : string) : bool := in_ranges (point ch) cased_ranges.
Definition ignorable (ch : string) : bool :=
  in_ranges (point ch) ignorable_ranges.

Fixpoint skip_ignorable (l : list string) : list string :=
  match l with
  | ch :: l' => if ignorable ch then skip_ignorable l' else l
  | [] => []
  end.

(** A capital sigma is final when a cased character precedes it and none
    follows it, case-ignorable characters not counting; [before] holds the
    preceding characters, the nearest first. *)
Definition final_sigma (before after : list string) : bool :=
  match skip_ignorable before with
  | ch :: _ => cased ch
  | [] => false
  end
  && match skip_ignorable after with
     | ch :: _ => negb (cased ch)
     | [] => true
     end.

(** The lowercase mapping of one character, the capital sigma apart. *)
Definition lower_char (ch : string) : list string :=
  let c := point ch in
  if c =? 0x130 then [encode 0x69; encode 0x307]
  else match List.find (λ p, p.1 =? c) lower_pairs with
       | Some p => [encode p.2]
       | None => [ch]
       end.

Fixpoint lower_chars (before : list string) (l : list string) : list string :=
  match l with
  | [] => []
  | ch :: after =>
      (if point ch =? 0x3A3
       then [encode (if final_sigma before after then 0x3C2 else 0x3C3)]
       else lower_char ch)
      ++ lower_chars (ch :: before) after
  end.

(** [str().join(l)] *)
Definition join (l : list string) : string := foldr String.append "" l.

(** [s.lower()] *)
Definition lower (s : string) : string := join (lower_chars [] (chars s)).

(** ** [str.strip] *)

(** The characters that [str.isspace] accepts. *)
Definition whitespace_points : list Z :=
  [
    0x9; 0xA; 0xB; 0xC; 0xD; 0x1C; 0x1D; 0x1E; 0x1F; 0x20;
    0x85; 0xA0; 0x1680; 0x2000; 0x2001; 0x2002; 0x2003; 0x2004; 0x2005; 0x2006;
    0x2007; 0x2008; 0x2009; 0x200A; 0x2028; 0x2029; 0x202F; 0x205F; 0x3000 ].

Definition whitespace : list string :=
  Eval vm_compute in encode <$> whitespace_points.

(** [ch.isspace()] for one character *)
Definition isspace (ch : string) : bool := existsb (String.eqb ch) whitespace.

(** [s.lstrip()]: the whitespace characters at the front are taken off; a
    whitespace character has one, two or three bytes. *)
Fixpoint lstrip (s : string) : string :=
  match s with
  | String b1 r1 =>
      if isspace (String b1 "") then lstrip r1 else
      match r1 with
      | String b2 r2 =>
          if isspace (String b1 (String b2 "")) then lstrip r2 else
          match r2 with
          | String b3 r3 =>
              if isspace (String b1 (String b2 (String b3 "")))
              then lstrip r3 else s
          | EmptyString => s
          end
      | EmptyString => s
      end
  | EmptyString => s
  end.

(** [s.rstrip()]: what follows the last character that is no whitespace is
    taken off.  Going back from the end, once the rest is stripped, the
    bytes kept so far are dropped when they are one whitespace character. *)
Fixpoint rstrip (s : string) : string :=
  match s with
  | EmptyString => EmptyString
  | String b s' =>
      let r := String b (rstrip s') in
      if isspace r then EmptyString else r
  end.

(** [s.strip()] *)
Definition strip (s : string) : string := rstrip (lstrip s).

(** ** [str.split] *)

(** [s.split(sep)] for a one-byte separator: never an empty list. *)
Fixpoint split (sep : ascii) (s : string) : list string :=
  match s with
  | EmptyString => [EmptyString]
  | String c s' =>
      if Ascii.eqb c sep then EmptyString :: split sep s'
      else match split sep s' with
           | piece :: pieces => String c piece :: pieces
           | [] => [String c EmptyString]
           end
  end.

(** truth value of a string: [bool(s)] *)
Definition truthy (s : string) : bool := negb (String.eqb s "").

End Str.

(* ===================================================================== *)
(** * The language-model capability *)
(* ===================================================================== *)

Record Token : Type := {
  is_punct : bool;
  is_space : bool;
  is_stop : bool;
  pos_ : string;
  lemma_ : string
}.

Record Span : Type := { text : string }.

Record Doc : Type := {
  sents : list (list Token);
  ents : list Span
}.

Definition Language : Type := string → result Doc.

(* ===================================================================== *)
(** * Tokenization engine *)
(* ===================================================================== *)

Definition tokenize_description (text : string) (nlp : Language)
  : result (list string) :=
  doc ← nlp text;
  let tokens := [] in
  let tokens :=
    foldl (λ tokens sent,
      foldl (λ tokens token,
        if is_punct token || is_space token || is_stop token
        then tokens                                     (* continue *)
        else tokens ++ [Str.lower (lemma_ token)])
        tokens sent)
      tokens (sents doc) in
  Ok tokens.

Definition tokenize_adjective_cell (cell : string) (nlp : Language)
  : result (list string) :=
  let tokens := [] in
  let candidates :=
    Str.strip <$> List.filter (λ item, Str.truthy (Str.strip item))
                              (Str.split "," cell) in
  for_each candidates (λ tokens cand,
    doc ← nlp cand;
    Ok (foldl (λ tokens sent,
          foldl (λ tokens token,
            if String.eqb (pos_ token) "ADJ"
               && negb (is_stop token) && negb (is_punct token)
            then tokens ++ [Str.lower (lemma_ token)]
            else tokens)
            tokens sent)
          tokens (sents doc)))
    tokens.

Definition tokenize_named_entities (text0 : string) (nlp : Language)
  : result (list string) :=
  doc ← nlp text0;
  Ok (text <$> ents doc).

(** The three functions that are passed as [tokenize_func]. *)
Inductive ExtractionPolicy : Type := FullText | AdjectiveList | NamedEntities.

Definition tokenize_func_of (policy : ExtractionPolicy)
  : string → Language → result (list string) :=
  match policy with
  | FullText => tokenize_description
  | AdjectiveList => tokenize_adjective_cell
  | NamedEntities => tokenize_named_entities
  end.

(** ** The policies as the specification words them *)

Definition lemma_lower (token : Token) : string := Str.lower (lemma_ token).

Definition full_text_retained (token : Token) : bool :=
  negb (is_punct token) && negb (is_space token) && negb (is_stop token).

Definition full_text_spec (cell : string) (nlp : Language)
  : result (list string) :=
  (λ doc, lemma_lower <$> List.filter full_text_retained (concat (sents doc)))
    <$> nlp cell.

Definition adjective_retained (token : Token) : bool :=
  String.eqb (pos_ token) "ADJ" && negb (is_stop token) && negb (is_punct token).

Definition adjective_pieces (cell : string) : list string :=
  List.filter (λ piece, negb (String.eqb piece ""))
              (Str.strip <$> Str.split "," cell).

Definition adjective_piece_spec (nlp : Language) (piece : string)
  : result (list string) :=
  (λ doc, lemma_lower <$> List.filter adjective_retained (concat (sents doc)))
    <$> nlp piece.

Definition adjective_list_spec (cell : string) (nlp : Language)
  : result (list string) :=
  (λ emitted, concat emitted)
    <$> mapM (adjective_piece_spec nlp) (adjective_pieces cell).

(* ===================================================================== *)
(** * Insertion-ordered dictionaries and [collections.Counter] *)
(* ===================================================================== *)

Section dict.
Context {V : Type}.

(** [d.get(k)] *)
Fixpoint dict_get (k : string) (d : list (string * V)) : option V :=
  match d with
  | [] => None
  | (k', v) :: d' => if String.eqb k' k then Some v else dict_get k d'
  end.

(** [d[k] = v]: a present key keeps its position, a new key goes last. *)
Fixpoint dict_set (k : string) (v : V) (d : list (string * V))
  : list (string * V) :=
  match d with
  | [] => [(k, v)]
  | (k', v') :: d' =>
      if String.eqb k' k then (k', v) :: d' else (k', v') :: dict_set k v d'
  end.

(** [dict.update(self, other)] *)
Definition dict_update (self other : list (string * V)) : list (string * V) :=
  foldl (λ self item, dict_set item.1 item.2 self) self other.
End dict.

(** A counter is its [items()] in insertion order. *)
Abbreviation Counter := (list (string * Z)).

(** [c[elem]], which is 0 for an absent element ([Counter.__missing__]),
    and [c.get(elem, 0)]. *)
Definition counter_get (c : Counter) (elem : string) : Z :=
  default 0%Z (dict_get elem c).

(** [Counter.update(iterable)] for an iterable of elements. *)
Definition count_elements (self : Counter) (iterable : list string) : Counter :=
  foldl (λ self elem, dict_set elem (counter_get self elem + 1)%Z self)
        self iterable.

(** [Counter.update(mapping)]: counts are added; an empty counter takes the
    fast path through [dict.update]. *)
Definition update_mapping (self iterable : Counter) : Counter :=
  match self with
  | [] => dict_update self iterable
  | _ :: _ =>
      foldl (λ self item,
               dict_set item.1 (item.2 + counter_get self item.1)%Z self)
            self iterable
  end.

(* ===================================================================== *)
(** * Frequency aggregator *)
(* ===================================================================== *)

(** A cell of the input table: missing ([pd.isna]) or a text.  A cell of
    another type (a number, a date) is not represented. *)
Inductive Cell : Type := NaN | Value (s : string).

(** A row of the table, as [iterrows] yields it: column name to cell. *)
Abbreviation Row := (gmap string Cell).

(** [m[k]] on a dictionary: [KeyError] for an absent key. *)
Definition getitem {V : Type} (m : gmap string V) (k : string) : result V :=
  match m !! k with
  | Some v => Ok v
  | None => Raise (KeyError k)
  end.

(** The body of the loop over the columns of one row. *)
Definition count_cell
    (tokenize_func : string → Language → result (list string)) (nlp : Language)
    (row : Row) (counters : gmap string Counter) (col : string)
  : result (gmap string Counter) :=
  cell ← getitem row col;
  match cell with
  | NaN => Ok counters                                  (* continue *)
  | Value cell =>
      tokens ← tokenize_func cell nlp;
      counter ← getitem counters col;
      Ok (<[col := count_elements counter tokens]> counters)
  end.

(** The body of the loop over the rows. *)
Definition count_row
    (tokenize_func : string → Language → result (list string)) (nlp : Language)
    (columns : list string) (counters : gmap string Counter) (row : Row)
  : result (gmap string Counter) :=
  for_each columns (count_cell tokenize_func nlp row) counters.

(** [{col: Counter() for col in columns}] *)
Definition empty_counters (columns : list string) : gmap string Counter :=
  foldl (λ counters col, <[col := []]> counters) ∅ columns.

Definition compute_counters (data : list Row) (columns : list string)
    (tokenize_func : string → Language → result (list string)) (nlp : Language)
  : result (gmap string Counter) :=
  let counters := empty_counters columns in
  for_each data (count_row tokenize_func nlp columns) counters.

(* ===================================================================== *)
(** * Table builder *)
(* ===================================================================== *)

(** [sorted(l, key=key, reverse=reverse)]: the stable sort.  [x] is put in
    front of the first entry that does not have to precede it, so entries
    with equal keys keep the order they had in [l]. *)
Section sorted.
Context {A : Type} (key : A → Z) (reverse : bool).

Definition precedes (x y : A) : bool :=
  if reverse then (key y <? key x)%Z else (key x <? key y)%Z.

Fixpoint sorted_insert (x : A) (l : list A) : list A :=
  match l with
  | [] => [x]
  | y :: l' => if precedes y x then y :: sorted_insert x l' else x :: y :: l'
  end.

Definition sorted (l : list A) : list A := foldr sorted_insert [] l.

(** [in_order x y]: nothing forces [y] in front of [x]. *)
Definition in_order (x y : A) : Prop := precedes y x = false.
End sorted.

Definition get_sorted_list (counter : Counter) : list (string * Z) :=
  sorted (λ x, x.2) true counter.

(** A column of the output: a list of words or a list of frequencies. *)
Inductive Column : Type :=
  | Words (words : list string)
  | Freqs (freqs : list Z).

Definition column_length (c : Column) : nat :=
  match c with
  | Words words => length words
  | Freqs freqs => length freqs
  end.

(** [while len(words) < max_length: words.append(""); freqs.append(0)] *)
Fixpoint pad_loop (fuel max_length : nat) (words : list string) (freqs : list Z)
  : result (list string * list Z) :=
  if decide (length words < max_length) then
    match fuel with
    | 0 => Raise Diverged
    | S fuel' => pad_loop fuel' max_length (words ++ [""]) (freqs ++ [0%Z])
    end
  else Ok (words, freqs).

(** The loop gains one entry per turn, so [max_length] turns are enough
    ([pad_loop_total] below). *)
Definition pad (max_length : nat) (words : list string) (freqs : list Z)
  : result (list string * list Z) :=
  pad_loop max_length max_length words freqs.

(** [pd.DataFrame(df_dict)]: the columns in insertion order, all of one
    length, which is the number of rows. *)
Record DataFrame : Type := {
  df_columns : list (string * Column);
  df_rows : nat
}.

Definition mk_DataFrame (df_dict : list (string * Column)) : result DataFrame :=
  match df_dict with
  | [] => Ok {| df_columns := []; df_rows := 0 |}
  | (_, c) :: _ =>
      if forallb (λ item, column_length item.2 =? column_length c) df_dict
      then Ok {| df_columns := df_dict; df_rows := column_length c |}
      else Raise ValueError
  end.

(** The first loop of [build_master_dataframe] and the two statements after
    it: the ranked list of every column, the overall counter, its ranked list
    and [max_length]. *)
Record Ranking : Type := {
  sorted_data : gmap string (list (string * Z));
  overall : Counter;
  overall_sorted : list (string * Z);
  max_length : nat
}.

(** The body of the first loop. *)
Definition rank_step (counters : gmap string Counter)
    (state : gmap string (list (string * Z)) * Counter * nat) (col : string)
  : result (gmap string (list (string * Z)) * Counter * nat) :=
  let '(sorted_data, overall, max_length) := state in
  counter ← getitem counters col;
  let sorted_list := get_sorted_list counter in
  let sorted_data := <[col := sorted_list]> sorted_data in
  let overall := update_mapping overall counter in
  let max_length := max_length `max` length sorted_list in
  Ok (sorted_data, overall, max_length).

Definition rank_columns (counters : gmap string Counter) (columns : list string)
  : result Ranking :=
  let overall : Counter := [] in
  let sorted_data : gmap string (list (string * Z)) := ∅ in
  let max_length := 0 in
  '(sorted_data, overall, max_length) ←
    for_each columns (rank_step counters) (sorted_data, overall, max_length);
  let overall_sorted := get_sorted_list overall in
  let max_length := max_length `max` length overall_sorted in
  Ok {| sorted_data := sorted_data; overall := overall;
        overall_sorted := overall_sorted; max_length := max_length |}.

(** The padded pair of one column, as the second loop computes it. *)
Definition column_pair (r : Ranking) (col : string)
  : result (list string * list Z) :=
  sorted_list ← getitem (sorted_data r) col;
  let words := sorted_list.*1 in
  let freqs := sorted_list.*2 in
  pad (max_length r) words freqs.

Definition overall_pair (r : Ranking) : result (list string * list Z) :=
  let overall_words := (overall_sorted r).*1 in
  let overall_freqs := (overall_sorted r).*2 in
  pad (max_length r) overall_words overall_freqs.

(** The body of the second loop: the two output columns of one column. *)
Definition emit_column (r : Ranking) (df_dict : list (string * Column))
    (col : string) : result (list (string * Column)) :=
  '(words, freqs) ← column_pair r col;
  let df_dict := dict_set (col +:+ "_Word") (Words words) df_dict in
  let df_dict := dict_set (col +:+ "_Frequency") (Freqs freqs) df_dict in
  Ok df_dict.

Definition build_df_dict (r : Ranking) (columns : list string)
  : result (list (string * Column)) :=
  let df_dict : list (string * Column) := [] in
  df_dict ← for_each columns (emit_column r) df_dict;
  '(overall_words, overall_freqs) ← overall_pair r;
  let df_dict := dict_set "Overall_Word" (Words overall_words) df_dict in
  let df_dict := dict_set "Overall_Frequency" (Freqs overall_freqs) df_dict in
  Ok df_dict.

Definition build_master_dataframe (counters : gmap string Counter)
    (columns : list string) : result DataFrame :=
  r ← rank_columns counters columns;
  df_dict ← build_df_dict r columns;
  mk_DataFrame df_dict.

(* ===================================================================== *)
(** * The pipeline *)
(* ===================================================================== *)

(** What a run can change: the files written and the lines printed.  A file
    holds the table that [to_csv(..., index=False)] serializes.  What a run
    cannot change: the paths that cannot be opened for writing. *)
Record World : Type := {
  files : gmap string DataFrame;
  stdout : list string;
  unwritable : gset string
}.

(** [df.to_csv(filename, index=False)]: the file is created or replaced; a
    path that cannot be opened for writing is refused with [OSError]. *)
Definition to_csv (df : DataFrame) (filename : string) (w : World)
  : result World :=
  if decide (filename ∈ unwritable w) then Raise (OSError filename)
  else Ok {| files := <[filename := df]> (files w);
             stdout := stdout w;
             unwritable := unwritable w |}.

Definition print (line : string) (w : World) : World :=
  {| files := files w;
     stdout := stdout w ++ [line];
     unwritable := unwritable w |}.

Definition process_and_save (data : list Row) (columns : list string)
    (tokenize_func : string → Language → result (list string)) (nlp : Language)
    (output_filename : string) (w : World) : result World :=
  counters ← compute_counters data columns tokenize_func nlp;
  master_df ← build_master_dataframe counters columns;
  w ← to_csv master_df output_filename w;
  Ok (print ("Saved: " +:+ output_filename) w).

(* ===================================================================== *)
(** * The model as an object with a state *)
(* ===================================================================== *)

(** [nlp] is an object, and a call may change it: a call on a model in state
    [m] gives the document or the exception, and the state that the call
    leaves.  The functions of the script that use the model are written out
    once more with that state passed along.  [Language] above is the view of
    a model whose answers do not depend on its state. *)
Definition Model (M : Type) : Type := string → M → result Doc * M.

Section model_state.
Context {M : Type}.

(** A computation that uses the model. *)
Definition Run (A : Type) : Type := M → result A * M.

Definition run_ret {A : Type} (a : A) : Run A := λ m, (Ok a, m).

Definition run_lift {A : Type} (r : result A) : Run A := λ m, (r, m).

Definition run_bind {A B : Type} (x : Run A) (f : A → Run B) : Run B := λ m,
  match x m with
  | (Ok a, m') => f a m'
  | (Raise e, m') => (Raise e, m')
  end.

Fixpoint run_for_each {A S : Type} (xs : list A) (body : S → A → Run S) (s : S)
  : Run S :=
  match xs with
  | [] => run_ret s
  | x :: xs' => run_bind (body s x) (run_for_each xs' body)
  end.

Definition tokenize_description_run (text : string) (nlp : Model M)
  : Run (list string) :=
  run_bind (nlp text) (λ doc,
  let tokens := [] in
  let tokens :=
    foldl (λ tokens sent,
      foldl (λ tokens token,
        if is_punct token || is_space token || is_stop token
        then tokens                                     (* continue *)
        else tokens ++ [Str.lower (lemma_ token)])
        tokens sent)
      tokens (sents doc) in
  run_ret tokens).

Definition tokenize_adjective_cell_run (cell : string) (nlp : Model M)
  : Run (list string) :=
  let tokens := [] in
  let candidates :=
    Str.strip <$> List.filter (λ item, Str.truthy (Str.strip item))
                              (Str.split "," cell) in
  run_for_each candidates (λ tokens cand,
    run_bind (nlp cand) (λ doc,
    run_ret (foldl (λ tokens sent,
               foldl (λ tokens token,
                 if String.eqb (pos_ token) "ADJ"
                    && negb (is_stop token) && negb (is_punct token)
                 then tokens ++ [Str.lower (lemma_ token)]
                 else tokens)
                 tokens sent)
               tokens (sents doc))))
    tokens.

Definition tokenize_named_entities_run (text0 : string) (nlp : Model M)
  : Run (list string) :=
  run_bind (nlp text0) (λ doc, run_ret (text <$> ents doc)).

Definition tokenize_func_run (policy : ExtractionPolicy)
  : string → Model M → Run (list string) :=
  match policy with
  | FullText => tokenize_description_run
  | AdjectiveList => tokenize_adjective_cell_run
  | NamedEntities => tokenize_named_entities_run
  end.

Definition count_cell_run
    (tokenize_func : string → Model M → Run (list string)) (nlp : Model M)
    (row : Row) (counters : gmap string Counter) (col : string)
  : Run (gmap string Counter) :=
  run_bind (run_lift (getitem row col)) (λ cell,
  match cell with
  | NaN => run_ret counters                             (* continue *)
  | Value cell =>
      run_bind (tokenize_func cell nlp) (λ tokens,
      run_bind (run_lift (getitem counters col)) (λ counter,
      run_ret (<[col := count_elements counter tokens]> counters)))
  end).

Definition count_row_run
    (tokenize_func : string → Model M → Run (list string)) (nlp : Model M)
    (columns : list string) (counters : gmap string Counter) (row : Row)
  : Run (gmap string Counter) :=
  run_for_each columns (count_cell_run tokenize_func nlp row) counters.

Definition compute_counters_run (data : list Row) (columns : list string)
    (tokenize_func : string → Model M → Run (list string)) (nlp : Model M)
  : Run (gmap string Counter) :=
  let counters := empty_counters columns in
  run_for_each data (count_row_run tokenize_func nlp columns) counters.

Definition process_and_save_run (data : list Row) (columns : list string)
    (tokenize_func : string → Model M → Run (list string)) (nlp : Model M)
    (output_filename : string) (w : World) : Run World :=
  run_bind (compute_counters_run data columns tokenize_func nlp) (λ counters,
  run_bind (run_lift (build_master_dataframe counters columns)) (λ master_df,
  run_bind (run_lift (to_csv master_df output_filename w)) (λ w,
  run_ret (print ("Saved: " +:+ output_filename) w)))).

(** The model is deterministic: what a call returns or raises depends on the
    text only, not on the state of the model. *)
Definition deterministic (nlp : Model M) : Prop :=
  ∀ s m m', (nlp s m).1 = (nlp s m').1.

(** The answers of the model in state [m]. *)
Definition answers (nlp : Model M) (m : M) : Language := λ s, (nlp s m).1.

End model_state.

(* ===================================================================== *)
(** * Sample data: a toy language model and a small survey *)
(* ===================================================================== *)

Definition happy_token : Token :=
  {| is_punct := false; is_space := false; is_stop := false;
     pos_ := "ADJ"; lemma_ := "happy" |}.

(** A model that knows one word. *)
Definition nlp_happy : Language := λ s,
  if String.eqb s "happy"
  then Ok {| sents := [[happy_token]]; ents := [ {| text := s |} ] |}
  else Ok {| sents := []; ents := [] |}.

(** A pipeline without a lemmatizer: every text is one token, and its lemma
    was never set. *)
Definition nlp_blank : Language := λ s,
  Ok {| sents := [[ {| is_punct := false; is_space := false; is_stop := false;
                       pos_ := "ADJ"; lemma_ := "" |} ]];
        ents := [] |}.

(** A word that is neither punctuation, nor whitespace, nor a stop word. *)
Definition word (lemma pos : string) : Token :=
  {| is_punct := false; is_space := false; is_stop := false;
     pos_ := pos; lemma_ := lemma |}.

(** A document of two sentences: a stop word and a noun, then a space, an
    adjective and a full stop. *)
Definition school_doc : Doc :=
  {| sents :=
       [ [ {| is_punct := false; is_space := false; is_stop := true;
              pos_ := "DET"; lemma_ := "the" |};
           word "ÉCOLE" "NOUN" ];
         [ {| is_punct := false; is_space := true; is_stop := false;
              pos_ := "SPACE"; lemma_ := " " |};
           word "Big" "ADJ";
           {| is_punct := true; is_space := false; is_stop := false;
              pos_ := "PUNCT"; lemma_ := "." |} ] ];
     ents := [] |}.

(** A model that finds that document in every text. *)
Definition nlp_school : Language := λ _, Ok school_doc.

(** A model that takes every text for one adjective, its own lemma. *)
Definition nlp_echo : Language := λ s,
  Ok {| sents := [[word s "ADJ"]]; ents := [] |}.

(* ===================================================================== *)
(** * Vocabulary of the statements *)
(* ===================================================================== *)

(** The sum of the counts of [t] in the counters [cs]. *)
Definition sum_counts (cs : list Counter) (t : string) : Z :=
  foldr (λ c acc, (counter_get c t + acc)%Z) 0%Z cs.

(** The counters [cs] are the ones [counters] holds for [columns], in order. *)
Definition counters_of (counters : gmap string Counter) (columns : list string)
    (cs : list Counter) : Prop :=
  Forall2 (λ col c, counters !! col = Some c) columns cs.

(** A well-formed dictionary has no key twice. *)
Definition well_formed {V : Type} (d : list (string * V)) : Prop := NoDup d.*1.

(** A ranked list brought to [n] rows: its entries first, then only padding. *)
Definition padded_words (ranked : list (string * Z)) (n : nat) : list string :=
  ranked.*1 ++ replicate (n - length ranked) "".

Definition padded_freqs (ranked : list (string * Z)) (n : nat) : list Z :=
  ranked.*2 ++ replicate (n - length ranked) 0%Z.

(** A small mapping of two designated columns to their counters. *)
Definition sample_counters : gmap string Counter :=
  <["A" := [("x", 2%Z); ("y", 1%Z); ("z", 1%Z)]]>
    (<["B" := [("x", 1%Z)]]> ∅).

(** Every entry of every counter names a token that satisfies [Q] and has a
    count of at least one. *)
Definition counted (Q : string → Prop) (counters : gmap string Counter) : Prop :=
  ∀ col c, counters !! col = Some c → Forall (λ e, Q e.1 ∧ (1 ≤ e.2)%Z) c.

(** A survey of three answers; the second respondent left the question out. *)
Definition sample_data : list Row :=
  [ <["Adjectives_1" := Value "happy, happy"]> ∅;
    <["Adjectives_1" := NaN]> ∅;
    <["Adjectives_1" := Value "Happy"]> ∅ ].

(** The model never hands out an empty lemma or an empty entity text. *)
Definition model_leaves_no_empty (nlp : Language) : Prop :=
  ∀ s doc, nlp s = Ok doc →
    (∀ sent token, sent ∈ sents doc → token ∈ sent → lemma_ token ≠ "")
    ∧ (∀ ent, ent ∈ ents doc → text ent ≠ "").

(** A model for the sentence of the cat: "the" is a stop word, "sat" has the
    lemma "sit", the full stop is punctuation. *)
Definition nlp_cat : Language := λ s,
  if String.eqb s "The cat sat."
  then Ok {| sents :=
               [[ {| is_punct := false; is_space := false; is_stop := true;
                     pos_ := "DET"; lemma_ := "the" |};
                  {| is_punct := false; is_space := false; is_stop := false;
                     pos_ := "NOUN"; lemma_ := "cat" |};
                  {| is_punct := false; is_space := false; is_stop := false;
                     pos_ := "VERB"; lemma_ := "sit" |};
                  {| is_punct := true; is_space := false; is_stop := false;
                     pos_ := "PUNCT"; lemma_ := "." |} ]];
             ents := [] |}
  else Raise (CapabilityFailure s).

(** The world before the first run: no file, nothing printed. *)
Definition fresh_world : World :=
  {| files := ∅; stdout := []; unwritable := ∅ |}.

(** A model that counts its calls and answers as [nlp_happy] does. *)
Definition nlp_counting : Model nat := λ s calls, (nlp_happy s, S calls).


(** ** Vocabulary for characters and [str.lower] *)

(** The bytes of one character: [next] reads them all and nothing is left. *)
Definition is_char (ch : string) : Prop := Str.next ch = Some (ch, "").

(** One byte that begins no character. *)
Definition stray (ch : string) : Prop :=
  ∃ b, ch = String b "" ∧ Str.next ch = None.

(** The same, as a test. *)
Definition is_char_b (ch : string) : bool :=
  match Str.next ch with Some (_, EmptyString) => true | _ => false end.

(** A text: every byte belongs to a character. *)
Definition is_text (s : string) : Prop := Forall is_char (Str.chars s).

(** A character that [lower] leaves as it is: [ch.lower() == ch]. *)
Definition stable (ch : string) : Prop := Str.lower_chars [] [ch] = [ch].

(** A lowered text: each of its characters is left as it is by [lower]. *)
Definition lowered (t : string) : Prop :=
  Forall (λ ch, is_char ch ∧ stable ch) (Str.chars t).

(** The letters A to Z. *)
Definition ascii_capital (c : ascii) : bool :=
  (0x41 <=? Str.code c)%Z && (Str.code c <=? 0x5A)%Z.

(** No ASCII capital letter in the string. *)
Definition lowercase (s : string) : Prop :=
  Forall (λ c, ascii_capital c = false) (String.list_ascii_of_string s).

(** A character without a lowercase mapping, checked on the tables. *)
Definition plain (ch : string) : bool :=
  let c := Str.point ch in
  is_char_b ch && negb (c =? 0x3A3)%Z && negb (c =? 0x130)%Z
  && match List.find (λ p, p.1 =? c)%Z Str.lower_pairs with
     | None => true
     | Some _ => false
     end.

(** The lemmas that the model hands out are texts. *)
Definition model_texts (nlp : Language) : Prop :=
  ∀ s doc sent token,
    nlp s = Ok doc → sent ∈ sents doc → token ∈ sent → is_text (lemma_ token).

(** ** Vocabulary for [str.strip] and [str.split] *)

(** Whitespace characters only, any number of them. *)
Inductive all_space : string → Prop :=
  | all_space_nil : all_space ""
  | all_space_cons (w s : string) :
      Str.isspace w = true → all_space s → all_space (w +:+ s).

(** No whitespace character at the start. *)
Definition starts_clean (s : string) : Prop :=
  ∀ w rest, s = w +:+ rest → Str.isspace w = false.

(** No whitespace character at the end. *)
Definition ends_clean (s : string) : Prop :=
  ∀ rest w, s = rest +:+ w → Str.isspace w = false.

(** [t] is [raw] without the whitespace at its two ends. *)
Definition trimmed (raw t : string) : Prop :=
  ∃ pre post, raw = pre +:+ t +:+ post
              ∧ all_space pre ∧ all_space post
              ∧ starts_clean t ∧ ends_clean t.

(** A cell of commas and whitespace characters only. *)
Inductive blank_cell : string → Prop :=
  | blank_nil : blank_cell ""
  | blank_comma (s : string) : blank_cell s → blank_cell ("," +:+ s)
  | blank_space (w s : string) :
      Str.isspace w = true → blank_cell s → blank_cell (w +:+ s).

(** A whitespace character has one to three bytes, none of them a comma, and
    no whitespace character begins it. *)
Definition whitespace_shape (w : string) : bool :=
  negb (existsb (Ascii.eqb ",") (String.list_ascii_of_string w))
  && match w with
     | String b1 EmptyString => true
     | String b1 (String b2 EmptyString) => negb (Str.isspace (String b1 ""))
     | String b1 (String b2 (String b3 EmptyString)) =>
         negb (Str.isspace (String b1 ""))
         && negb (Str.isspace (String b1 (String b2 "")))
     | _ => false
     end.

(** The distinct tokens of a stream, in the order of their first
    appearance. *)
Definition first_seen (seen : list string) (tokens : list string) : list string :=
  foldl (λ seen t, if decide (t ∈ seen) then seen else seen ++ [t]) seen tokens.

(** The number of times [t] occurs in the stream. *)
Definition occurrences (t : string) (tokens : list string) : Z :=
  Z.of_nat (length (filter (λ t', t' = t) tokens)).

(* ===================================================================== *)
(** * The script *)
(* ===================================================================== *)

(** The sheet as [pd.read_excel] returns it: a number of columns and the
    rows, each with one cell per column. *)
Record Sheet : Type := {
  ncols : nat;
  sheet_rows : list (list Cell)
}.

(** [data.columns = names]: the columns are renamed by position; pandas
    refuses a list of another length. *)
Definition set_columns (names : list string) (sheet : Sheet) : result (list Row) :=
  if ncols sheet =? length names
  then Ok ((λ cells, list_to_map (zip names cells) : Row) <$> sheet_rows sheet)
  else Raise ValueError.

Definition column_names : list string :=
  [ "Timestamp";
    "Description_1"; "Adjectives_1";
    "Description_2"; "Adjectives_2";
    "Description_3"; "Adjectives_3";
    "Description_4"; "Adjectives_4";
    "Description_5"; "Adjectives_5";
    "Description_6"; "Adjectives_6";
    "Familiarity_AI_Gen"; "AI_Art_Real"; "Education" ].

Definition description_cols : list string :=
  [ "Description_1"; "Description_2"; "Description_3";
    "Description_4"; "Description_5"; "Description_6" ].

Definition adjective_cols : list string :=
  [ "Adjectives_1"; "Adjectives_2"; "Adjectives_3";
    "Adjectives_4"; "Adjectives_5"; "Adjectives_6" ].

(** The main block, from the sheet that was read and the model that was
    loaded.  What has been written and printed stays when a later statement
    raises: the outcome is the world reached and the exception, if any. *)
Definition main (sheet : Sheet) (nlp : Language) (w : World)
  : World * option exn :=
  match set_columns column_names sheet with
  | Raise e => (w, Some e)
  | Ok data =>
      match process_and_save data description_cols tokenize_description nlp
              "descriptions_frequencies.csv" w with
      | Raise e => (w, Some e)
      | Ok w =>
          match process_and_save data adjective_cols tokenize_adjective_cell
                  nlp "adjectives_frequencies.csv" w with
          | Raise e => (w, Some e)
          | Ok w => (w, None)
          end
      end
  end.

(* ===================================================================== *)
(** * More vocabulary *)
(* ===================================================================== *)

(** What one cell contributes: nothing when it is missing, its tokens
    otherwise; an absent column or a failing tokenizer is an exception. *)
Definition cell_tokens
    (tokenize_func : string → Language → result (list string)) (nlp : Language)
    (row : Row) (col : string) : result (list string) :=
  cell ← getitem row col;
  match cell with
  | NaN => Ok []
  | Value cell => tokenize_func cell nlp
  end.

(** The tokens of one column, row by row. *)
Definition column_stream
    (tokenize_func : string → Language → result (list string)) (nlp : Language)
    (data : list Row) (col : string) : result (list (list string)) :=
  mapM (λ row, cell_tokens tokenize_func nlp row col) data.

(** A piece as the AdjectiveList policy hands it to the model: not empty,
    without a comma, without whitespace at either end. *)
Definition clean_piece (s : string) : Prop :=
  s ≠ "" ∧ (","%char ∉ String.list_ascii_of_string s)
  ∧ starts_clean s ∧ ends_clean s.

(** The headers of the output table for the given columns. *)
Definition headers (columns : list string) : list string :=
  (columns ≫= λ col, [col +:+ "_Word"; col +:+ "_Frequency"])
  ++ ["Overall_Word"; "Overall_Frequency"].


(** A model that fails on the empty text and is [nlp_happy] elsewhere. *)
Definition nlp_strict : Language := λ s,
  if String.eqb s "" then Raise (CapabilityFailure "empty text")
  else nlp_happy s.

(** The counters after each listed column was fed its tokens. *)
Definition feed (counters : gmap string Counter)
    (fed : list (string * list string)) : gmap string Counter :=
  foldl (λ m ct, alter (λ c, count_elements c ct.2) ct.1 m) counters fed.

(** The tokens that a list of feedings holds for one column. *)
Definition pick (col : string) (fed : list (string * list string))
  : list string :=
  concat (snd <$> filter (λ ct, ct.1 = col) fed).

(** The total of the occurrences of [t] in the streams of several columns. *)
Definition total_occurrences (t : string) (streams : list (list (list string)))
  : Z :=
  foldr (λ column acc, (occurrences t (concat column) + acc)%Z) 0%Z streams.

(** A sheet with one answer. *)
Definition sample_sheet : Sheet :=
  {| ncols := 16;
     sheet_rows :=
       [ [ Value "2025-01-01"; Value "The cat sat."; Value "happy, happy" ]
         ++ replicate 13 NaN ] |}.

(** A model that knows the sentence of the cat and the word "happy". *)
Definition nlp_survey : Language := λ s,
  if String.eqb s "The cat sat." then nlp_cat s else nlp_happy s.

(* ===================================================================== *)
(** * Properties of the text primitives *)
(* ===================================================================== *)

(** ** Characters *)

Lemma append_nil_l (s : string) : "" +:+ s = s.
Proof. reflexivity. Qed.

Lemma append_cons (c : ascii) (a b : string) :
  String c a +:+ b = String c (a +:+ b).
Proof. reflexivity. Qed.

Lemma append_nil_r (s : string) : s +:+ "" = s.
Proof. induction s as [|c s IH]; [done|]. by rewrite append_cons, IH. Qed.

Lemma append_assoc (a b c : string) : (a +:+ b) +:+ c = a +:+ (b +:+ c).
Proof. induction a as [|x a IH]; [done|]. by rewrite !append_cons, IH. Qed.

Lemma next_spec (s ch rest : string) :
  Str.next s = Some (ch, rest) →
  s = ch +:+ rest ∧ ch ≠ "" ∧ ∀ t, Str.next (ch +:+ t) = Some (ch, t).
Proof.
  unfold Str.next.
  destruct s as [|b1 [|b2 [|b3 [|b4 r4]]]]; try done;
    destruct (Str.is1 b1) eqn:H1; try done;
    try (intros [= <- <-]; split_and!; [done|done|]; intros t;
         rewrite !append_cons, append_nil_l; by rewrite H1);
    destruct (Str.is2 b1 b2) eqn:H2; try done;
    try (intros [= <- <-]; split_and!; [done|done|]; intros t;
         rewrite !append_cons, append_nil_l; by rewrite H1, H2);
    destruct (Str.is3 b1 b2 b3) eqn:H3; try done;
    try (intros [= <- <-]; split_and!; [done|done|]; intros t;
         rewrite !append_cons, append_nil_l; by rewrite H1, H2, H3);
    destruct (Str.is4 b1 b2 b3 b4) eqn:H4; try done;
    intros [= <- <-]; split_and!; [done|done|]; intros t;
    rewrite !append_cons, append_nil_l; by rewrite H1, H2, H3, H4.
Qed.

Lemma chars_eq (s : string) :
  Str.chars s
  = match s with
    | EmptyString => []
    | String b r =>
        match Str.next s with
        | Some (ch, rest) => ch :: Str.chars rest
        | None => String b "" :: Str.chars r
        end
    end.
Proof.
  destruct s as [|b1 [|b2 [|b3 [|b4 r4]]]]; simpl; try done;
    destruct (Str.is1 b1); try done;
    destruct (Str.is2 b1 b2); try done;
    destruct (Str.is3 b1 b2 b3); try done;
    by destruct (Str.is4 b1 b2 b3 b4).
Qed.

Lemma length_append (a b : string) :
  String.length (a +:+ b) = String.length a + String.length b.
Proof. induction a as [|c a IH]; [done|]. rewrite append_cons. simpl. lia. Qed.

(** Induction along the characters of a string. *)
Lemma chars_ind (P : string → list string → Prop) :
  P "" [] →
  (∀ s ch rest, Str.next s = Some (ch, rest) → is_char ch →
     P rest (Str.chars rest) → P s (ch :: Str.chars rest)) →
  (∀ b r, Str.next (String b r) = None → Str.next (String b "") = None →
     P r (Str.chars r) → P (String b r) (String b "" :: Str.chars r)) →
  ∀ s, P s (Str.chars s).
Proof.
  intros Hnil Hchar Hstray s.
  remember (String.length s) as n eqn:Hn. revert s Hn.
  induction n as [n IH] using lt_wf_ind. intros s Hn.
  rewrite chars_eq. destruct s as [|b r]; [done|].
  destruct (Str.next (String b r)) as [[ch rest]|] eqn:Hnext.
  - destruct (next_spec _ _ _ Hnext) as (Hs & Hne & Hch).
    apply (Hchar _ _ _ Hnext).
    + unfold is_char. rewrite <- (Hch ""). by rewrite append_nil_r.
    + apply (IH (String.length rest)); [|done].
      rewrite Hn, Hs, length_append. destruct ch; [done|]. simpl. lia.
  - apply Hstray; [done| |].
    + unfold Str.next in *. destruct (Str.is1 b); [done|done].
    + apply (IH (String.length r)); [|done]. rewrite Hn. simpl. lia.
Qed.

(** The characters of a string, put together, are the string. *)
Lemma join_chars (s : string) : Str.join (Str.chars s) = s.
Proof.
  apply (chars_ind (λ s l, Str.join l = s)); [done| |].
  - intros s' ch rest (Hs & _)%next_spec _ IH. simpl. by rewrite IH.
  - intros b r _ _ IH. simpl. by rewrite IH.
Qed.

Lemma chars_chunks (s : string) :
  Forall (λ ch, is_char ch ∨ stray ch) (Str.chars s).
Proof.
  apply (chars_ind (λ _ l, Forall (λ ch, is_char ch ∨ stray ch) l)).
  - constructor.
  - intros s' ch rest _ Hch IH. constructor; [by left|done].
  - intros b r _ Hb IH. constructor; [|done]. right. by exists b.
Qed.

Lemma chars_nonempty (s : string) : s ≠ "" → Str.chars s ≠ [].
Proof.
  intros Hs. rewrite chars_eq. destruct s as [|b r]; [done|].
  by destruct (Str.next _) as [[ch rest]|].
Qed.

Lemma chars_char (ch rest : string) :
  is_char ch → Str.chars (ch +:+ rest) = ch :: Str.chars rest.
Proof.
  intros Hch. destruct (next_spec _ _ _ Hch) as (_ & Hne & Hnext).
  rewrite chars_eq. destruct ch as [|b ch]; [done|].
  rewrite append_cons, <- (append_cons b ch rest). by rewrite Hnext.
Qed.

Lemma chars_join (l : list string) :
  Forall is_char l → Str.chars (Str.join l) = l.
Proof.
  induction 1 as [|ch l Hch Hl IH]; [done|].
  simpl. by rewrite chars_char, IH.
Qed.

(** ** [str.lower] *)

Lemma plain_sound (ch : string) : plain ch = true → is_char ch ∧ stable ch.
Proof.
  unfold plain, is_char_b. cbv zeta.
  destruct (Str.next ch) as [[ch' [|]]|] eqn:Hnext; try done.
  destruct (Z.eqb_spec (Str.point ch) 0x3A3) as [|Hsigma]; [done|].
  destruct (Z.eqb_spec (Str.point ch) 0x130) as [|Hdot]; [done|].
  destruct (List.find _ _) as [p|] eqn:Hfind; [done|]. intros _.
  destruct (next_spec _ _ _ Hnext) as (Hch & _). rewrite append_nil_r in Hch.
  subst ch'. split; [done|].
  unfold stable, Str.lower_chars, Str.lower_char. cbv zeta.
  rewrite (proj2 (Z.eqb_neq _ _) Hsigma), (proj2 (Z.eqb_neq _ _) Hdot), Hfind.
  done.
Qed.

Lemma is_char_check (ch : string) : is_char_b ch = true → is_char ch.
Proof.
  unfold is_char_b, is_char.
  destruct (Str.next ch) as [[ch' [|]]|] eqn:Hnext; try done. intros _.
  destruct (next_spec _ _ _ Hnext) as (Hch & _). rewrite append_nil_r in Hch.
  by subst ch'.
Qed.

Lemma is_text_check (s : string) :
  forallb is_char_b (Str.chars s) = true → is_text s.
Proof.
  rewrite forallb_forall. intros H. apply Forall_forall.
  intros ch Hch%list_elem_of_In. by apply is_char_check, H.
Qed.

Lemma lower_pairs_plain :
  forallb (λ p, plain (Str.encode p.2)) Str.lower_pairs = true.
Proof. vm_compute. reflexivity. Qed.

Lemma lower_char_plain (ch : string) :
  Forall (λ o, o = ch ∨ plain o = true) (Str.lower_char ch).
Proof.
  unfold Str.lower_char. cbv zeta.
  destruct (Str.point ch =? 0x130)%Z.
  - constructor; [|constructor; [|constructor]]; right; vm_compute; reflexivity.
  - destruct (List.find _ _) as [p|] eqn:Hfind.
    + apply find_some in Hfind as [Hin _].
      pose proof lower_pairs_plain as Hall. rewrite forallb_forall in Hall.
      constructor; [|constructor]. right. by apply Hall.
    + constructor; [|constructor]. by left.
Qed.

Lemma lower_char_stable (ch : string) :
  Str.point ch ≠ 0x3A3%Z →
  Forall (λ o, o = ch → stable o) (Str.lower_char ch).
Proof.
  intros Hsigma. unfold Str.lower_char. cbv zeta.
  destruct (Z.eqb_spec (Str.point ch) 0x130) as [Hdot|Hdot].
  - assert (Hi : ch ≠ Str.encode 0x69) by (intros ->; by vm_compute in Hdot).
    assert (Hd : ch ≠ Str.encode 0x307) by (intros ->; by vm_compute in Hdot).
    by repeat constructor.
  - destruct (List.find _ _) as [p|] eqn:Hfind.
    + constructor; [|constructor]. intros Heq.
      pose proof lower_pairs_plain as Hall. rewrite forallb_forall in Hall.
      apply find_some in Hfind as [Hin _].
      by apply plain_sound, Hall.
    + constructor; [|constructor]. intros _.
      unfold stable, Str.lower_chars, Str.lower_char. cbv zeta.
      by rewrite (proj2 (Z.eqb_neq _ _) Hsigma), (proj2 (Z.eqb_neq _ _) Hdot),
        Hfind.
Qed.

(** What [lower] puts out: characters that it would leave as they are; an
    item that is no character comes from the input. *)
Lemma lower_chars_out (Q : string → Prop) (before l : list string) :
  (∀ o, is_char o → Q o) → Forall Q l →
  Forall (λ o, Q o ∧ stable o) (Str.lower_chars before l).
Proof.
  intros HQ Hl. revert before.
  induction Hl as [|ch l Hch Hl IH]; intros before; simpl; [constructor|].
  apply Forall_app. split; [|apply IH].
  destruct (Z.eqb_spec (Str.point ch) 0x3A3) as [Hsigma|Hsigma].
  - constructor; [|constructor].
    assert (Hp : plain (Str.encode (if Str.final_sigma before l
                                    then 0x3C2 else 0x3C3)%Z) = true).
    { destruct (Str.final_sigma before l); vm_compute; reflexivity. }
    apply plain_sound in Hp as [Hc Hs]. split; [by apply HQ|done].
  - pose proof (lower_char_plain ch) as Hp.
    pose proof (lower_char_stable ch Hsigma) as Hs.
    rewrite Forall_forall in Hp, Hs. apply Forall_forall. intros o Ho.
    destruct (Hp o Ho) as [->|[Hc Hst]%plain_sound].
    + split; [done|]. by apply Hs.
    + split; [by apply HQ|done].
Qed.

Lemma lower_chars_nonempty (before l : list string) :
  l ≠ [] → Str.lower_chars before l ≠ [].
Proof.
  destruct l as [|ch l]; [done|]. intros _. simpl.
  destruct (Str.point ch =? 0x3A3)%Z; [done|].
  unfold Str.lower_char. cbv zeta.
  destruct (Str.point ch =? 0x130)%Z; [done|].
  by destruct (List.find _ _).
Qed.

Lemma chunk_nonempty (ch : string) : is_char ch ∨ stray ch → ch ≠ "".
Proof.
  intros [Hch|(b & -> & _)]; [|done].
  by destruct (next_spec _ _ _ Hch) as (_ & Hne & _).
Qed.

Lemma lower_nonempty (s : string) : s ≠ "" → Str.lower s ≠ "".
Proof.
  intros Hs%chars_nonempty. unfold Str.lower.
  pose proof (lower_chars_out (λ ch, is_char ch ∨ stray ch) [] (Str.chars s)
                ltac:(by left) (chars_chunks s)) as Hout.
  pose proof (lower_chars_nonempty [] _ Hs) as Hne.
  destruct (Str.lower_chars [] (Str.chars s)) as [|o outs]; [done|].
  apply Forall_cons in Hout as [[Ho%chunk_nonempty _] _].
  simpl. by destruct o.
Qed.

Lemma lower_lowered (s : string) : is_text s → lowered (Str.lower s).
Proof.
  intros Hs. unfold lowered, Str.lower.
  pose proof (lower_chars_out is_char [] (Str.chars s) ltac:(done) Hs) as Hout.
  rewrite chars_join; [done|].
  eapply Forall_impl; [exact Hout|]. by intros o [Ho _].
Qed.

Lemma stable_lower_char (ch : string) :
  stable ch → Str.point ch ≠ 0x3A3%Z ∧ Str.lower_char ch = [ch].
Proof.
  unfold stable. simpl. rewrite app_nil_r.
  destruct (Z.eqb_spec (Str.point ch) 0x3A3) as [Hsigma|Hsigma]; [|done].
  intros [= <-]. by vm_compute in Hsigma.
Qed.

Lemma lower_chars_stable (before l : list string) :
  Forall stable l → Str.lower_chars before l = l.
Proof.
  intros Hl. revert before.
  induction Hl as [|ch l [Hsigma Hch]%stable_lower_char Hl IH];
    intros before; simpl; [done|].
  by rewrite (proj2 (Z.eqb_neq _ _) Hsigma), Hch, IH.
Qed.

(** A lowered text is its own [lower()]. *)
Lemma lowered_fixed (t : string) : lowered t → Str.lower t = t.
Proof.
  intros Ht. unfold Str.lower. rewrite lower_chars_stable.
  - apply join_chars.
  - eapply Forall_impl; [exact Ht|]. by intros ch [_ Hch].
Qed.

Ltac bool_arith :=
  repeat match goal with
  | H : _ && _ = true |- _ => apply andb_true_iff in H as [? ?]
  | H : _ || _ = true |- _ => apply orb_true_iff in H as [?|?]
  | H : (_ <=? _)%Z = true |- _ => apply Z.leb_le in H
  | H : (_ <? _)%Z = true |- _ => apply Z.ltb_lt in H
  | H : (_ =? _)%Z = true |- _ => apply Z.eqb_eq in H
  end.

Lemma cont_not_capital (b : ascii) : Str.cont b = true → ascii_capital b = false.
Proof.
  unfold Str.cont, ascii_capital. intros H.
  destruct (_ && _) eqn:Hc in |- *; [|done]. bool_arith. lia.
Qed.

Ltac not_capital :=
  match goal with
  | |- ascii_capital ?b = false =>
      destruct (ascii_capital b) eqn:Hcap; [exfalso|done];
      unfold ascii_capital, Str.is1, Str.is2, Str.is3, Str.is4, Str.cont in *;
      bool_arith; lia
  end.

Lemma is2_not_capital (b1 b2 : ascii) :
  Str.is2 b1 b2 = true → ascii_capital b1 = false ∧ ascii_capital b2 = false.
Proof. intros H. split; not_capital. Qed.

Lemma is3_not_capital (b1 b2 b3 : ascii) :
  Str.is3 b1 b2 b3 = true →
  ascii_capital b1 = false ∧ ascii_capital b2 = false
  ∧ ascii_capital b3 = false.
Proof. intros H. split_and!; not_capital. Qed.

Lemma is4_not_capital (b1 b2 b3 b4 : ascii) :
  Str.is4 b1 b2 b3 b4 = true →
  ascii_capital b1 = false ∧ ascii_capital b2 = false
  ∧ ascii_capital b3 = false ∧ ascii_capital b4 = false.
Proof. intros H. split_and!; not_capital. Qed.

(** A character that holds an ASCII capital letter is that letter. *)
Lemma char_bytes (ch : string) (c : ascii) :
  is_char ch → c ∈ String.list_ascii_of_string ch → ascii_capital c = true →
  ch = String c "".
Proof.
  unfold is_char, Str.next.
  destruct ch as [|b1 [|b2 [|b3 [|b4 r4]]]]; try done;
    destruct (Str.is1 b1) eqn:H1; try done.
  - intros _ ->%list_elem_of_singleton. done.
  - destruct (Str.is2 b1 b2) eqn:H2; try done. intros _ Hc Hcap. exfalso.
    apply is2_not_capital in H2 as [? ?].
    simpl in Hc. set_unfold in Hc. destruct Hc as [->|[->|[]]]; congruence.
  - destruct (Str.is2 b1 b2) eqn:H2; try done.
    destruct (Str.is3 b1 b2 b3) eqn:H3; try done. intros _ Hc Hcap. exfalso.
    apply is3_not_capital in H3 as (? & ? & ?).
    simpl in Hc. set_unfold in Hc.
    destruct Hc as [->|[->|[->|[]]]]; congruence.
  - destruct (Str.is2 b1 b2) eqn:H2; try done.
    destruct (Str.is3 b1 b2 b3) eqn:H3; try done.
    destruct (Str.is4 b1 b2 b3 b4) eqn:H4; try done.
    intros Heq Hc Hcap. exfalso.
    assert (r4 = "") as -> by congruence.
    apply is4_not_capital in H4 as (? & ? & ? & ?).
    simpl in Hc. set_unfold in Hc.
    destruct Hc as [->|[->|[->|[->|[]]]]]; congruence.
Qed.

Lemma capital_not_stable (c : ascii) :
  ascii_capital c = true → ¬ stable (String c "").
Proof.
  unfold stable. intros Hcap Hst.
  destruct c as [[] [] [] [] [] [] [] []];
    vm_compute in Hcap; try discriminate Hcap;
    vm_compute in Hst; discriminate Hst.
Qed.

Lemma chars_append (a b : string) :
  String.list_ascii_of_string (a +:+ b)
  = String.list_ascii_of_string a ++ String.list_ascii_of_string b.
Proof. induction a as [|c a IH]; [done|]. rewrite append_cons. simpl. by rewrite IH. Qed.

Lemma bytes_join (l : list string) (c : ascii) :
  c ∈ String.list_ascii_of_string (Str.join l) →
  ∃ o, o ∈ l ∧ c ∈ String.list_ascii_of_string o.
Proof.
  induction l as [|o l IH]; simpl.
  - by intros ?%elem_of_nil.
  - rewrite chars_append, elem_of_app. intros [Hc|Hc].
    + exists o. split; [left|done].
    + destruct (IH Hc) as (o' & Ho' & Hc'). exists o'. split; [by right|done].
Qed.

Lemma lower_lowercase (s : string) : lowercase (Str.lower s).
Proof.
  unfold lowercase, Str.lower. apply Forall_forall. intros c Hc.
  apply bytes_join in Hc as (o & Ho & Hc).
  pose proof (lower_chars_out (λ ch, is_char ch ∨ stray ch) [] (Str.chars s)
                ltac:(by left) (chars_chunks s)) as Hout.
  rewrite Forall_forall in Hout. destruct (Hout o Ho) as [Hchunk Hst].
  destruct (ascii_capital c) eqn:Hcap; [exfalso|done].
  destruct Hchunk as [Hch|(b & -> & Hb)].
  - rewrite (char_bytes o c Hch Hc Hcap) in Hst.
    by apply (capital_not_stable c).
  - simpl in Hc. apply list_elem_of_singleton in Hc as ->.
    unfold Str.next in Hb. destruct (Str.is1 b) eqn:H1; [done|].
    unfold Str.is1 in H1. apply Z.ltb_ge in H1.
    unfold ascii_capital in Hcap. bool_arith. lia.
Qed.

(** ** [str.strip] and [str.split] *)

Lemma isspace_shape (w : string) :
  Str.isspace w = true → whitespace_shape w = true.
Proof.
  unfold Str.isspace. intros (x & Hx & ->%String.eqb_eq)%existsb_exists.
  assert (H : forallb whitespace_shape Str.whitespace = true)
    by (vm_compute; reflexivity).
  rewrite forallb_forall in H. by apply H.
Qed.

Lemma starts_clean_nil : starts_clean "".
Proof. intros w rest Hw. by destruct w. Qed.

Lemma lstrip_step (w s : string) :
  Str.isspace w = true → Str.lstrip (w +:+ s) = Str.lstrip s.
Proof.
  intros Hw. pose proof (isspace_shape w Hw) as Hshape.
  unfold whitespace_shape in Hshape. apply andb_true_iff in Hshape as [_ Hshape].
  destruct w as [|b1 [|b2 [|b3 [|]]]]; try done;
    rewrite !append_cons, append_nil_l; simpl.
  - by rewrite Hw.
  - apply negb_true_iff in Hshape. by rewrite Hshape, Hw.
  - apply andb_true_iff in Hshape as [H1%negb_true_iff H2%negb_true_iff].
    by rewrite H1, H2, Hw.
Qed.

Lemma lstrip_spec (s : string) :
  ∃ pre, s = pre +:+ Str.lstrip s ∧ all_space pre ∧ starts_clean (Str.lstrip s).
Proof.
  remember (String.length s) as n eqn:Hn. revert s Hn.
  induction n as [n IH] using lt_wf_ind. intros s Hn.
  remember (Str.lstrip s) as t eqn:Ht.
  assert (Hstep : ∀ w rest, s = w +:+ rest → Str.isspace w = true →
            t = Str.lstrip rest →
            ∃ pre, s = pre +:+ t ∧ all_space pre ∧ starts_clean t).
  { intros w rest -> Hw ->.
    assert (Hlt : String.length rest < n).
    { rewrite Hn, length_append. pose proof (isspace_shape w Hw) as Hshape.
      destruct w; [done|]. simpl. lia. }
    destruct (IH _ Hlt rest eq_refl) as (pre & Hrest & Hpre & Hclean).
    exists (w +:+ pre). split_and!; [|by constructor|done].
    by rewrite append_assoc, <- Hrest. }
  assert (Hstop : t = s →
            (∀ w rest, s = w +:+ rest → Str.isspace w = true → False) →
            ∃ pre, s = pre +:+ t ∧ all_space pre ∧ starts_clean t).
  { intros -> Hclean. exists "". split_and!; [done|constructor|].
    intros w rest Hs. destruct (Str.isspace w) eqn:Hw; [|done].
    by destruct (Hclean w rest). }
  clear IH Hn.
  destruct s as [|b1 r1]; [apply Hstop; [done|by intros [|]]|].
  simpl in Ht.
  destruct (Str.isspace (String b1 "")) eqn:H1.
  { by apply (Hstep (String b1 "") r1). }
  destruct r1 as [|b2 r2].
  { apply Hstop; [done|]. intros w rest Hs Hw.
    pose proof (isspace_shape w Hw) as Hshape.
    destruct w as [|x1 [|x2 w]]; rewrite ?append_cons, ?append_nil_l in Hs;
      simplify_eq/=; congruence. }
  destruct (Str.isspace (String b1 (String b2 ""))) eqn:H2.
  { by apply (Hstep (String b1 (String b2 "")) r2). }
  destruct r2 as [|b3 r3].
  { apply Hstop; [done|]. intros w rest Hs Hw.
    pose proof (isspace_shape w Hw) as Hshape.
    destruct w as [|x1 [|x2 [|x3 w]]]; rewrite ?append_cons, ?append_nil_l in Hs;
      simplify_eq/=; congruence. }
  destruct (Str.isspace (String b1 (String b2 (String b3 "")))) eqn:H3.
  { by apply (Hstep (String b1 (String b2 (String b3 ""))) r3). }
  apply Hstop; [done|]. intros w rest Hs Hw.
  pose proof (isspace_shape w Hw) as Hshape.
  unfold whitespace_shape in Hshape. apply andb_true_iff in Hshape as [_ Hshape].
  destruct w as [|x1 [|x2 [|x3 [|x4 w]]]]; rewrite ?append_cons, ?append_nil_l in Hs;
      simplify_eq/=; congruence.
Qed.

Lemma rstrip_spec (s : string) :
  ∃ post, s = Str.rstrip s +:+ post ∧ all_space post
          ∧ ends_clean (Str.rstrip s)
          ∧ (starts_clean s → starts_clean (Str.rstrip s)).
Proof.
  induction s as [|b s (post & Hs & Hpost & Hclean & _)]; simpl.
  - exists "". split_and!; [done|constructor| |done].
    intros rest w Hw. destruct rest; [|done]. by rewrite append_nil_l in Hw; subst w.
  - destruct (Str.isspace (String b (Str.rstrip s))) eqn:Hsp.
    + exists (String b s). split_and!.
      * done.
      * rewrite Hs, <- append_cons. rewrite <- (append_nil_r post).
        apply all_space_cons; [done|]. by rewrite append_nil_r.
      * intros rest w Hw. destruct rest; [|done].
        by rewrite append_nil_l in Hw; subst w.
      * intros _. apply starts_clean_nil.
    + exists post. split_and!.
      * by rewrite append_cons, <- Hs.
      * done.
      * intros rest w Hw. destruct rest as [|c rest].
        { rewrite append_nil_l in Hw. by subst w. }
        rewrite append_cons in Hw. injection Hw as _ Hw. by apply (Hclean rest).
      * intros Hstart w rest Hw. apply (Hstart w (rest +:+ post)).
        by rewrite <- append_assoc, <- Hw, append_cons, <- Hs.
Qed.

(** [strip] removes whitespace characters, and nothing else, from both
    ends. *)
Lemma strip_spec (s : string) :
  ∃ pre post, s = pre +:+ Str.strip s +:+ post
              ∧ all_space pre ∧ all_space post
              ∧ starts_clean (Str.strip s) ∧ ends_clean (Str.strip s).
Proof.
  destruct (lstrip_spec s) as (pre & Hs & Hpre & Hstart).
  destruct (rstrip_spec (Str.lstrip s)) as (post & Hl & Hpost & Hend & Hkeep).
  exists pre, post. unfold Str.strip. split_and!; try done.
  - by rewrite <- Hl.
  - by apply Hkeep.
Qed.

Lemma lstrip_all_space (s : string) : all_space s → Str.lstrip s = "".
Proof. induction 1 as [|w s Hw Hs IH]; [done|]. by rewrite lstrip_step. Qed.

Lemma strip_all_space (s : string) : all_space s → Str.strip s = "".
Proof. intros Hs. unfold Str.strip. by rewrite lstrip_all_space. Qed.

Lemma split_nonempty (sep : ascii) (s : string) : Str.split sep s ≠ [].
Proof.
  destruct s as [|c s]; simpl; [done|].
  destruct (Ascii.eqb c sep); [done|]. by destruct (Str.split sep s).
Qed.

Lemma split_prepend (sep : ascii) (w s : string) :
  sep ∉ String.list_ascii_of_string w →
  Str.split sep (w +:+ s)
  = match Str.split sep s with
    | piece :: pieces => (w +:+ piece) :: pieces
    | [] => []
    end.
Proof.
  induction w as [|c w IH]; intros Hsep.
  - rewrite append_nil_l. by destruct (Str.split sep s).
  - rewrite append_cons. simpl in *. apply not_elem_of_cons in Hsep as [Hc Hw].
    rewrite IH by done. pose proof (split_nonempty sep s) as Hne.
    destruct (Ascii.eqb_spec c sep) as [->|_]; [done|].
    by destruct (Str.split sep s).
Qed.

Lemma isspace_no_comma (w : string) :
  Str.isspace w = true → ","%char ∉ String.list_ascii_of_string w.
Proof.
  intros Hshape%isspace_shape. unfold whitespace_shape in Hshape.
  apply andb_true_iff in Hshape as [Hcomma%negb_true_iff _].
  intros Hin. apply not_true_iff_false in Hcomma. apply Hcomma.
  apply existsb_exists. exists ","%char. split; [by apply list_elem_of_In|done].
Qed.

(** A string of commas and one-byte whitespace characters is a blank
    cell. *)
Lemma blank_cell_bytes (s : string) :
  Forall (λ c, c = ","%char ∨ Str.isspace (String c "") = true)
         (String.list_ascii_of_string s) →
  blank_cell s.
Proof.
  induction s as [|c s IH]; simpl; intros H; [constructor|].
  apply Forall_cons in H as [[->|Hc] H].
  - apply (blank_comma s). by apply IH.
  - apply (blank_space (String c "") s); [done|]. by apply IH.
Qed.

(** Every piece of a blank cell is whitespace. *)
Lemma blank_cell_pieces (cell : string) :
  blank_cell cell → Forall all_space (Str.split "," cell).
Proof.
  induction 1 as [|s Hs IH|w s Hw Hs IH].
  - repeat constructor.
  - change ("," +:+ s) with (String ","%char s). simpl.
    constructor; [constructor|done].
  - rewrite split_prepend by (by apply isspace_no_comma).
    destruct (Str.split "," s) as [|piece pieces]; [done|].
    apply Forall_cons in IH as [Hpiece Hpieces].
    constructor; [by constructor|done].
Qed.
(** [str.lower], [str.strip] and [str.split] at work.  The capital sigma is
    lowered to the final sigma at the end of a word only; a no-break space, a
    thin space, an ideographic space and a next-line character are
    whitespace. *)
Example text_primitives :
  Str.lower "ÉCOLE Happy" = "école happy"
  ∧ Str.lower "ΟΔΟΣ ΣΟΦΟΣ" = "οδος σοφος"
  ∧ Str.lower "İ" = "i" +:+ Str.encode 0x307
  ∧ Str.strip (Str.encode 0xA0 +:+ " happy" +:+ Str.encode 0x2009
               +:+ Str.encode 0x3000 +:+ Str.encode 0x85) = "happy"
  ∧ Str.split "," "a,,b " = ["a"; ""; "b "]
  ∧ Str.chars "né €" = ["n"; "é"; " "; "€"].
Proof. split_and!; vm_compute; reflexivity. Qed.

(* ===================================================================== *)
(** * Properties of the tokenization engine *)
(* ===================================================================== *)

Section result_facts.
Context {A B : Type}.

Lemma bind_Ok (m : result A) (f : A → result B) (b : B) :
  m ≫= f = Ok b ↔ ∃ a, m = Ok a ∧ f a = Ok b.
Proof.
  destruct m as [a|e]; simpl; split.
  - intros H. by exists a.
  - by intros (a' & [= ->] & H).
  - done.
  - by intros (a' & ? & _).
Qed.

Lemma Ok_bind (a : A) (f : A → result B) : Ok a ≫= f = f a.
Proof. reflexivity. Qed.

Lemma fmap_Ok (m : result A) (f : A → B) (b : B) :
  f <$> m = Ok b ↔ ∃ a, m = Ok a ∧ b = f a.
Proof.
  destruct m as [a|e]; simpl; split.
  - intros [= <-]. by exists a.
  - by intros (a' & [= ->] & ->).
  - done.
  - by intros (a' & ? & _).
Qed.
End result_facts.

Lemma for_each_cons {A S : Type} (x : A) (xs : list A)
    (body : S → A → result S) (s : S) :
  for_each (x :: xs) body s = body s x ≫= for_each xs body.
Proof. reflexivity. Qed.

Lemma for_each_app {A S : Type} (xs ys : list A)
    (body : S → A → result S) (s : S) :
  for_each (xs ++ ys) body s = for_each xs body s ≫= for_each ys body.
Proof.
  revert s. induction xs as [|x xs IH]; intros s; [done|].
  rewrite <- app_comm_cons, !for_each_cons.
  destruct (body s x) as [s'|e]; [|done]. rewrite !Ok_bind. apply IH.
Qed.

(** A loop that appends the image of the entries it keeps is a filter
    followed by a map. *)
Lemma foldl_append_kept {A B : Type} (keep : A → bool) (f : A → B)
    (acc : list B) (l : list A) :
  foldl (λ acc x, if keep x then acc ++ [f x] else acc) acc l
  = acc ++ (f <$> List.filter keep l).
Proof.
  revert acc. induction l as [|x l IH]; intros acc; simpl.
  - by rewrite app_nil_r.
  - rewrite IH. destruct (keep x); simpl; [|done].
    by rewrite <- app_assoc.
Qed.

Lemma foldl_sentences {A B : Type} (keep : A → bool) (f : A → B)
    (acc : list B) (ss : list (list A)) :
  foldl (λ acc sent,
           foldl (λ acc x, if keep x then acc ++ [f x] else acc) acc sent)
        acc ss
  = acc ++ (f <$> List.filter keep (concat ss)).
Proof.
  revert acc. induction ss as [|s ss IH]; intros acc; simpl.
  - by rewrite app_nil_r.
  - rewrite IH, foldl_append_kept, List.filter_app, fmap_app.
    by rewrite app_assoc.
Qed.

Lemma foldl_ext_in {A B : Type} (f g : B → A → B) (l : list A) (b : B) :
  (∀ b x, f b x = g b x) → foldl f b l = foldl g b l.
Proof.
  intros Hfg. revert b. induction l as [|x l IH]; intros b; simpl; [done|].
  by rewrite Hfg, IH.
Qed.

Lemma full_text_loop (doc : Doc) :
  foldl (λ tokens sent,
    foldl (λ tokens token,
      if is_punct token || is_space token || is_stop token
      then tokens
      else tokens ++ [Str.lower (lemma_ token)])
      tokens sent)
    [] (sents doc)
  = lemma_lower <$> List.filter full_text_retained (concat (sents doc)).
Proof.
  rewrite <- (app_nil_l (lemma_lower <$> _)).
  rewrite <- foldl_sentences.
  apply foldl_ext_in. intros acc sent.
  apply foldl_ext_in. intros acc' tok.
  unfold full_text_retained, lemma_lower.
  by destruct (is_punct tok), (is_space tok), (is_stop tok).
Qed.

Lemma filter_fmap_comm {A B : Type} (f : A → B) (p : B → bool) (l : list A) :
  f <$> List.filter (λ x, p (f x)) l = List.filter p (f <$> l).
Proof.
  induction l as [|x l IH]; simpl; [done|].
  destruct (p (f x)); simpl; [f_equal|]; exact IH.
Qed.

Lemma adjective_candidates (cell : string) :
  Str.strip <$> List.filter (λ item, Str.truthy (Str.strip item))
                            (Str.split "," cell)
  = adjective_pieces cell.
Proof. unfold adjective_pieces. by rewrite <- filter_fmap_comm. Qed.

(** A loop whose body appends what [g] yields for the entry is [mapM g]
    followed by a concatenation, with the same first exception. *)
Lemma for_each_append {A B : Type} (g : A → result (list B))
    (body : list B → A → result (list B)) (l : list A) (acc : list B) :
  (∀ acc x, body acc x = (λ ys, acc ++ ys) <$> g x) →
  for_each l body acc = (λ emitted, acc ++ concat emitted) <$> mapM g l.
Proof.
  intros Hbody. revert acc. induction l as [|x l IH]; intros acc; simpl.
  - by rewrite app_nil_r.
  - rewrite Hbody. destruct (g x) as [ys|e]; simpl; [|done].
    rewrite IH. destruct (mapM g l) as [emitted|e]; simpl; [|done].
    by rewrite app_assoc.
Qed.

Lemma adjective_loop (nlp : Language) (cands : list string) (acc : list string) :
  for_each cands (λ tokens cand,
    doc ← nlp cand;
    Ok (foldl (λ tokens sent,
          foldl (λ tokens token,
            if String.eqb (pos_ token) "ADJ"
               && negb (is_stop token) && negb (is_punct token)
            then tokens ++ [Str.lower (lemma_ token)]
            else tokens)
            tokens sent)
          tokens (sents doc)))
    acc
  = (λ emitted, acc ++ concat emitted) <$> mapM (adjective_piece_spec nlp) cands.
Proof.
  apply for_each_append. intros acc' cand.
  unfold adjective_piece_spec.
  destruct (nlp cand) as [doc|e]; simpl; [|done].
  by rewrite (foldl_sentences adjective_retained lemma_lower).
Qed.

Lemma tokenize_adjective_cell_spec (cell : string) (nlp : Language) :
  tokenize_adjective_cell cell nlp = adjective_list_spec cell nlp.
Proof.
  unfold tokenize_adjective_cell, adjective_list_spec.
  rewrite adjective_candidates. rewrite adjective_loop.
  by destruct (mapM _ _).
Qed.

(* ===================================================================== *)
(** * Properties of the ranking *)
(* ===================================================================== *)

Section sorted_facts.
Context {A : Type} (key : A → Z) (reverse : bool).

Local Abbreviation in_order := (in_order key reverse).

Lemma precedes_asym (x y : A) :
  precedes key reverse x y = true → precedes key reverse y x = false.
Proof. unfold precedes. destruct reverse; lia. Qed.

Lemma in_order_trans (x y z : A) :
  in_order x y → in_order y z → in_order x z.
Proof. unfold in_order, precedes. destruct reverse; lia. Qed.

Lemma precedes_key_ne (x y : A) :
  precedes key reverse x y = true → key x ≠ key y.
Proof. unfold precedes. destruct reverse; lia. Qed.

Lemma sorted_insert_Permutation (x : A) (l : list A) :
  sorted_insert key reverse x l ≡ₚ x :: l.
Proof.
  induction l as [|y l IH]; simpl; [done|].
  destruct (precedes key reverse y x); [|done].
  rewrite IH. apply Permutation_swap.
Qed.

Lemma sorted_Permutation (l : list A) : sorted key reverse l ≡ₚ l.
Proof.
  induction l as [|x l IH]; simpl; [done|].
  by rewrite sorted_insert_Permutation, IH.
Qed.

Lemma sorted_insert_StronglySorted (x : A) (l : list A) :
  StronglySorted in_order l →
  StronglySorted in_order (sorted_insert key reverse x l).
Proof.
  induction 1 as [|y l Hl IH Hy]; simpl.
  - repeat constructor.
  - destruct (precedes key reverse y x) eqn:Hyx.
    + constructor; [done|].
      rewrite sorted_insert_Permutation. constructor; [|done].
      by apply precedes_asym.
    + constructor; [by constructor|].
      constructor; [done|].
      eapply Forall_impl; [exact Hy|].
      intros z Hz. by apply in_order_trans with y.
Qed.

Lemma sorted_StronglySorted (l : list A) :
  StronglySorted in_order (sorted key reverse l).
Proof.
  induction l as [|x l IH]; simpl; [constructor|].
  by apply sorted_insert_StronglySorted.
Qed.

(** Stability: the entries of one key come out in the order they went in. *)
Lemma sorted_insert_filter_key (k : Z) (x : A) (l : list A) :
  filter (λ e, key e = k) (sorted_insert key reverse x l)
  = filter (λ e, key e = k) (x :: l).
Proof.
  induction l as [|y l IH]; simpl; [done|].
  destruct (precedes key reverse y x) eqn:Hyx; [|done].
  apply precedes_key_ne in Hyx.
  destruct (decide (key y = k)) as [Hy|Hy].
  - rewrite (filter_cons_True _ y), IH by done.
    rewrite (filter_cons_False _ x) by congruence.
    rewrite (filter_cons_False _ x) by congruence.
    by rewrite filter_cons_True.
  - rewrite (filter_cons_False _ y), IH by done.
    destruct (decide (key x = k)) as [Hx|Hx].
    + rewrite !(filter_cons_True _ x) by done.
      by rewrite filter_cons_False.
    + rewrite !(filter_cons_False _ x) by done.
      by rewrite filter_cons_False.
Qed.

Lemma sorted_filter_key (k : Z) (l : list A) :
  filter (λ e, key e = k) (sorted key reverse l) = filter (λ e, key e = k) l.
Proof.
  induction l as [|x l IH]; simpl; [done|].
  rewrite sorted_insert_filter_key.
  destruct (decide (key x = k)).
  - by rewrite !filter_cons_True, IH.
  - by rewrite !filter_cons_False.
Qed.

Lemma filter_cons_split (P : A → Prop) `{!∀ e, Decision (P e)}
    (l a b : list A) (x : A) :
  filter P l = a ++ x :: b →
  ∃ l1 l2, l = l1 ++ x :: l2 ∧ filter P l1 = a ∧ filter P l2 = b.
Proof.
  revert a. induction l as [|y l IH]; intros a Hf.
  - by destruct a.
  - destruct (decide (P y)) as [Hy|Hy].
    + rewrite filter_cons_True in Hf by done.
      destruct a as [|a0 a]; simpl in Hf; injection Hf as -> Hf.
      * by exists [], l.
      * destruct (IH _ Hf) as (l1 & l2 & -> & <- & <-).
        exists (a0 :: l1), l2. by rewrite filter_cons_True.
    + rewrite filter_cons_False in Hf by done.
      destruct (IH _ Hf) as (l1 & l2 & -> & <- & <-).
      exists (y :: l1), l2. by rewrite filter_cons_False.
Qed.

(** Two entries of equal key stay in their relative order. *)
Lemma sorted_keeps_order (l l1 l2 l3 : list A) (x y : A) :
  l = l1 ++ x :: l2 ++ y :: l3 → key x = key y →
  ∃ r1 r2 r3, sorted key reverse l = r1 ++ x :: r2 ++ y :: r3.
Proof.
  intros -> Hxy.
  pose proof (sorted_filter_key (key x) (l1 ++ x :: l2 ++ y :: l3)) as Hf.
  rewrite filter_app, filter_cons_True, filter_app in Hf by done.
  rewrite (filter_cons_True _ y) in Hf by done.
  apply filter_cons_split in Hf as (r1 & r' & Hr & _ & Hf).
  apply filter_cons_split in Hf as (r2 & r3 & -> & _ & _).
  by exists r1, r2, r3.
Qed.

(** The ranking is the only list with these properties, whatever the
    sorting algorithm. *)
Lemma stable_sort_unique (l r : list A) :
  r ≡ₚ l → StronglySorted in_order r →
  (∀ k, filter (λ e, key e = k) r = filter (λ e, key e = k) l) →
  r = sorted key reverse l.
Proof.
  intros Hp Hs Hf.
  assert (Hp' : r ≡ₚ sorted key reverse l) by by rewrite sorted_Permutation.
  assert (Hf' : ∀ k, filter (λ e, key e = k) r
                     = filter (λ e, key e = k) (sorted key reverse l))
    by (intros k; by rewrite sorted_filter_key).
  pose proof (sorted_StronglySorted l) as Hs'.
  clear Hp Hf. revert Hp' Hf' Hs'.
  generalize (sorted key reverse l) as r'.
  induction Hs as [|x r Hr IH Hx]; intros r' Hp Hf Hs'.
  - by apply Permutation_nil_l in Hp.
  - destruct Hs' as [|x' r' Hr' Hx'].
    { by apply Permutation_nil_r in Hp. }
    assert (Hkey : key x = key x').
    { assert (Hin : x ∈ x' :: r') by (rewrite <- Hp; left).
      assert (Hin' : x' ∈ x :: r) by (rewrite Hp; left).
      apply elem_of_cons in Hin as [->|Hin]; [done|].
      apply elem_of_cons in Hin' as [->|Hin']; [done|].
      rewrite Forall_forall in Hx, Hx'.
      pose proof (Hx _ Hin') as H1. pose proof (Hx' _ Hin) as H2.
      unfold in_order, precedes in H1, H2. destruct reverse; lia. }
    pose proof (Hf (key x)) as Hfx.
    rewrite filter_cons_True in Hfx by done.
    rewrite (filter_cons_True _ x') in Hfx by done.
    injection Hfx as <- Hfx.
    f_equal. apply IH; [by apply (inj (cons x))| |done].
    intros k. specialize (Hf k).
    destruct (decide (key x = k)).
    + rewrite !filter_cons_True in Hf by done. by injection Hf.
    + by rewrite !filter_cons_False in Hf by done.
Qed.
End sorted_facts.

Lemma StronglySorted_weaken {A : Type} (R R' : relation A) (l : list A) :
  (∀ x y, R x y → R' x y) → StronglySorted R l → StronglySorted R' l.
Proof.
  intros HR. induction 1 as [|x l Hl IH Hx]; constructor; [done|].
  eapply Forall_impl; [exact Hx|]. intros y. apply HR.
Qed.

(** C3. The ranked list of a counter holds the counter's entries with the
    frequencies in non-increasing order, and entries of equal frequency keep
    the order they have in the counter, which is the order of insertion: the
    entries of any one frequency form the same sequence in both, and whenever
    [x] comes before [y] in the counter with the same frequency, [x] comes
    before [y] in the ranked list. *)
Theorem get_sorted_list_ranked (counter : Counter) :
  get_sorted_list counter ≡ₚ counter
  ∧ StronglySorted (λ x y, (y.2 ≤ x.2)%Z) (get_sorted_list counter)
  ∧ (∀ n : Z, filter (λ e, e.2 = n) (get_sorted_list counter)
              = filter (λ e, e.2 = n) counter)
  ∧ (∀ x y l1 l2 l3,
        counter = l1 ++ x :: l2 ++ y :: l3 → x.2 = y.2 →
        ∃ r1 r2 r3, get_sorted_list counter = r1 ++ x :: r2 ++ y :: r3).
Proof.
  unfold get_sorted_list. split_and!.
  - apply sorted_Permutation.
  - eapply StronglySorted_weaken; [|apply sorted_StronglySorted].
    intros x y. unfold in_order, precedes. simpl. lia.
  - intros n. apply (sorted_filter_key (λ x : string * Z, x.2)).
  - intros x y l1 l2 l3 Hc Hxy.
    by apply (sorted_keeps_order (λ x : string * Z, x.2) true counter l1 l2 l3).
Qed.

(* ===================================================================== *)
(** * Properties of dictionaries and counters *)
(* ===================================================================== *)

Section dict_facts.
Context {V : Type}.
Implicit Types (d : list (string * V)) (k : string) (v : V).

Lemma dict_get_set k k' v d :
  dict_get k' (dict_set k v d)
  = if decide (k = k') then Some v else dict_get k' d.
Proof.
  induction d as [|[k0 v0] d IH]; simpl.
  - destruct (String.eqb_spec k k'); by case_decide.
  - destruct (String.eqb_spec k0 k) as [->|Hk0]; simpl.
    + destruct (String.eqb_spec k k'); by case_decide.
    + destruct (String.eqb_spec k0 k') as [->|?]; [|done].
      by rewrite decide_False by done.
Qed.

Lemma dict_get_set_eq k v d : dict_get k (dict_set k v d) = Some v.
Proof. by rewrite dict_get_set, decide_True. Qed.

Lemma dict_get_set_ne k k' v d :
  k ≠ k' → dict_get k' (dict_set k v d) = dict_get k' d.
Proof. intros. by rewrite dict_get_set, decide_False. Qed.

Lemma dict_get_None k d : dict_get k d = None ↔ k ∉ d.*1.
Proof.
  induction d as [|[k0 v0] d IH]; simpl.
  - split; [intros _; apply not_elem_of_nil|done].
  - rewrite not_elem_of_cons.
    destruct (String.eqb_spec k0 k) as [->|Hne].
    + split; [done|]. by intros [? _].
    + rewrite IH. split; [by split|by intros [_ ?]].
Qed.

Lemma dict_get_Some_elem k v d : dict_get k d = Some v → (k, v) ∈ d.
Proof.
  induction d as [|[k0 v0] d IH]; simpl; [done|].
  destruct (String.eqb_spec k0 k) as [->|?].
  - intros [= ->]. left.
  - intros. right. by apply IH.
Qed.

Lemma elem_dict_get k v d : NoDup d.*1 → (k, v) ∈ d → dict_get k d = Some v.
Proof.
  induction d as [|[k0 v0] d IH]; simpl.
  - intros _ H. by apply elem_of_nil in H.
  - rewrite NoDup_cons. intros [Hk0 Hd] [[= -> ->]|Hin]%elem_of_cons.
    + by rewrite String.eqb_refl.
    + destruct (String.eqb_spec k0 k) as [->|?]; [|by apply IH].
      destruct Hk0. apply list_elem_of_fmap. by exists (k, v).
Qed.

Lemma dict_set_keys k v d :
  (dict_set k v d).*1 = if decide (k ∈ d.*1) then d.*1 else d.*1 ++ [k].
Proof.
  induction d as [|[k0 v0] d IH]; csimpl.
  - destruct (decide (k ∈ [])) as [Hin|_]; [by apply elem_of_nil in Hin|done].
  - destruct (String.eqb_spec k0 k) as [->|Hne]; csimpl.
    + by rewrite decide_True by left.
    + rewrite IH. destruct (decide (k ∈ d.*1)).
      * by rewrite decide_True by by right.
      * rewrite decide_False; [done|].
        rewrite not_elem_of_cons. naive_solver.
Qed.

Lemma dict_set_NoDup k v d : NoDup d.*1 → NoDup (dict_set k v d).*1.
Proof.
  intros Hd. rewrite dict_set_keys. case_decide; [done|].
  apply NoDup_app. split_and!; [done| |apply NoDup_singleton].
  intros k' Hk' ->%list_elem_of_singleton. done.
Qed.

Lemma elem_of_dict_set k v d (e : string * V) :
  e ∈ dict_set k v d → e = (k, v) ∨ e ∈ d.
Proof.
  induction d as [|[k0 v0] d IH]; simpl.
  - intros ->%list_elem_of_singleton. by left.
  - destruct (String.eqb_spec k0 k) as [->|Hne].
    + intros [->|?]%elem_of_cons; [by left|]. right. by right.
    + intros [->|?]%elem_of_cons; [right; by left|].
      destruct (IH H); [by left|]. right. by right.
Qed.

Lemma dict_set_length k v d :
  length (dict_set k v d)
  = if decide (k ∈ d.*1) then length d else S (length d).
Proof.
  rewrite <- (length_fmap fst (dict_set k v d)), dict_set_keys.
  case_decide; rewrite ?length_app, !length_fmap; simpl; lia.
Qed.

(** Assigning the items of a dictionary one by one to an empty one gives
    the dictionary back. *)
Lemma dict_update_app d1 d2 :
  NoDup (d1 ++ d2).*1 → dict_update d1 d2 = d1 ++ d2.
Proof.
  unfold dict_update. revert d1.
  induction d2 as [|[k v] d2 IH]; intros d1 Hd; simpl.
  - by rewrite app_nil_r.
  - assert (Hset : dict_set k v d1 = d1 ++ [(k, v)]).
    { rewrite fmap_app, fmap_cons in Hd. apply NoDup_app in Hd as (_ & Hd & _).
      assert (Hk : k ∉ d1.*1).
      { intros Hk. apply (Hd k Hk). left. }
      clear -Hk. induction d1 as [|[k0 v0] d1 IH]; simpl; [done|].
      apply not_elem_of_cons in Hk as [Hne Hk]. simpl in Hne.
      destruct (String.eqb_spec k0 k) as [->|_]; [done|].
      by rewrite IH. }
    rewrite Hset, IH; rewrite <- app_assoc; done.
Qed.

Lemma dict_update_nil d : NoDup d.*1 → dict_update [] d = d.
Proof. intros. by rewrite dict_update_app. Qed.
End dict_facts.

Lemma counter_get_set (c : Counter) (k k' : string) (n : Z) :
  counter_get (dict_set k n c) k' = if decide (k = k') then n else counter_get c k'.
Proof. unfold counter_get. rewrite dict_get_set. by case_decide. Qed.

Lemma counter_get_absent (c : Counter) (k : string) :
  k ∉ c.*1 → counter_get c k = 0%Z.
Proof. intros Hk. unfold counter_get. by apply dict_get_None in Hk as ->. Qed.

Lemma counter_get_cons (c : Counter) (k k' : string) (n : Z) :
  counter_get ((k, n) :: c) k' = if decide (k = k') then n else counter_get c k'.
Proof.
  unfold counter_get. simpl.
  destruct (String.eqb_spec k k'); by case_decide.
Qed.

(** Adding the items of a mapping one by one adds its counts. *)
Lemma add_items_get (self items : Counter) (t : string) :
  NoDup items.*1 →
  counter_get
    (foldl (λ self item,
              dict_set item.1 (item.2 + counter_get self item.1)%Z self)
           self items) t
  = (counter_get self t + counter_get items t)%Z.
Proof.
  revert self. induction items as [|[k n] items IH]; intros self Hnd; simpl.
  - unfold counter_get at 3. simpl. lia.
  - apply NoDup_cons in Hnd as [Hk Hnd]. rewrite IH by done.
    rewrite counter_get_set, counter_get_cons.
    case_decide as Hkt; [|done]. subst.
    rewrite (counter_get_absent items) by done. lia.
Qed.

Lemma update_mapping_get (self iterable : Counter) (t : string) :
  NoDup iterable.*1 →
  counter_get (update_mapping self iterable) t
  = (counter_get self t + counter_get iterable t)%Z.
Proof.
  intros Hnd. destruct self as [|item self].
  - simpl. by rewrite dict_update_nil.
  - unfold update_mapping. by apply add_items_get.
Qed.

Lemma add_items_NoDup (self items : Counter) :
  NoDup self.*1 →
  NoDup (foldl (λ self item,
                  dict_set item.1 (item.2 + counter_get self item.1)%Z self)
               self items).*1.
Proof.
  revert self. induction items as [|[k n] items IH]; intros self Hnd; simpl.
  - done.
  - apply IH. by apply dict_set_NoDup.
Qed.

Lemma update_mapping_NoDup (self iterable : Counter) :
  NoDup self.*1 → NoDup iterable.*1 → NoDup (update_mapping self iterable).*1.
Proof.
  intros Hs Hi. destruct self as [|item self].
  - simpl. by rewrite dict_update_nil.
  - unfold update_mapping. by apply add_items_NoDup.
Qed.

(* ===================================================================== *)
(** * Properties of the table builder: the overall counter *)
(* ===================================================================== *)

Lemma getitem_Some {V : Type} (m : gmap string V) (k : string) (v : V) :
  m !! k = Some v → getitem m k = Ok v.
Proof. unfold getitem. by intros ->. Qed.

Lemma getitem_Ok {V : Type} (m : gmap string V) (k : string) (v : V) :
  getitem m k = Ok v ↔ m !! k = Some v.
Proof. unfold getitem. destruct (m !! k); naive_solver. Qed.

Lemma get_sorted_list_length (c : Counter) :
  length (get_sorted_list c) = length c.
Proof. unfold get_sorted_list. by rewrite sorted_Permutation. Qed.

Lemma rank_step_Some (counters : gmap string Counter) sd (ov : Counter)
    (ml : nat) (col : string) (c : Counter) :
  counters !! col = Some c →
  rank_step counters (sd, ov, ml) col
  = Ok (<[col := get_sorted_list c]> sd, update_mapping ov c,
        ml `max` length (get_sorted_list c)).
Proof. intros Hc. unfold rank_step. by rewrite (getitem_Some _ _ _ Hc). Qed.

(** The first loop, from any state it can be in. *)
Lemma rank_loop (counters : gmap string Counter) (columns : list string)
    (cs : list Counter) sd (ov : Counter) (ml : nat) :
  counters_of counters columns cs →
  ∃ sd' ov' ml',
    for_each columns (rank_step counters) (sd, ov, ml) = Ok (sd', ov', ml')
    ∧ (Forall well_formed cs →
       ∀ t, counter_get ov' t = (counter_get ov t + sum_counts cs t)%Z)
    ∧ (Forall well_formed cs → well_formed ov → well_formed ov')
    ∧ (∀ col, sd' !! col
              = if decide (col ∈ columns)
                then get_sorted_list <$> counters !! col else sd !! col)
    ∧ ml' = ml `max` max_list ((λ c, length (get_sorted_list c)) <$> cs).
Proof.
  intros Hcs. revert sd ov ml.
  induction Hcs as [|col c columns cs Hc Hcs IH]; intros sd ov ml.
  - exists sd, ov, ml. simpl. split_and!; try done.
    + intros _ t. lia.
    + lia.
  - rewrite for_each_cons, (rank_step_Some _ _ _ _ _ _ Hc), Ok_bind.
    destruct (IH (<[col:=get_sorted_list c]> sd) (update_mapping ov c)
                (ml `max` length (get_sorted_list c)))
      as (sd' & ov' & ml' & -> & Hsum & Hnd & Hsd & ->).
    eexists sd', ov', _. split_and!; [done| | | |].
    + intros [Hwfc Hwf]%Forall_cons t.
      rewrite Hsum, update_mapping_get by done. simpl. lia.
    + intros [Hwfc Hwf]%Forall_cons Hov.
      apply Hnd; [done|]. by apply update_mapping_NoDup.
    + intros col'. rewrite Hsd.
      destruct (decide (col' ∈ columns)) as [Hin|Hin].
      * by rewrite decide_True by by right.
      * destruct (decide (col = col')) as [->|Hne].
        -- rewrite decide_True by left. by rewrite lookup_insert_eq, Hc.
        -- rewrite lookup_insert_ne by done.
           rewrite decide_False; [done|].
           rewrite not_elem_of_cons. naive_solver.
    + symmetry. apply Nat.max_assoc.
Qed.

Lemma rank_columns_spec (counters : gmap string Counter)
    (columns : list string) (cs : list Counter) :
  counters_of counters columns cs →
  ∃ r, rank_columns counters columns = Ok r
       ∧ (Forall well_formed cs →
          ∀ t, counter_get (overall r) t = sum_counts cs t)
       ∧ (Forall well_formed cs → well_formed (overall r))
       ∧ (∀ col, col ∈ columns →
            sorted_data r !! col = get_sorted_list <$> counters !! col)
       ∧ overall_sorted r = get_sorted_list (overall r)
       ∧ max_length r
         = max_list ((λ c, length (get_sorted_list c)) <$> cs)
             `max` length (get_sorted_list (overall r)).
Proof.
  intros Hcs. unfold rank_columns.
  destruct (rank_loop counters columns cs ∅ [] 0 Hcs)
    as (sd & ov & ml & -> & Hsum & Hnd & Hsd & ->).
  simpl. eexists. split; [done|]. simpl. split_and!; [| | |done|done].
  - intros Hwf t. rewrite Hsum by done. unfold counter_get at 1. simpl. lia.
  - intros Hwf. apply Hnd; [done|]. apply NoDup_nil_2.
  - intros col Hcol. by rewrite Hsd, decide_True.
Qed.

(** When the builder gets through its first loop, every designated column
    had a counter. *)
Lemma rank_loop_Ok (counters : gmap string Counter) (columns : list string)
    state state' :
  for_each columns (rank_step counters) state = Ok state' →
  ∃ cs, counters_of counters columns cs.
Proof.
  revert state. induction columns as [|col columns IH]; intros state Hrun.
  - exists []. constructor.
  - simpl in Hrun. apply bind_Ok in Hrun as (state1 & Hstep & Hrun).
    destruct (IH _ Hrun) as (cs & Hcs).
    destruct state as [[sd ov] ml]. unfold rank_step in Hstep.
    apply bind_Ok in Hstep as (c & Hc%getitem_Ok & _).
    exists (c :: cs). by constructor.
Qed.

Lemma rank_columns_Ok (counters : gmap string Counter) (columns : list string)
    (r : Ranking) :
  rank_columns counters columns = Ok r → ∃ cs, counters_of counters columns cs.
Proof.
  unfold rank_columns. intros (state & Hrun & _)%bind_Ok.
  by apply rank_loop_Ok in Hrun.
Qed.

(** C1. For every mapping of the designated columns to (well-formed)
    counters, the first loop of the table builder succeeds and its overall
    counter is the coordinate-wise sum of the per-column counters: the
    overall count of every token [t] is the sum, over the designated
    columns, of the count of [t] in the column's counter. *)
Theorem overall_counter_is_sum (counters : gmap string Counter)
    (columns : list string) (cs : list Counter) :
  counters_of counters columns cs →
  Forall well_formed cs →
  ∃ r, rank_columns counters columns = Ok r
       ∧ ∀ t : string, counter_get (overall r) t = sum_counts cs t.
Proof.
  intros Hcs Hwf.
  destruct (rank_columns_spec counters columns cs Hcs) as (r & Hr & Hsum & _).
  exists r. split; [done|]. by apply Hsum.
Qed.

(* ===================================================================== *)
(** * Properties of the table builder: padding and the output table *)
(* ===================================================================== *)

Lemma pad_loop_total (fuel max_length : nat) (words : list string)
    (freqs : list Z) :
  max_length - length words ≤ fuel →
  pad_loop fuel max_length words freqs
  = Ok (words ++ replicate (max_length - length words) "",
        freqs ++ replicate (max_length - length words) 0%Z).
Proof.
  revert words freqs.
  induction fuel as [|fuel IH]; intros words freqs Hfuel; simpl.
  - rewrite decide_False by lia.
    replace (max_length - length words) with 0 by lia.
    simpl. by rewrite !app_nil_r.
  - case_decide as Hlt.
    + rewrite IH by (rewrite length_app; simpl; lia).
      rewrite length_app. simpl.
      replace (max_length - length words)
        with (S (max_length - (length words + 1))) by lia.
      simpl. by rewrite <- !app_assoc.
    + replace (max_length - length words) with 0 by lia.
      simpl. by rewrite !app_nil_r.
Qed.

Lemma pad_ranked (n : nat) (ranked : list (string * Z)) :
  pad n ranked.*1 ranked.*2 = Ok (padded_words ranked n, padded_freqs ranked n).
Proof.
  unfold pad. rewrite pad_loop_total by lia.
  by rewrite length_fmap.
Qed.

Lemma padded_words_length (ranked : list (string * Z)) (n : nat) :
  length ranked ≤ n → length (padded_words ranked n) = n.
Proof.
  intros. unfold padded_words.
  rewrite length_app, length_fmap, length_replicate. lia.
Qed.

Lemma padded_freqs_length (ranked : list (string * Z)) (n : nat) :
  length ranked ≤ n → length (padded_freqs ranked n) = n.
Proof.
  intros. unfold padded_freqs.
  rewrite length_app, length_fmap, length_replicate. lia.
Qed.

(** ** Headers *)

Lemma chars_inj (a b : string) :
  String.list_ascii_of_string a = String.list_ascii_of_string b → a = b.
Proof.
  intros H. rewrite <- (String.string_of_list_ascii_of_string a).
  rewrite <- (String.string_of_list_ascii_of_string b). by rewrite H.
Qed.

Lemma header_inj (a b suffix : string) :
  a +:+ suffix = b +:+ suffix → a = b.
Proof.
  intros H. apply chars_inj.
  apply (f_equal String.list_ascii_of_string) in H.
  rewrite !chars_append in H. by apply app_inv_tail in H.
Qed.

Lemma header_Word_Frequency (a b : string) :
  a +:+ "_Word" ≠ b +:+ "_Frequency".
Proof.
  intros H. apply (f_equal String.list_ascii_of_string) in H.
  rewrite !chars_append in H.
  apply (f_equal last) in H.
  change (String.list_ascii_of_string "_Word")
    with (String.list_ascii_of_string "_Wor" ++ ["d"%char]) in H.
  change (String.list_ascii_of_string "_Frequency")
    with (String.list_ascii_of_string "_Frequenc" ++ ["y"%char]) in H.
  rewrite !app_assoc, !last_snoc in H. done.
Qed.

(** Distinct headers, whatever the columns are called. *)
Ltac header_ne :=
  let H := fresh "Heq" in
  intros H;
  first [ apply header_inj in H; congruence
        | by apply header_Word_Frequency in H
        | symmetry in H; by apply header_Word_Frequency in H ].

(** ** The second loop *)

Lemma column_pair_Some (r : Ranking) (col : string) (sl : list (string * Z)) :
  sorted_data r !! col = Some sl →
  column_pair r col
  = Ok (padded_words sl (max_length r), padded_freqs sl (max_length r)).
Proof.
  intros Hsl. unfold column_pair. rewrite (getitem_Some _ _ _ Hsl).
  rewrite Ok_bind. apply pad_ranked.
Qed.

Lemma emit_column_Some (r : Ranking) (col : string) (sl : list (string * Z))
    (d : list (string * Column)) :
  sorted_data r !! col = Some sl →
  emit_column r d col
  = Ok (dict_set (col +:+ "_Frequency")
          (Freqs (padded_freqs sl (max_length r)))
          (dict_set (col +:+ "_Word")
             (Words (padded_words sl (max_length r))) d)).
Proof.
  intros Hsl. unfold emit_column. by rewrite (column_pair_Some _ _ _ Hsl).
Qed.

Lemma emit_loop (r : Ranking) (columns : list string)
    (d : list (string * Column)) :
  (∀ col, col ∈ columns → is_Some (sorted_data r !! col)) →
  ∃ d',
    for_each columns (emit_column r) d = Ok d'
    ∧ (∀ col sl, col ∈ columns → sorted_data r !! col = Some sl →
         dict_get (col +:+ "_Word") d'
         = Some (Words (padded_words sl (max_length r)))
         ∧ dict_get (col +:+ "_Frequency") d'
           = Some (Freqs (padded_freqs sl (max_length r))))
    ∧ (∀ e, e ∈ d' →
         e ∈ d
         ∨ ∃ col sl, col ∈ columns ∧ sorted_data r !! col = Some sl
             ∧ (e = (col +:+ "_Word", Words (padded_words sl (max_length r)))
                ∨ e = (col +:+ "_Frequency",
                       Freqs (padded_freqs sl (max_length r))))).
Proof.
  induction columns as [|col columns IH] using rev_ind; intros Hsd.
  - exists d. split_and!; [done| |by left].
    intros col sl Hcol. by apply elem_of_nil in Hcol.
  - destruct IH as (d1 & Hd1 & Hget & Helem).
    { intros col' Hcol'. apply Hsd, elem_of_app. by left. }
    destruct (Hsd col) as [sl Hsl].
    { apply elem_of_app. right. left. }
    rewrite for_each_app, Hd1, Ok_bind. simpl.
    rewrite (emit_column_Some _ _ _ _ Hsl), Ok_bind.
    eexists. split; [done|]. split.
    + intros col' sl' Hcol' Hsl'.
      destruct (decide (col' = col)) as [->|Hne].
      * assert (sl' = sl) as -> by congruence.
        by rewrite dict_get_set_ne, !dict_get_set_eq by header_ne.
      * apply elem_of_app in Hcol' as [Hcol'|Hcol'%list_elem_of_singleton];
          [|done].
        destruct (Hget col' sl' Hcol' Hsl') as [Hw Hf].
        by rewrite !dict_get_set_ne by header_ne.
    + intros e [->|[->|He]%elem_of_dict_set]%elem_of_dict_set.
      * right. exists col, sl. split_and!; [|done|by right].
        apply elem_of_app. right. left.
      * right. exists col, sl. split_and!; [|done|by left].
        apply elem_of_app. right. left.
      * destruct (Helem e He) as [?|(col' & sl' & Hcol' & Hsl' & Hor)];
          [by left|].
        right. exists col', sl'. split_and!; [|done|done].
        apply elem_of_app. by left.
Qed.

Lemma counters_of_lookup (counters : gmap string Counter)
    (columns : list string) (cs : list Counter) (col : string) :
  counters_of counters columns cs → col ∈ columns →
  ∃ c, c ∈ cs ∧ counters !! col = Some c.
Proof.
  induction 1 as [|col' c columns cs Hc Hcs IH].
  - intros H. by apply elem_of_nil in H.
  - intros [->|Hin]%elem_of_cons.
    + exists c. split; [left|done].
    + destruct (IH Hin) as (c' & ? & ?). exists c'. split; [by right|done].
Qed.

Lemma mk_DataFrame_uniform (df_dict : list (string * Column)) (n : nat) :
  df_dict ≠ [] →
  (∀ e, e ∈ df_dict → column_length e.2 = n) →
  mk_DataFrame df_dict = Ok {| df_columns := df_dict; df_rows := n |}.
Proof.
  intros Hne Hall. destruct df_dict as [|[hdr c] rest] eqn:Heq; [done|].
  unfold mk_DataFrame. rewrite <- Heq in *.
  assert (Hc : column_length c = n).
  { apply (Hall (hdr, c)). rewrite Heq. left. }
  rewrite Hc.
  replace (forallb (λ item, column_length item.2 =? n) df_dict) with true; [done|].
  symmetry. apply forallb_forall. intros e He%list_elem_of_In.
  apply Nat.eqb_eq. by apply Hall.
Qed.

Lemma dict_set_nonempty {V : Type} (k : string) (v : V) (d : list (string * V)) :
  dict_set k v d ≠ [].
Proof. destruct d as [|[k' v'] d]; simpl; [done|]. by destruct (String.eqb k' k). Qed.

(** What the table builder returns, for any counters that cover the
    designated columns. *)
Lemma build_master_dataframe_spec (counters : gmap string Counter)
    (columns : list string) (cs : list Counter) :
  counters_of counters columns cs →
  ∃ r df,
    rank_columns counters columns = Ok r
    ∧ build_master_dataframe counters columns = Ok df
    ∧ overall_sorted r = get_sorted_list (overall r)
    ∧ max_length r
      = max_list ((λ c, length (get_sorted_list c)) <$> cs)
          `max` length (overall_sorted r)
    ∧ df_rows df = max_length r
    ∧ dict_get "Overall_Word" (df_columns df)
      = Some (Words (padded_words (overall_sorted r) (max_length r)))
    ∧ dict_get "Overall_Frequency" (df_columns df)
      = Some (Freqs (padded_freqs (overall_sorted r) (max_length r)))
    ∧ (∀ col c, col ∈ columns → counters !! col = Some c →
         length (get_sorted_list c) ≤ max_length r
         ∧ column_pair r col
           = Ok (padded_words (get_sorted_list c) (max_length r),
                 padded_freqs (get_sorted_list c) (max_length r))
         ∧ (col ≠ "Overall" →
            dict_get (col +:+ "_Word") (df_columns df)
            = Some (Words (padded_words (get_sorted_list c) (max_length r)))
            ∧ dict_get (col +:+ "_Frequency") (df_columns df)
              = Some (Freqs (padded_freqs (get_sorted_list c) (max_length r)))))
    ∧ (∀ e, e ∈ df_columns df →
         ∃ ranked,
           (ranked = overall_sorted r
            ∨ ∃ c, c ∈ cs ∧ ranked = get_sorted_list c)
           ∧ length ranked ≤ max_length r
           ∧ (e.2 = Words (padded_words ranked (max_length r))
              ∨ e.2 = Freqs (padded_freqs ranked (max_length r)))).
Proof.
  intros Hcs.
  destruct (rank_columns_spec counters columns cs Hcs)
    as (r & Hr & _ & _ & Hsd & Hos & Hm).
  rewrite <- Hos in Hm.
  assert (Hcol : ∀ col c, col ∈ columns → counters !! col = Some c →
            c ∈ cs ∧ sorted_data r !! col = Some (get_sorted_list c)).
  { intros col c Hin Hc. rewrite Hsd, Hc by done. split; [|done].
    destruct (counters_of_lookup _ _ _ _ Hcs Hin) as (c' & Hc' & Hlook).
    congruence. }
  assert (Hle : ∀ c, c ∈ cs → length (get_sorted_list c) ≤ max_length r).
  { intros c Hc. rewrite Hm.
    assert (length (get_sorted_list c)
            ≤ max_list ((λ c, length (get_sorted_list c)) <$> cs)); [|lia].
    apply max_list_elem_of_le, list_elem_of_fmap. by exists c. }
  destruct (emit_loop r columns []) as (d1 & Hd1 & Hget & Helem).
  { intros col Hin.
    destruct (counters_of_lookup _ _ _ _ Hcs Hin) as (c & _ & Hc).
    exists (get_sorted_list c). by apply Hcol. }
  eexists r, _. split; [done|].
  unfold build_master_dataframe, build_df_dict, overall_pair.
  rewrite Hr, Ok_bind, Hd1, Ok_bind, pad_ranked, !Ok_bind. cbv zeta.
  set (d2 := dict_set "Overall_Frequency" _ _).
  assert (Held2 : ∀ e, e ∈ d2 →
            ∃ ranked,
              (ranked = overall_sorted r
               ∨ ∃ c, c ∈ cs ∧ ranked = get_sorted_list c)
              ∧ length ranked ≤ max_length r
              ∧ (e.2 = Words (padded_words ranked (max_length r))
                 ∨ e.2 = Freqs (padded_freqs ranked (max_length r)))).
  { intros e [->|[->|He]%elem_of_dict_set]%elem_of_dict_set.
    - exists (overall_sorted r). split_and!; [by left|lia|by right].
    - exists (overall_sorted r). split_and!; [by left|lia|by left].
    - destruct (Helem e He) as [Hnil|(col & sl & Hin & Hsl & Hor)].
      { by apply elem_of_nil in Hnil. }
      destruct (counters_of_lookup _ _ _ _ Hcs Hin) as (c & Hc & Hlook).
      destruct (Hcol col c Hin Hlook) as [_ Hsl'].
      assert (sl = get_sorted_list c) as -> by congruence.
      exists (get_sorted_list c). split_and!; [right; by exists c|by apply Hle|].
      destruct Hor as [-> | ->]; [by left|by right]. }
  rewrite (mk_DataFrame_uniform d2 (max_length r)).
  - split; [done|]. simpl. split_and!; try done.
    + unfold d2. by rewrite dict_get_set_ne, dict_get_set_eq.
    + unfold d2. by rewrite dict_get_set_eq.
    + intros col c Hin Hc. destruct (Hcol col c Hin Hc) as [Hccs Hsl].
      split_and!; [by apply Hle|by apply column_pair_Some|].
      intros Hne. destruct (Hget col _ Hin Hsl) as [Hw Hf].
      unfold d2.
      change "Overall_Frequency" with ("Overall" +:+ "_Frequency").
      change "Overall_Word" with ("Overall" +:+ "_Word").
      by rewrite !dict_get_set_ne by header_ne.
  - apply dict_set_nonempty.
  - intros e He. destruct (Held2 e He) as (ranked & _ & Hlen & [Hw|Hf]).
    + rewrite Hw. by apply padded_words_length.
    + rewrite Hf. by apply padded_freqs_length.
Qed.

(** C2. For every mapping of the designated columns to counters the table
    builder returns a table in which every sequence has one length, the
    maximum of the lengths of the ranked lists of the columns and of the
    overall ranked list, which is also the number of rows.  The pair the
    builder computes for a column is the words and the frequencies of the
    column's ranked list, each followed by padding only: the empty word and
    the frequency 0, nothing interleaved; the pair is stored under the
    column's two headers (which a column that is itself called "Overall"
    shares with the overall pair).  The overall pair is the padded overall
    ranked list, and every sequence of the table is some ranked list
    followed by padding. *)
Theorem build_master_dataframe_padded (counters : gmap string Counter)
    (columns : list string) (cs : list Counter) :
  counters_of counters columns cs →
  ∃ r df,
    rank_columns counters columns = Ok r
    ∧ build_master_dataframe counters columns = Ok df
    ∧ let n := max_list ((λ c, length (get_sorted_list c)) <$> cs)
                 `max` length (get_sorted_list (overall r)) in
      df_rows df = n
      ∧ (∀ e, e ∈ df_columns df → column_length e.2 = n)
      ∧ dict_get "Overall_Word" (df_columns df)
        = Some (Words (padded_words (get_sorted_list (overall r)) n))
      ∧ dict_get "Overall_Frequency" (df_columns df)
        = Some (Freqs (padded_freqs (get_sorted_list (overall r)) n))
      ∧ (∀ col c, col ∈ columns → counters !! col = Some c →
           column_pair r col
           = Ok (padded_words (get_sorted_list c) n,
                 padded_freqs (get_sorted_list c) n)
           ∧ length (padded_words (get_sorted_list c) n) = n
           ∧ length (padded_freqs (get_sorted_list c) n) = n
           ∧ (col ≠ "Overall" →
              dict_get (col +:+ "_Word") (df_columns df)
              = Some (Words (padded_words (get_sorted_list c) n))
              ∧ dict_get (col +:+ "_Frequency") (df_columns df)
                = Some (Freqs (padded_freqs (get_sorted_list c) n))))
      ∧ (∀ e, e ∈ df_columns df →
           ∃ ranked,
             (ranked = get_sorted_list (overall r)
              ∨ ∃ c, c ∈ cs ∧ ranked = get_sorted_list c)
             ∧ (e.2 = Words (ranked.*1 ++ replicate (n - length ranked) "")
                ∨ e.2 = Freqs (ranked.*2 ++ replicate (n - length ranked) 0%Z))).
Proof.
  intros Hcs.
  destruct (build_master_dataframe_spec counters columns cs Hcs)
    as (r & df & Hr & Hdf & Hos & Hm & Hrows & Hw & Hf & Hcols & Hall).
  exists r, df. split; [done|]. split; [done|].
  rewrite <- Hos, <- Hm. cbv zeta. split_and!; try done.
  - intros e He. destruct (Hall e He) as (ranked & _ & Hlen & [Hew|Hef]).
    + rewrite Hew. by apply padded_words_length.
    + rewrite Hef. by apply padded_freqs_length.
  - intros col c Hin Hc.
    destruct (Hcols col c Hin Hc) as (Hle & Hpair & Hget).
    split_and!; [done| | |done].
    + by apply padded_words_length.
    + by apply padded_freqs_length.
  - intros e He. destruct (Hall e He) as (ranked & Hranked & _ & Hor).
    by exists ranked.
Qed.

Lemma build_master_dataframe_padded_witness :
  counters_of sample_counters ["A"; "B"]
    [[("x", 2%Z); ("y", 1%Z); ("z", 1%Z)]; [("x", 1%Z)]]
  ∧ ∃ df, build_master_dataframe sample_counters ["A"; "B"] = Ok df
          ∧ df_rows df = 3
          ∧ dict_get "B_Word" (df_columns df) = Some (Words ["x"; ""; ""])
          ∧ dict_get "B_Frequency" (df_columns df)
            = Some (Freqs [1%Z; 0%Z; 0%Z]).
Proof.
  assert (Hcs : counters_of sample_counters ["A"; "B"]
                  [[("x", 2%Z); ("y", 1%Z); ("z", 1%Z)]; [("x", 1%Z)]]).
  { repeat constructor. }
  split; [exact Hcs|].
  destruct (build_master_dataframe_padded _ _ _ Hcs)
    as (r & df & Hr & Hdf & Hrows & _ & _ & _ & Hcols & _).
  exists df. split; [done|].
  vm_compute in Hr. injection Hr as <-.
  destruct (Hcols "B" [("x", 1%Z)]) as (_ & _ & _ & Hget);
    [right; left|reflexivity|].
  destruct Hget as [Hw Hf]; [done|].
  split; [exact Hrows|]. split; [exact Hw|exact Hf].
Defined.

(** C9. With no designated column the table builder raises nothing and
    returns the table of zero rows whose only columns are the overall pair;
    the aggregator, too, gets through any table with no designated column. *)
Theorem build_master_dataframe_no_columns :
  (∀ counters : gmap string Counter,
      build_master_dataframe counters []
      = Ok {| df_columns := [("Overall_Word", Words []);
                             ("Overall_Frequency", Freqs [])];
              df_rows := 0 |})
  ∧ (∀ (data : list Row) tokenize_func (nlp : Language),
        compute_counters data [] tokenize_func nlp = Ok ∅).
Proof.
  split.
  - intros counters. reflexivity.
  - intros data tokenize_func nlp. unfold compute_counters.
    change (empty_counters []) with (∅ : gmap string Counter).
    generalize (∅ : gmap string Counter).
    induction data as [|row data IH]; intros counters; [done|].
    rewrite for_each_cons. unfold count_row at 1. simpl. apply IH.
Qed.

(* ===================================================================== *)
(** * Properties of the frequency aggregator *)
(* ===================================================================== *)

Lemma for_each_invariant {A S : Type} (P : S → Prop) (xs : list A)
    (body : S → A → result S) (s s' : S) :
  (∀ s x s', x ∈ xs → P s → body s x = Ok s' → P s') →
  P s → for_each xs body s = Ok s' → P s'.
Proof.
  revert s. induction xs as [|x xs IH]; intros s Hbody Hs Hrun.
  - by injection Hrun as <-.
  - rewrite for_each_cons in Hrun.
    apply bind_Ok in Hrun as (s1 & Hs1 & Hrun).
    apply (IH s1); [|by apply (Hbody s x); [left|..]|done].
    intros s2 y s3 Hy. apply Hbody. by right.
Qed.

Section counting.
Context (Q : string → Prop).

Lemma count_elements_counted (c : Counter) (tokens : list string) :
  Forall (λ e, Q e.1 ∧ (1 ≤ e.2)%Z) c → Forall Q tokens →
  Forall (λ e, Q e.1 ∧ (1 ≤ e.2)%Z) (count_elements c tokens).
Proof.
  unfold count_elements. intros Hc Htokens. revert c Hc.
  induction Htokens as [|t tokens Ht Htokens IH]; intros c Hc; simpl; [done|].
  apply IH. apply Forall_forall. intros e [->|He]%elem_of_dict_set.
  - split; [done|]. simpl. unfold counter_get.
    destruct (dict_get t c) as [n|] eqn:Hget; simpl; [|lia].
    apply dict_get_Some_elem in Hget.
    rewrite Forall_forall in Hc. destruct (Hc _ Hget) as [_ Hn].
    simpl in Hn. lia.
  - rewrite Forall_forall in Hc. by apply Hc.
Qed.

Lemma empty_counters_counted (columns : list string) :
  counted Q (empty_counters columns).
Proof.
  unfold empty_counters.
  assert (Hgen : ∀ m : gmap string Counter, counted Q m →
            counted Q (foldl (λ counters col, <[col := []]> counters) m columns)).
  { induction columns as [|col columns IH]; intros m Hm; simpl; [done|].
    apply IH. intros col' c. rewrite lookup_insert.
    case_decide; [|by apply Hm]. by intros [= <-]. }
  apply Hgen. intros col c. by rewrite lookup_empty.
Qed.

Lemma count_cell_counted tokenize_func (nlp : Language) (row : Row)
    (counters counters' : gmap string Counter) (col : string) :
  (∀ cell tokens, tokenize_func cell nlp = Ok tokens → Forall Q tokens) →
  counted Q counters →
  count_cell tokenize_func nlp row counters col = Ok counters' →
  counted Q counters'.
Proof.
  intros Htok Hcounted. unfold count_cell.
  intros (cell & _ & Hcell)%bind_Ok. destruct cell as [|cell].
  - by injection Hcell as <-.
  - apply bind_Ok in Hcell as (tokens & Htokens & Hcell).
    apply bind_Ok in Hcell as (c & Hc%getitem_Ok & [= <-]).
    intros col' c'. rewrite lookup_insert.
    case_decide; [|by apply Hcounted]. intros [= <-].
    apply count_elements_counted; [by apply (Hcounted col)|by apply (Htok cell)].
Qed.

Lemma compute_counters_counted (data : list Row) (columns : list string)
    tokenize_func (nlp : Language) (counters : gmap string Counter) :
  (∀ cell tokens, tokenize_func cell nlp = Ok tokens → Forall Q tokens) →
  compute_counters data columns tokenize_func nlp = Ok counters →
  counted Q counters.
Proof.
  intros Htok. unfold compute_counters.
  apply for_each_invariant; [|apply empty_counters_counted].
  intros m row m' _ Hm. unfold count_row.
  apply for_each_invariant; [|done].
  intros m1 col m2 _ Hm1. by apply count_cell_counted.
Qed.
End counting.

(** C7. Whatever the table, the designated columns, the tokenizer and the
    model, every token present in a counter that the aggregator returns has
    a count of at least 1: no entry with count zero exists before padding. *)
Theorem compute_counters_counts_positive (data : list Row)
    (columns : list string) tokenize_func (nlp : Language)
    (counters : gmap string Counter) :
  compute_counters data columns tokenize_func nlp = Ok counters →
  ∀ (col : string) (c : Counter) (t : string) (n : Z),
    counters !! col = Some c → (t, n) ∈ c → (1 ≤ n)%Z.
Proof.
  intros Hrun col c t n Hc Hin.
  apply (compute_counters_counted (λ _, True)) in Hrun; [|].
  - specialize (Hrun col c Hc). rewrite Forall_forall in Hrun.
    by destruct (Hrun _ Hin).
  - intros cell tokens _. by apply Forall_true.
Qed.

Lemma count_cell_NaN tokenize_func (nlp : Language) (row : Row)
    (counters : gmap string Counter) (col : string) :
  row !! col = Some NaN →
  count_cell tokenize_func nlp row counters col = Ok counters.
Proof. intros Hcell. unfold count_cell. by rewrite (getitem_Some _ _ _ Hcell). Qed.

Lemma count_row_all_NaN tokenize_func (nlp : Language) (columns : list string)
    (row : Row) (counters : gmap string Counter) :
  (∀ col, col ∈ columns → row !! col = Some NaN) →
  count_row tokenize_func nlp columns counters row = Ok counters.
Proof.
  unfold count_row. induction columns as [|col columns IH]; intros Hrow; [done|].
  rewrite for_each_cons, count_cell_NaN, Ok_bind by (apply Hrow; left).
  apply IH. intros col' Hcol'. apply Hrow. by right.
Qed.

(** C6. A missing cell is skipped without a trace.  The loop body returns
    the counters as they are when the cell is missing; so a table with one
    more row, put anywhere, whose designated cells are all missing gives the
    same result as the table without it: the same counters of every column,
    hence the same overall counter, or the same exception. *)
Theorem missing_cells_are_skipped (data1 data2 : list Row) (row : Row)
    (columns : list string) tokenize_func (nlp : Language) :
  (∀ col, col ∈ columns → row !! col = Some NaN) →
  (∀ counters col, col ∈ columns →
     count_cell tokenize_func nlp row counters col = Ok counters)
  ∧ compute_counters (data1 ++ row :: data2) columns tokenize_func nlp
    = compute_counters (data1 ++ data2) columns tokenize_func nlp
  ∧ (compute_counters (data1 ++ row :: data2) columns tokenize_func nlp
       ≫= λ counters, overall <$> rank_columns counters columns)
    = (compute_counters (data1 ++ data2) columns tokenize_func nlp
       ≫= λ counters, overall <$> rank_columns counters columns).
Proof.
  intros Hrow.
  assert (Heq : compute_counters (data1 ++ row :: data2) columns tokenize_func nlp
                = compute_counters (data1 ++ data2) columns tokenize_func nlp).
  { unfold compute_counters. rewrite !for_each_app.
    destruct (for_each data1 _ _) as [counters|e]; [|done].
    rewrite !Ok_bind, for_each_cons.
    by rewrite count_row_all_NaN, Ok_bind. }
  split_and!.
  - intros counters col Hcol. apply count_cell_NaN. by apply Hrow.
  - exact Heq.
  - by rewrite Heq.
Qed.

(* ===================================================================== *)
(** * The empty word *)
(* ===================================================================== *)

Lemma mapM_Ok {A B : Type} (f : A → result B) (l : list A) (ys : list B) :
  mapM f l = Ok ys → Forall2 (λ x y, f x = Ok y) l ys.
Proof.
  revert ys. induction l as [|x l IH]; intros ys; simpl.
  - intros [= <-]. constructor.
  - intros (y & Hy & Hrest)%bind_Ok.
    apply bind_Ok in Hrest as (ys' & Hys' & [= <-]).
    constructor; [done|]. by apply IH.
Qed.

Lemma elem_of_concat {A : Type} (x : A) (ls : list (list A)) :
  x ∈ concat ls ↔ ∃ l, x ∈ l ∧ l ∈ ls.
Proof.
  rewrite list_elem_of_In, in_concat. split.
  - intros (l & Hl & Hx). exists l. by rewrite !list_elem_of_In.
  - intros (l & Hx & Hl). exists l. by rewrite <- !list_elem_of_In.
Qed.

Lemma retained_lemmas_nonempty (keep : Token → bool) (doc : Doc) :
  (∀ sent token, sent ∈ sents doc → token ∈ sent → lemma_ token ≠ "") →
  "" ∉ lemma_lower <$> List.filter keep (concat (sents doc)).
Proof.
  intros Hdoc (token & Hempty & Hin)%list_elem_of_fmap.
  apply list_elem_of_In, filter_In in Hin as [Hin _].
  apply list_elem_of_In, elem_of_concat in Hin as (sent & Htoken & Hsent).
  symmetry in Hempty. revert Hempty. apply lower_nonempty.
  by apply (Hdoc sent).
Qed.

Lemma tokens_nonempty (nlp : Language) (policy : ExtractionPolicy)
    (cell : string) (tokens : list string) :
  model_leaves_no_empty nlp →
  tokenize_func_of policy cell nlp = Ok tokens → "" ∉ tokens.
Proof.
  intros Hnlp. destruct policy; simpl.
  - unfold tokenize_description.
    intros (doc & Hdoc & [= <-])%bind_Ok. rewrite full_text_loop.
    apply retained_lemmas_nonempty. by apply (Hnlp cell).
  - rewrite tokenize_adjective_cell_spec. unfold adjective_list_spec.
    intros (emitted & Hemitted%mapM_Ok & ->)%fmap_Ok.
    intros (piece_tokens & Hin & Hpiece)%elem_of_concat.
    apply list_elem_of_lookup in Hpiece as [i Hi].
    destruct (Forall2_lookup_r _ _ _ _ _ Hemitted Hi) as (piece & _ & Hrun).
    unfold adjective_piece_spec in Hrun.
    apply fmap_Ok in Hrun as (doc & Hdoc & ->).
    revert Hin. apply retained_lemmas_nonempty. by apply (Hnlp piece).
  - unfold tokenize_named_entities.
    intros (doc & Hdoc & [= <-])%bind_Ok.
    intros (ent & Hempty & Hin)%list_elem_of_fmap.
    symmetry in Hempty. revert Hempty. by apply (Hnlp cell doc).
Qed.

Lemma dict_set_key_elem {V : Type} (k t : string) (v : V)
    (d : list (string * V)) :
  t ∈ (dict_set k v d).*1 → t ∈ d.*1 ∨ t = k.
Proof.
  rewrite dict_set_keys. case_decide; [by left|].
  intros [?|?%list_elem_of_singleton]%elem_of_app; [by left|by right].
Qed.

Lemma update_mapping_keys (self iterable : Counter) (t : string) :
  t ∈ (update_mapping self iterable).*1 → t ∈ self.*1 ∨ t ∈ iterable.*1.
Proof.
  assert (Hgen : ∀ (f : Counter → string * Z → Z) (items self : Counter),
            t ∈ (foldl (λ self item, dict_set item.1 (f self item) self)
                       self items).*1 →
            t ∈ self.*1 ∨ t ∈ items.*1).
  { intros f items. induction items as [|[k n] items IH]; intros d; simpl.
    - by left.
    - intros [[?| ->]%dict_set_key_elem|?]%IH.
      + by left.
      + right. left.
      + right. by right. }
  destruct self as [|item self].
  - apply (Hgen (λ _ item, item.2)).
  - apply (Hgen (λ self item, (item.2 + counter_get self item.1)%Z)).
Qed.

Lemma rank_columns_keys (counters : gmap string Counter)
    (columns : list string) (r : Ranking) (t : string) :
  rank_columns counters columns = Ok r →
  t ∈ (overall r).*1 →
  ∃ col c, col ∈ columns ∧ counters !! col = Some c ∧ t ∈ c.*1.
Proof.
  unfold rank_columns. intros (state & Hrun & Hr)%bind_Ok.
  destruct state as [[sd ov] ml]. injection Hr as <-. simpl.
  revert Hrun.
  apply (for_each_invariant
    (λ state : gmap string (list (string * Z)) * Counter * nat,
       t ∈ state.1.2.*1 →
       ∃ col c, col ∈ columns ∧ counters !! col = Some c ∧ t ∈ c.*1)).
  - intros [[sd1 ov1] ml1] col [[sd2 ov2] ml2] Hcol IH. unfold rank_step.
    intros (c & Hc%getitem_Ok & [= <- <- <-])%bind_Ok. simpl in *.
    intros [?|?]%update_mapping_keys; [by apply IH|].
    by exists col, c.
  - simpl. intros Hnil. by apply elem_of_nil in Hnil.
Qed.

Lemma counters_of_elem (counters : gmap string Counter)
    (columns : list string) (cs : list Counter) (c : Counter) :
  counters_of counters columns cs → c ∈ cs →
  ∃ col, col ∈ columns ∧ counters !! col = Some c.
Proof.
  induction 1 as [|col c' columns cs Hc Hcs IH].
  - intros H. by apply elem_of_nil in H.
  - intros [->|Hin]%elem_of_cons.
    + exists col. split; [left|done].
    + destruct (IH Hin) as (col' & ? & ?). exists col'. split; [by right|done].
Qed.

(** In a padded ranked list without the empty word, the empty word is
    padding and stands next to the frequency 0. *)
Lemma padded_empty_word (ranked : list (string * Z)) (n i : nat) :
  "" ∉ ranked.*1 →
  padded_words ranked n !! i = Some "" →
  length ranked ≤ i ∧ padded_freqs ranked n !! i = Some 0%Z.
Proof.
  intros Hne Hi. unfold padded_words, padded_freqs in *.
  destruct (decide (i < length ranked)) as [Hlt|Hge].
  - rewrite lookup_app_l in Hi by by rewrite length_fmap.
    destruct Hne. by apply list_elem_of_lookup_2 in Hi.
  - split; [lia|].
    rewrite lookup_app_r in Hi by (rewrite length_fmap; lia).
    rewrite lookup_app_r by (rewrite length_fmap; lia).
    apply lookup_replicate in Hi as [_ Hi].
    rewrite !length_fmap in *.
    apply lookup_replicate. split; [done|lia].
Qed.

Lemma build_master_dataframe_Ok (counters : gmap string Counter)
    (columns : list string) (df : DataFrame) :
  build_master_dataframe counters columns = Ok df →
  ∃ cs, counters_of counters columns cs.
Proof.
  unfold build_master_dataframe. intros (r & Hr & _)%bind_Ok.
  by apply rank_columns_Ok in Hr.
Qed.

(** C8, as the code has it.  When the language model never yields an empty
    lemma or an empty entity text, no policy emits the empty string for any
    cell; and in the table built from the aggregated counters, under the
    headers of every designated column and of the overall pair, an empty
    word stands only in the padding, after all entries of the ranked list,
    and next to the frequency 0. *)
Theorem empty_word_is_padding (nlp : Language) :
  model_leaves_no_empty nlp →
  (∀ policy cell tokens,
      tokenize_func_of policy cell nlp = Ok tokens → "" ∉ tokens)
  ∧ (∀ policy data columns counters df,
       compute_counters data columns (tokenize_func_of policy) nlp = Ok counters →
       build_master_dataframe counters columns = Ok df →
       ∀ h, h ∈ "Overall" :: columns →
         ∃ ranked,
           dict_get (h +:+ "_Word") (df_columns df)
           = Some (Words (padded_words ranked (df_rows df)))
           ∧ dict_get (h +:+ "_Frequency") (df_columns df)
             = Some (Freqs (padded_freqs ranked (df_rows df)))
           ∧ ("" ∉ ranked.*1)
           ∧ ∀ i, padded_words ranked (df_rows df) !! i = Some "" →
                  length ranked ≤ i
                  ∧ padded_freqs ranked (df_rows df) !! i = Some 0%Z).
Proof.
  intros Hnlp. split; [intros policy cell tokens; by apply tokens_nonempty|].
  intros policy data columns counters df Hcount Hbuild h Hh.
  apply (compute_counters_counted (λ t, t ≠ "")) in Hcount.
  2:{ intros cell tokens Htok. apply Forall_forall. intros t Ht ->.
      by apply (tokens_nonempty nlp policy cell tokens). }
  assert (Hkeys : ∀ col c, counters !! col = Some c → "" ∉ c.*1).
  { intros col c Hc (e & He & Hin)%list_elem_of_fmap.
    specialize (Hcount col c Hc). rewrite Forall_forall in Hcount.
    by destruct (Hcount e Hin). }
  destruct (build_master_dataframe_Ok _ _ _ Hbuild) as (cs & Hcs).
  destruct (build_master_dataframe_spec counters columns cs Hcs)
    as (r & df' & Hr & Hdf & Hos & _ & Hrows & Hw & Hf & Hcols & _).
  assert (df' = df) as -> by congruence.
  rewrite Hrows.
  assert (Hov : "" ∉ (overall_sorted r).*1).
  { rewrite Hos. unfold get_sorted_list. rewrite sorted_Permutation.
    intros (col & c & _ & Hc & Hin)%(rank_columns_keys _ _ _ _ Hr).
    by apply (Hkeys col c). }
  assert (Hoverall : ∃ ranked,
    dict_get ("Overall" +:+ "_Word") (df_columns df)
    = Some (Words (padded_words ranked (max_length r)))
    ∧ dict_get ("Overall" +:+ "_Frequency") (df_columns df)
      = Some (Freqs (padded_freqs ranked (max_length r)))
    ∧ ("" ∉ ranked.*1)
    ∧ ∀ i, padded_words ranked (max_length r) !! i = Some "" →
           length ranked ≤ i
           ∧ padded_freqs ranked (max_length r) !! i = Some 0%Z).
  { exists (overall_sorted r). split_and!; [exact Hw|exact Hf|done|].
    intros i. by apply padded_empty_word. }
  destruct (decide (h = "Overall")) as [->|Hne]; [done|].
  apply elem_of_cons in Hh as [?|Hh]; [done|].
  destruct (counters_of_lookup _ _ _ _ Hcs Hh) as (c & _ & Hc).
  destruct (Hcols h c Hh Hc) as (_ & _ & Hget).
  destruct (Hget Hne) as [Hgw Hgf].
  assert (Hc' : "" ∉ (get_sorted_list c).*1).
  { unfold get_sorted_list. rewrite sorted_Permutation. by apply (Hkeys h). }
  exists (get_sorted_list c). split_and!; [done|done|done|].
  intros i. by apply padded_empty_word.
Qed.

Lemma empty_word_is_padding_witness :
  model_leaves_no_empty nlp_happy
  ∧ "" ∉ ["happy"; "happy"].
Proof.
  assert (Hnlp : model_leaves_no_empty nlp_happy).
  { intros s doc. unfold nlp_happy.
    destruct (String.eqb_spec s "happy") as [->|_]; intros [= <-]; simpl.
    - split.
      + intros sent token ->%list_elem_of_singleton ->%list_elem_of_singleton.
        done.
      + by intros ent ->%list_elem_of_singleton.
    - split.
      + intros sent token Hsent. by apply elem_of_nil in Hsent.
      + intros ent Hent. by apply elem_of_nil in Hent. }
  split; [exact Hnlp|].
  apply (proj1 (empty_word_is_padding nlp_happy Hnlp)
               AdjectiveList "happy, happy").
  reflexivity.
Defined.

(** C8, as the claim words it, fails: a pipeline that has no lemmatizer
    hands out the empty lemma, and the FullText policy emits it. *)
Lemma empty_word_is_emitted :
  tokenize_func_of FullText "joy" nlp_blank = Ok [""]
  ∧ ¬ (∀ policy cell (nlp : Language) tokens,
         tokenize_func_of policy cell nlp = Ok tokens → "" ∉ tokens).
Proof.
  split; [reflexivity|].
  intros Hclaim.
  apply (Hclaim FullText "joy" nlp_blank [""]); [reflexivity|left].
Qed.

(* ===================================================================== *)
(** * Properties of the pipeline *)
(* ===================================================================== *)

Lemma process_and_save_Ok (data : list Row) (columns : list string)
    tokenize_func (nlp : Language) (output_filename : string) (w w' : World) :
  process_and_save data columns tokenize_func nlp output_filename w = Ok w' ↔
  ∃ counters df,
    compute_counters data columns tokenize_func nlp = Ok counters
    ∧ build_master_dataframe counters columns = Ok df
    ∧ (output_filename ∉ unwritable w)
    ∧ w' = {| files := <[output_filename := df]> (files w);
              stdout := stdout w ++ ["Saved: " +:+ output_filename];
              unwritable := unwritable w |}.
Proof.
  unfold process_and_save, print, to_csv. split.
  - intros (counters & Hc & (df & Hdf & Hw)%bind_Ok)%bind_Ok.
    destruct (decide (output_filename ∈ unwritable w)) as [|Hfile]; [done|].
    simpl in Hw. injection Hw as <-. by exists counters, df.
  - intros (counters & df & -> & Hdf & Hfile & ->).
    rewrite Ok_bind, Hdf, Ok_bind. by rewrite decide_False.
Qed.

(** ** A model with a state *)

Section model_state_facts.
Context {M : Type}.

Lemma run_bind_fst {A B : Type} (x : Run A) (f : A → Run B)
    (r : result A) (g : A → result B) (m : M) :
  (x m).1 = r → (∀ a m', (f a m').1 = g a) →
  (run_bind x f m).1 = r ≫= g.
Proof.
  unfold run_bind. intros <- Hf.
  destruct (x m) as [[a|e] m']; simpl; [apply Hf|done].
Qed.

Lemma run_for_each_fst {A S : Type} (xs : list A)
    (body_run : S → A → Run S) (body : S → A → result S) (s : S) (m : M) :
  (∀ s x m, (body_run s x m).1 = body s x) →
  (run_for_each xs body_run s m).1 = for_each xs body s.
Proof.
  intros Hbody. revert s m.
  induction xs as [|x xs IH]; intros s m; [done|].
  simpl run_for_each. rewrite for_each_cons.
  apply run_bind_fst; [apply Hbody|]. intros s' m'. apply IH.
Qed.

Section deterministic_model.
Context (nlp : Model M) (Hnlp : deterministic nlp) (m0 : M).

Lemma nlp_answers (s : string) (m : M) : (nlp s m).1 = answers nlp m0 s.
Proof. apply Hnlp. Qed.

(** For a deterministic model, what a function returns or raises with the
    state passed along is what it returns or raises on the answers of the
    model. *)
Lemma tokenize_func_run_fst (policy : ExtractionPolicy) (cell : string)
    (m : M) :
  (tokenize_func_run policy cell nlp m).1
  = tokenize_func_of policy cell (answers nlp m0).
Proof.
  destruct policy; simpl.
  - unfold tokenize_description_run, tokenize_description.
    by apply run_bind_fst; [apply nlp_answers|].
  - unfold tokenize_adjective_cell_run, tokenize_adjective_cell.
    apply run_for_each_fst. intros tokens cand m'.
    by apply run_bind_fst; [apply nlp_answers|].
  - unfold tokenize_named_entities_run, tokenize_named_entities.
    by apply run_bind_fst; [apply nlp_answers|].
Qed.

Lemma compute_counters_run_fst (data : list Row) (columns : list string)
    (policy : ExtractionPolicy) (m : M) :
  (compute_counters_run data columns (tokenize_func_run policy) nlp m).1
  = compute_counters data columns (tokenize_func_of policy) (answers nlp m0).
Proof.
  unfold compute_counters_run, compute_counters.
  apply run_for_each_fst. intros counters row m'.
  unfold count_row_run, count_row.
  apply run_for_each_fst. intros counters' col m''.
  unfold count_cell_run, count_cell.
  apply run_bind_fst; [done|]. intros [|cell] m3; [done|].
  apply run_bind_fst; [apply tokenize_func_run_fst|]. intros tokens m4.
  by apply run_bind_fst.
Qed.

Lemma process_and_save_run_fst (data : list Row) (columns : list string)
    (policy : ExtractionPolicy) (output_filename : string) (w : World) (m : M) :
  (process_and_save_run data columns (tokenize_func_run policy) nlp
     output_filename w m).1
  = process_and_save data columns (tokenize_func_of policy) (answers nlp m0)
      output_filename w.
Proof.
  unfold process_and_save_run, process_and_save.
  apply run_bind_fst; [apply compute_counters_run_fst|]. intros counters m1.
  apply run_bind_fst; [done|]. intros df m2.
  by apply run_bind_fst.
Qed.

End deterministic_model.
End model_state_facts.

(** C10. The pipeline is deterministic.  The model is an object that a call
    may change; it is deterministic when what a call returns depends on the
    text only.  With such a model, a run that succeeds stores a table under
    the output file name, and
    - a second run right after it, on the model and the files as the first
      run left them, succeeds, stores the same table and leaves every file
      as it was;
    - every other successful run on the same table, columns and policy
      stores that table too, whatever the state of the model and the files
      it starts from. *)
Theorem process_and_save_deterministic {M : Type} (nlp : Model M)
    (data : list Row) (columns : list string) (policy : ExtractionPolicy)
    (output_filename : string) (w1 w1' : World) (m1 m1' : M) :
  deterministic nlp →
  process_and_save_run data columns (tokenize_func_run policy) nlp
    output_filename w1 m1 = (Ok w1', m1') →
  ∃ df,
    files w1' !! output_filename = Some df
    ∧ (∃ w2 m2,
         process_and_save_run data columns (tokenize_func_run policy) nlp
           output_filename w1' m1' = (Ok w2, m2)
         ∧ files w2 !! output_filename = Some df
         ∧ files w2 = files w1')
    ∧ (∀ w m w2 m2,
         process_and_save_run data columns (tokenize_func_run policy) nlp
           output_filename w m = (Ok w2, m2) →
         files w2 !! output_filename = Some df).
Proof.
  intros Hnlp Hrun.
  pose proof (process_and_save_run_fst nlp Hnlp m1 data columns policy
                output_filename) as Hpure.
  pose proof (Hpure w1 m1) as Hfirst. rewrite Hrun in Hfirst. simpl in Hfirst.
  symmetry in Hfirst.
  apply process_and_save_Ok in Hfirst
    as (counters & df & Hc & Hdf & Hfile & Hw1').
  exists df. split_and!.
  - rewrite Hw1'. simpl. apply lookup_insert_eq.
  - destruct (process_and_save_run data columns (tokenize_func_run policy) nlp
                output_filename w1' m1') as [r2 m2] eqn:Hsecond.
    pose proof (Hpure w1' m1') as Hr2. rewrite Hsecond in Hr2. simpl in Hr2.
    assert (Hok : ∃ w2,
              process_and_save data columns (tokenize_func_of policy)
                (answers nlp m1) output_filename w1' = Ok w2
              ∧ files w2 !! output_filename = Some df
              ∧ files w2 = files w1').
    { eexists. split.
      - apply process_and_save_Ok. exists counters, df.
        split_and!; [done|done|by rewrite Hw1'|reflexivity].
      - rewrite Hw1'. simpl.
        split; [apply lookup_insert_eq|apply insert_insert_eq]. }
    destruct Hok as (w2 & Hok & Hget & Hfiles).
    rewrite Hok in Hr2. subst r2. by exists w2, m2.
  - intros w m w2 m2 Hother.
    pose proof (Hpure w m) as Hr. rewrite Hother in Hr. simpl in Hr.
    symmetry in Hr.
    apply process_and_save_Ok in Hr as (counters' & df' & Hc' & Hdf' & _ & ->).
    simpl. rewrite lookup_insert_eq. congruence.
Qed.

Lemma process_and_save_deterministic_witness :
  deterministic nlp_counting
  ∧ ∃ w1' df,
      process_and_save_run sample_data ["Adjectives_1"]
        (tokenize_func_run AdjectiveList) nlp_counting
        "adjectives_frequencies.csv" fresh_world 0 = (Ok w1', 3)
      ∧ files w1' !! "adjectives_frequencies.csv" = Some df
      ∧ ∃ w2 m2,
          process_and_save_run sample_data ["Adjectives_1"]
            (tokenize_func_run AdjectiveList) nlp_counting
            "adjectives_frequencies.csv" w1' 3 = (Ok w2, m2)
          ∧ files w2 !! "adjectives_frequencies.csv" = Some df.
Proof.
  assert (Hnlp : deterministic nlp_counting) by (intros s m m'; reflexivity).
  split; [exact Hnlp|].
  assert (Hrun : ∃ w1',
            process_and_save_run sample_data ["Adjectives_1"]
              (tokenize_func_run AdjectiveList) nlp_counting
              "adjectives_frequencies.csv" fresh_world 0 = (Ok w1', 3)).
  { eexists. vm_compute. reflexivity. }
  destruct Hrun as [w1' Hrun].
  destruct (process_and_save_deterministic nlp_counting _ _ _ _ _ _ _ _
              Hnlp Hrun) as (df & Hdf & (w2 & m2 & Hrun2 & Hdf2 & _) & _).
  exists w1', df. split; [exact Hrun|]. split; [exact Hdf|].
  exists w2, m2. split; [exact Hrun2|exact Hdf2].
Defined.

(* ===================================================================== *)
(** * The statements at the sample data *)
(* ===================================================================== *)

Lemma overall_counter_is_sum_witness :
  counters_of sample_counters ["A"; "B"]
    [[("x", 2%Z); ("y", 1%Z); ("z", 1%Z)]; [("x", 1%Z)]]
  ∧ Forall well_formed [[("x", 2%Z); ("y", 1%Z); ("z", 1%Z)]; [("x", 1%Z)]]
  ∧ ∃ r, rank_columns sample_counters ["A"; "B"] = Ok r
         ∧ counter_get (overall r) "x" = 3%Z.
Proof.
  assert (Hcs : counters_of sample_counters ["A"; "B"]
                  [[("x", 2%Z); ("y", 1%Z); ("z", 1%Z)]; [("x", 1%Z)]]).
  { repeat constructor. }
  assert (Hwf : Forall well_formed
                  [[("x", 2%Z); ("y", 1%Z); ("z", 1%Z)]; [("x", 1%Z)]]).
  { repeat constructor; unfold well_formed;
      apply (bool_decide_unpack _); vm_compute; exact I. }
  split; [exact Hcs|]. split; [exact Hwf|].
  destruct (overall_counter_is_sum _ _ _ Hcs Hwf) as (r & Hr & Hsum).
  exists r. split; [exact Hr|]. rewrite Hsum. reflexivity.
Defined.

Lemma get_sorted_list_ranked_witness :
  [("a", 1%Z); ("b", 3%Z); ("c", 1%Z)]
  = [] ++ ("a", 1%Z) :: [("b", 3%Z)] ++ ("c", 1%Z) :: []
  ∧ ∃ r1 r2 r3,
      get_sorted_list [("a", 1%Z); ("b", 3%Z); ("c", 1%Z)]
      = r1 ++ ("a", 1%Z) :: r2 ++ ("c", 1%Z) :: r3.
Proof.
  split; [reflexivity|].
  apply (proj2 (proj2 (proj2
           (get_sorted_list_ranked [("a", 1%Z); ("b", 3%Z); ("c", 1%Z)])))
           ("a", 1%Z) ("c", 1%Z) [] [("b", 3%Z)] []); reflexivity.
Defined.

Lemma compute_counters_counts_positive_witness :
  compute_counters sample_data ["Adjectives_1"] tokenize_adjective_cell nlp_happy
  = Ok (<["Adjectives_1" := [("happy", 2%Z)]]> ∅)
  ∧ (1 ≤ 2)%Z.
Proof.
  assert (Hrun : compute_counters sample_data ["Adjectives_1"]
                   tokenize_adjective_cell nlp_happy
                 = Ok (<["Adjectives_1" := [("happy", 2%Z)]]> ∅)).
  { vm_compute. reflexivity. }
  split; [exact Hrun|].
  apply (compute_counters_counts_positive _ _ _ _ _ Hrun
           "Adjectives_1" [("happy", 2%Z)] "happy" 2%Z).
  - reflexivity.
  - left.
Defined.

Lemma missing_cells_are_skipped_witness :
  (<["Adjectives_1" := NaN]> ∅ : Row) !! "Adjectives_1" = Some NaN
  ∧ compute_counters sample_data ["Adjectives_1"] tokenize_adjective_cell
      nlp_happy
    = compute_counters
        [ <["Adjectives_1" := Value "happy, happy"]> ∅;
          <["Adjectives_1" := Value "Happy"]> ∅ ]
        ["Adjectives_1"] tokenize_adjective_cell nlp_happy.
Proof.
  split; [reflexivity|].
  assert (Hrow : ∀ col, col ∈ ["Adjectives_1"] →
            (<["Adjectives_1" := NaN]> ∅ : Row) !! col = Some NaN).
  { intros col ->%list_elem_of_singleton. reflexivity. }
  apply (proj1 (proj2 (missing_cells_are_skipped
           [ <["Adjectives_1" := Value "happy, happy"]> ∅ ]
           [ <["Adjectives_1" := Value "Happy"]> ∅ ]
           (<["Adjectives_1" := NaN]> ∅)
           ["Adjectives_1"] tokenize_adjective_cell nlp_happy Hrow))).
Defined.

(* ===================================================================== *)
(** * Adequacy of the text primitives and of the counter *)
(* ===================================================================== *)

(** Joining the pieces with the separator gives the text back. *)
Lemma split_concat (sep : ascii) (s : string) :
  String.concat (String sep "") (Str.split sep s) = s.
Proof.
  induction s as [|c s IH]; simpl; [done|].
  pose proof (split_nonempty sep s) as Hne.
  destruct (Ascii.eqb_spec c sep) as [->|Hc].
  - destruct (Str.split sep s) as [|piece pieces]; [done|].
    simpl in *. by rewrite IH.
  - destruct (Str.split sep s) as [|piece pieces]; [done|].
    destruct pieces as [|piece' pieces]; simpl in *; by rewrite <- IH.
Qed.

(** No piece holds the separator. *)
Lemma split_pieces (sep : ascii) (s piece : string) :
  piece ∈ Str.split sep s → sep ∉ String.list_ascii_of_string piece.
Proof.
  revert piece. induction s as [|c s IH]; intros piece; simpl.
  - intros ->%list_elem_of_singleton. apply not_elem_of_nil.
  - destruct (Ascii.eqb_spec c sep) as [->|Hc].
    + intros [->|Hin]%elem_of_cons; [apply not_elem_of_nil|by apply IH].
    + destruct (Str.split sep s) as [|piece' pieces] eqn:Hsplit.
      { by destruct (split_nonempty sep s). }
      intros [->|Hin]%elem_of_cons.
      * simpl. apply not_elem_of_cons. split; [done|]. apply IH. left.
      * apply IH. by right.
Qed.

(** The count of a token in a counter fed with a stream grows by the number
    of its occurrences, and new tokens join in the order of their first
    appearance. *)
Lemma count_elements_get (c : Counter) (tokens : list string) (t : string) :
  counter_get (count_elements c tokens) t
  = (counter_get c t + occurrences t tokens)%Z.
Proof.
  unfold count_elements, occurrences. revert c.
  induction tokens as [|t' tokens IH]; intros c; simpl.
  - lia.
  - rewrite IH, counter_get_set.
    destruct (decide (t' = t)) as [->|Hne].
    + rewrite filter_cons_True by done. simpl length. lia.
    + by rewrite filter_cons_False by done.
Qed.

Lemma count_elements_keys (c : Counter) (tokens : list string) :
  (count_elements c tokens).*1 = first_seen c.*1 tokens.
Proof.
  unfold count_elements, first_seen. revert c.
  induction tokens as [|t tokens IH]; intros c; simpl; [done|].
  by rewrite IH, dict_set_keys.
Qed.

Lemma count_elements_well_formed (c : Counter) (tokens : list string) :
  well_formed c → well_formed (count_elements c tokens).
Proof.
  unfold count_elements, well_formed. revert c.
  induction tokens as [|t tokens IH]; intros c Hc; simpl; [done|].
  apply IH. by apply dict_set_NoDup.
Qed.

(** Two rows with the sentence of the cat: each row yields "cat" and "sit",
    and both are counted twice. *)
Example cat_sat_twice :
  tokenize_description "The cat sat." nlp_cat = Ok ["cat"; "sit"]
  ∧ compute_counters
      [ <["Description_1" := Value "The cat sat."]> ∅;
        <["Description_1" := Value "The cat sat."]> ∅ ]
      ["Description_1"] tokenize_description nlp_cat
    = Ok (<["Description_1" := [("cat", 2%Z); ("sit", 2%Z)]]> ∅).
Proof. split; vm_compute; reflexivity. Qed.

(** A no-break space after the comma is trimmed as a space is. *)
Example no_break_space_is_trimmed :
  tokenize_adjective_cell ("happy," +:+ Str.encode 0xA0 +:+ "happy") nlp_happy
  = Ok ["happy"; "happy"].
Proof. vm_compute. reflexivity. Qed.

(* ===================================================================== *)
(** * More on the tokenization engine *)
(* ===================================================================== *)

Lemma mapM_app {A B : Type} (f : A → result B) (l1 l2 : list A) :
  mapM f (l1 ++ l2)
  = ys1 ← mapM f l1; ys2 ← mapM f l2; Ok (ys1 ++ ys2).
Proof.
  induction l1 as [|x l1 IH]; simpl.
  - by destruct (mapM f l2).
  - destruct (f x) as [y|e]; simpl; [|done]. rewrite IH.
    destruct (mapM f l1) as [ys1|e]; simpl; [|done].
    by destruct (mapM f l2).
Qed.

Lemma mapM_ext_elem {A B : Type} (f g : A → result B) (l : list A) :
  (∀ x, x ∈ l → f x = g x) → mapM f l = mapM g l.
Proof.
  induction l as [|x l IH]; intros Hfg; simpl; [done|].
  rewrite (Hfg x) by left. rewrite IH; [done|].
  intros y Hy. apply Hfg. by right.
Qed.

Lemma split_app_sep (sep : ascii) (a b : string) :
  Str.split sep (a +:+ String sep b) = Str.split sep a ++ Str.split sep b.
Proof.
  induction a as [|c a IH].
  - rewrite append_nil_l. simpl. by rewrite Ascii.eqb_refl.
  - rewrite append_cons. simpl. rewrite IH.
    destruct (Ascii.eqb c sep); [done|].
    pose proof (split_nonempty sep a) as Hne.
    by destruct (Str.split sep a).
Qed.

Lemma adjective_pieces_app (a b : string) :
  adjective_pieces (a +:+ "," +:+ b) = adjective_pieces a ++ adjective_pieces b.
Proof.
  unfold adjective_pieces.
  change ("," +:+ b) with (String ","%char b).
  by rewrite split_app_sep, fmap_app, List.filter_app.
Qed.

(** X1. The AdjectiveList tokenizer is compositional over commas: the tokens
    of two cells joined by a comma are the tokens of the first followed by
    the tokens of the second, and the first exception met in that order is
    the one raised. *)
Theorem tokenize_adjective_cell_comma (a b : string) (nlp : Language) :
  tokenize_adjective_cell (a +:+ "," +:+ b) nlp
  = ta ← tokenize_adjective_cell a nlp;
    tb ← tokenize_adjective_cell b nlp;
    Ok (ta ++ tb).
Proof.
  rewrite !tokenize_adjective_cell_spec. unfold adjective_list_spec.
  rewrite adjective_pieces_app, mapM_app.
  destruct (mapM _ (adjective_pieces a)) as [ea|e]; simpl; [|done].
  destruct (mapM _ (adjective_pieces b)) as [eb|e]; simpl; [|done].
  by rewrite concat_app.
Qed.

Lemma split_chars (sep : ascii) (s piece : string) (c : ascii) :
  piece ∈ Str.split sep s → c ∈ String.list_ascii_of_string piece →
  c ∈ String.list_ascii_of_string s.
Proof.
  revert piece. induction s as [|c0 s IH]; intros piece; simpl.
  - intros ->%list_elem_of_singleton Hc. by apply elem_of_nil in Hc.
  - destruct (Ascii.eqb c0 sep).
    + intros [->|Hin]%elem_of_cons Hc; [by apply elem_of_nil in Hc|].
      right. by apply (IH piece).
    + destruct (Str.split sep s) as [|piece' pieces] eqn:Hsplit.
      { by destruct (split_nonempty sep s). }
      intros [->|Hin]%elem_of_cons Hc.
      * simpl in Hc. apply elem_of_cons in Hc as [->|Hc]; [left|].
        right. apply (IH piece'); [left|done].
      * right. apply (IH piece); [by right|done].
Qed.

Lemma strip_chars (s : string) (c : ascii) :
  c ∈ String.list_ascii_of_string (Str.strip s) →
  c ∈ String.list_ascii_of_string s.
Proof.
  destruct (strip_spec s) as (pre & post & Hs & _).
  intros Hc. rewrite Hs, !chars_append, !elem_of_app. right. by left.
Qed.

Lemma filter_nil_Forall {A : Type} (p : A → bool) (l : list A) :
  Forall (λ x, p x = false) l → List.filter p l = [].
Proof.
  induction 1 as [|x l Hx Hl IH]; simpl; [done|]. by rewrite Hx.
Qed.

(** X2. A cell that holds nothing but commas and whitespace, the empty cell
    included, yields no token under the AdjectiveList policy, and the model
    is not consulted: the result is the same empty list for every model,
    also for one that would raise. *)
Theorem tokenize_adjective_cell_blank (cell : string) (nlp : Language) :
  blank_cell cell → tokenize_adjective_cell cell nlp = Ok [].
Proof.
  intros Hblank. rewrite tokenize_adjective_cell_spec.
  unfold adjective_list_spec.
  assert (Hpieces : adjective_pieces cell = []); [|by rewrite Hpieces].
  unfold adjective_pieces. apply filter_nil_Forall.
  apply Forall_forall. intros piece (raw & -> & Hraw)%list_elem_of_fmap.
  rewrite strip_all_space; [done|].
  pose proof (blank_cell_pieces cell Hblank) as Hpieces.
  rewrite Forall_forall in Hpieces. by apply Hpieces.
Qed.

Lemma tokenize_adjective_cell_blank_witness :
  blank_cell (" ," +:+ Str.encode 0xA0 +:+ ",, ")
  ∧ tokenize_adjective_cell (" ," +:+ Str.encode 0xA0 +:+ ",, ") nlp_strict
    = Ok [].
Proof.
  assert (Hblank : blank_cell (" ," +:+ Str.encode 0xA0 +:+ ",, ")).
  { apply (blank_space " "); [reflexivity|]. apply blank_comma.
    apply (blank_space (Str.encode 0xA0)); [reflexivity|].
    apply blank_comma, blank_comma.
    apply (blank_space " " ""); [reflexivity|]. apply blank_nil. }
  split; [exact Hblank|].
  exact (tokenize_adjective_cell_blank _ nlp_strict Hblank).
Defined.

Lemma adjective_pieces_clean (cell piece : string) :
  piece ∈ adjective_pieces cell → clean_piece piece.
Proof.
  unfold adjective_pieces.
  intros [Hin Hne]%list_elem_of_In%filter_In.
  apply list_elem_of_In, list_elem_of_fmap in Hin as (raw & -> & Hraw).
  destruct (strip_spec raw) as (pre & post & _ & _ & _ & Hstart & Hend).
  split_and!; [|..|done|done].
  - intros Heq. by rewrite Heq in Hne.
  - intros Hc%strip_chars. by apply split_pieces in Hraw.
Qed.

(** X3. The AdjectiveList tokenizer hands the model clean pieces only:
    never the empty text, never a text with a comma or with whitespace at
    either end.  Two models that agree on the clean pieces give the same
    result, tokens or exception, on every cell. *)
Theorem tokenize_adjective_cell_clean_pieces (cell : string)
    (nlp nlp' : Language) :
  (∀ s, clean_piece s → nlp s = nlp' s) →
  tokenize_adjective_cell cell nlp = tokenize_adjective_cell cell nlp'.
Proof.
  intros Hagree. rewrite !tokenize_adjective_cell_spec.
  unfold adjective_list_spec. f_equal.
  apply mapM_ext_elem. intros piece Hpiece%adjective_pieces_clean.
  unfold adjective_piece_spec. by rewrite Hagree.
Qed.

Lemma tokenize_adjective_cell_clean_pieces_witness :
  (∀ s, clean_piece s → nlp_happy s = nlp_strict s)
  ∧ tokenize_adjective_cell ", happy ,," nlp_happy
    = tokenize_adjective_cell ", happy ,," nlp_strict.
Proof.
  assert (Hagree : ∀ s, clean_piece s → nlp_happy s = nlp_strict s).
  { intros s (Hne & _). unfold nlp_strict.
    by destruct (String.eqb_spec s ""). }
  split; [exact Hagree|].
  exact (tokenize_adjective_cell_clean_pieces ", happy ,," _ _ Hagree).
Defined.

Lemma retained_lemmas_lowercase (keep : Token → bool) (doc : Doc) :
  Forall lowercase (lemma_lower <$> List.filter keep (concat (sents doc))).
Proof.
  apply Forall_fmap, Forall_forall. intros token _.
  apply lower_lowercase.
Qed.

Lemma retained_lemmas_lowered (keep : Token → bool) (doc : Doc) :
  (∀ sent token, sent ∈ sents doc → token ∈ sent → is_text (lemma_ token)) →
  Forall (λ t, lowered t ∧ Str.lower t = t)
         (lemma_lower <$> List.filter keep (concat (sents doc))).
Proof.
  intros Hdoc. apply Forall_fmap, Forall_forall. intros token Hin.
  apply list_elem_of_In, filter_In in Hin as [Hin _].
  apply list_elem_of_In, elem_of_concat in Hin as (sent & Htoken & Hsent).
  assert (Hlow : lowered (lemma_lower token)).
  { apply lower_lowered. by apply (Hdoc sent). }
  split; [done|]. by apply lowered_fixed.
Qed.

Lemma tokenize_description_lower (cell : string) (nlp : Language)
    (tokens : list string) :
  tokenize_description cell nlp = Ok tokens →
  Forall lowercase tokens
  ∧ (model_texts nlp → Forall (λ t, lowered t ∧ Str.lower t = t) tokens).
Proof.
  unfold tokenize_description.
  intros (doc & Hdoc & [= <-])%bind_Ok. rewrite full_text_loop. split.
  - apply retained_lemmas_lowercase.
  - intros Hnlp. apply retained_lemmas_lowered.
    intros sent token. by apply (Hnlp cell).
Qed.

Lemma tokenize_adjective_cell_lower (cell : string) (nlp : Language)
    (tokens : list string) :
  tokenize_adjective_cell cell nlp = Ok tokens →
  Forall lowercase tokens
  ∧ (model_texts nlp → Forall (λ t, lowered t ∧ Str.lower t = t) tokens).
Proof.
  rewrite tokenize_adjective_cell_spec. unfold adjective_list_spec.
  intros (emitted & Hemitted%mapM_Ok & ->)%fmap_Ok.
  assert (Hpieces : ∀ piece_tokens, piece_tokens ∈ emitted →
            ∃ piece doc, nlp piece = Ok doc
              ∧ piece_tokens
                = lemma_lower
                    <$> List.filter adjective_retained (concat (sents doc))).
  { intros piece_tokens [i Hi]%list_elem_of_lookup.
    destruct (Forall2_lookup_r _ _ _ _ _ Hemitted Hi) as (piece & _ & Hp).
    unfold adjective_piece_spec in Hp.
    apply fmap_Ok in Hp as (doc & Hdoc & ->). by exists piece, doc. }
  split.
  - apply Forall_forall.
    intros t (piece_tokens & Hin & Hpiece)%elem_of_concat.
    destruct (Hpieces _ Hpiece) as (piece & doc & _ & ->).
    pose proof (retained_lemmas_lowercase adjective_retained doc) as Hlow.
    rewrite Forall_forall in Hlow. by apply Hlow.
  - intros Hnlp. apply Forall_forall.
    intros t (piece_tokens & Hin & Hpiece)%elem_of_concat.
    destruct (Hpieces _ Hpiece) as (piece & doc & Hdoc & ->).
    assert (Hlow : Forall (λ t, lowered t ∧ Str.lower t = t)
                     (lemma_lower
                        <$> List.filter adjective_retained (concat (sents doc)))).
    { apply retained_lemmas_lowered. intros sent token. by apply (Hnlp piece). }
    rewrite Forall_forall in Hlow. by apply Hlow.
Qed.

(** X4. Every token that the two lemma policies emit is in lower case.  No
    token of [tokenize_description] or of [tokenize_adjective_cell] holds an
    ASCII capital letter; and when the lemmas of the model are texts, every
    token is made of characters that [str.lower] leaves as they are, so that
    the token is its own [lower()].  Two spellings of a lemma that differ in
    case are therefore counted as one token. *)
Theorem lemma_tokens_lowercase (cell : string) (nlp : Language)
    (tokens : list string) :
  tokenize_description cell nlp = Ok tokens
  ∨ tokenize_adjective_cell cell nlp = Ok tokens →
  Forall lowercase tokens
  ∧ (model_texts nlp → Forall (λ t, lowered t ∧ Str.lower t = t) tokens).
Proof.
  intros [Hrun|Hrun].
  - by apply (tokenize_description_lower cell).
  - by apply (tokenize_adjective_cell_lower cell).
Qed.

Lemma nlp_school_texts : model_texts nlp_school.
Proof.
  intros s doc sent token [= <-] Hsent%list_elem_of_In Htoken%list_elem_of_In.
  simpl in Hsent. destruct Hsent as [<-|[<-|[]]]; simpl in Htoken;
    repeat (destruct Htoken as [<-|Htoken]); try done;
    apply is_text_check; vm_compute; reflexivity.
Qed.

Lemma lemma_tokens_lowercase_witness :
  tokenize_description "L'ÉCOLE  Big." nlp_school = Ok ["école"; "big"]
  ∧ model_texts nlp_school
  ∧ Forall lowercase ["école"; "big"]
  ∧ Forall (λ t, lowered t ∧ Str.lower t = t) ["école"; "big"].
Proof.
  assert (Hrun : tokenize_description "L'ÉCOLE  Big." nlp_school
                 = Ok ["école"; "big"])
    by (vm_compute; reflexivity).
  destruct (lemma_tokens_lowercase _ _ _ (or_introl Hrun)) as [Hcase Hlow].
  split_and!; [exact Hrun|exact nlp_school_texts|exact Hcase|].
  exact (Hlow nlp_school_texts).
Defined.

Lemma tokenize_description_spec (cell : string) (nlp : Language) :
  tokenize_description cell nlp = full_text_spec cell nlp.
Proof.
  unfold tokenize_description, full_text_spec.
  destruct (nlp cell) as [doc|e]; simpl; [|done].
  f_equal. apply full_text_loop.
Qed.

(** C5. Under the FullText policy the tokenizer walks the sentences of the
    document in order and the tokens of each sentence in order, drops every
    token that is punctuation, whitespace or a stop word, and emits the
    lowercased lemma of each remaining token, in that order.
    - The loop of [tokenize_description] computes exactly the filter-then-map
      over the concatenated sentences, and fails exactly when the model does.
    - What it emits is in lower case: no token holds an ASCII capital letter,
      and when the lemmas of the model are texts every token is made of
      characters that [str.lower] leaves as they are.
    - When the model finds two sentences, a stop word and a word of lemma
      "ÉCOLE", then a space, a word of lemma "Big" and a punctuation mark,
      the tokens are "école" and "big", in that order. *)
Theorem tokenize_description_full_text :
  (∀ (cell : string) (nlp : Language),
     tokenize_description cell nlp = full_text_spec cell nlp)
  ∧ (∀ (cell : string) (nlp : Language) (tokens : list string),
       tokenize_description cell nlp = Ok tokens →
       Forall lowercase tokens
       ∧ (model_texts nlp →
          Forall (λ t, lowered t ∧ Str.lower t = t) tokens))
  ∧ (∀ (cell : string) (nlp : Language) (doc : Doc)
       (stop school space big mark : Token),
       nlp cell = Ok doc →
       sents doc = [[stop; school]; [space; big; mark]] →
       is_stop stop = true → is_space space = true → is_punct mark = true →
       is_punct school = false → is_space school = false →
       is_stop school = false → lemma_ school = "ÉCOLE" →
       is_punct big = false → is_space big = false →
       is_stop big = false → lemma_ big = "Big" →
       tokenize_description cell nlp = Ok ["école"; "big"]).
Proof.
  split_and!.
  - apply tokenize_description_spec.
  - apply tokenize_description_lower.
  - intros cell nlp doc stop school space big mark Hdoc Hsents
      Hstop Hspace Hmark Hp1 Hs1 Ht1 Hl1 Hp2 Hs2 Ht2 Hl2.
    rewrite tokenize_description_spec. unfold full_text_spec.
    rewrite Hdoc. simpl. rewrite Hsents. simpl.
    unfold full_text_retained, lemma_lower.
    rewrite Hstop, Hspace, Hmark, Hp1, Hs1, Ht1, Hp2, Hs2, Ht2.
    rewrite !andb_false_r. simpl. rewrite Hl1, Hl2.
    vm_compute. reflexivity.
Qed.

Lemma tokenize_description_full_text_witness :
  nlp_school "L'ÉCOLE  Big." = Ok school_doc
  ∧ tokenize_description "L'ÉCOLE  Big." nlp_school = Ok ["école"; "big"].
Proof.
  split; [reflexivity|].
  refine (proj2 (proj2 tokenize_description_full_text)
            "L'ÉCOLE  Big." nlp_school school_doc _ _ _ _ _
            eq_refl eq_refl _ _ _ _ _ _ _ _ _ _ _); reflexivity.
Defined.

(** The pieces that the AdjectiveList policy keeps are the cell cut at its
    commas, each part without the whitespace at its two ends, the empty ones
    left out. *)
Lemma adjective_pieces_trimmed (cell : string) :
  ∃ raws pieces,
    raws ≠ []
    ∧ String.concat "," raws = cell
    ∧ Forall (λ raw, ","%char ∉ String.list_ascii_of_string raw) raws
    ∧ Forall2 trimmed raws pieces
    ∧ adjective_pieces cell
      = List.filter (λ piece, negb (String.eqb piece "")) pieces.
Proof.
  exists (Str.split "," cell), (Str.strip <$> Str.split "," cell).
  split_and!.
  - apply split_nonempty.
  - apply (split_concat ","%char).
  - apply Forall_forall. intros raw. apply split_pieces.
  - apply Forall2_fmap_r, Forall_Forall2_diag, Forall_forall.
    intros raw _. apply strip_spec.
  - done.
Qed.

(** C4. Under the AdjectiveList policy the tokenizer splits the cell on
    commas, trims every piece, drops the empty pieces, runs the model on each
    remaining piece on its own, keeps the tokens tagged ADJ that are neither
    stop words nor punctuation, and emits their lowercased lemmas piece by
    piece and, within a piece, token by token.
    - The loop of [tokenize_adjective_cell] computes exactly that: the model
      is run on the kept pieces in order, and the lemmas of the retained
      tokens are put one after the other.
    - The kept pieces are the parts between the commas of the cell, each
      without the whitespace characters at its two ends, the empty ones left
      out; every kept piece is not empty, has no comma and neither begins nor
      ends with a whitespace character.
    - What is emitted is in lower case: no token holds an ASCII capital
      letter, and when the lemmas of the model are texts every token is made
      of characters that [str.lower] leaves as they are.
    - When the model analyses "happy" as a single adjective with lemma
      "happy", the cell "happy, happy" yields two tokens.
    - When it analyses "Happy" and "ÉLÉGANT" as single adjectives that are
      their own lemmas, the cell of "Happy", a comma, a no-break space,
      "ÉLÉGANT" and a thin space yields "happy" and "élégant".
    - When it finds in a piece two sentences, a word that is no adjective
      and an adjective of lemma "glad", then a stop word, an adjective of
      lemma "sad" and a punctuation mark, the piece yields "glad" and
      "sad". *)
Theorem tokenize_adjective_cell_adjective_list :
  (∀ (cell : string) (nlp : Language),
      tokenize_adjective_cell cell nlp = adjective_list_spec cell nlp)
  ∧ (∀ cell : string,
      (∃ raws pieces,
         raws ≠ []
         ∧ String.concat "," raws = cell
         ∧ Forall (λ raw, ","%char ∉ String.list_ascii_of_string raw) raws
         ∧ Forall2 trimmed raws pieces
         ∧ adjective_pieces cell
           = List.filter (λ piece, negb (String.eqb piece "")) pieces)
      ∧ Forall clean_piece (adjective_pieces cell))
  ∧ (∀ (cell : string) (nlp : Language) (tokens : list string),
       tokenize_adjective_cell cell nlp = Ok tokens →
       Forall lowercase tokens
       ∧ (model_texts nlp →
          Forall (λ t, lowered t ∧ Str.lower t = t) tokens))
  ∧ (∀ (nlp : Language) (doc : Doc) (token : Token),
      nlp "happy" = Ok doc →
      sents doc = [[token]] →
      pos_ token = "ADJ" → lemma_ token = "happy" →
      is_stop token = false → is_punct token = false →
      tokenize_adjective_cell "happy, happy" nlp = Ok ["happy"; "happy"])
  ∧ (∀ (nlp : Language) (doc1 doc2 : Doc) (token1 token2 : Token),
      nlp "Happy" = Ok doc1 → sents doc1 = [[token1]] →
      pos_ token1 = "ADJ" → lemma_ token1 = "Happy" →
      is_stop token1 = false → is_punct token1 = false →
      nlp "ÉLÉGANT" = Ok doc2 → sents doc2 = [[token2]] →
      pos_ token2 = "ADJ" → lemma_ token2 = "ÉLÉGANT" →
      is_stop token2 = false → is_punct token2 = false →
      tokenize_adjective_cell
        ("Happy," +:+ Str.encode 0xA0 +:+ "ÉLÉGANT" +:+ Str.encode 0x2009) nlp
      = Ok ["happy"; "élégant"])
  ∧ (∀ (nlp : Language) (doc : Doc) (other glad stop sad mark : Token),
      nlp "so glad. not sad!" = Ok doc →
      sents doc = [[other; glad]; [stop; sad; mark]] →
      pos_ other ≠ "ADJ" → is_stop stop = true → is_punct mark = true →
      pos_ glad = "ADJ" → is_stop glad = false → is_punct glad = false →
      lemma_ glad = "glad" →
      pos_ sad = "ADJ" → is_stop sad = false → is_punct sad = false →
      lemma_ sad = "sad" →
      tokenize_adjective_cell " so glad. not sad! ," nlp = Ok ["glad"; "sad"]).
Proof.
  split_and!.
  - apply tokenize_adjective_cell_spec.
  - intros cell. split; [apply adjective_pieces_trimmed|].
    apply Forall_forall. intros piece. apply adjective_pieces_clean.
  - apply tokenize_adjective_cell_lower.
  - intros nlp doc token Hdoc Hsents Hpos Hlemma Hstop Hpunct.
    rewrite tokenize_adjective_cell_spec. unfold adjective_list_spec.
    replace (adjective_pieces "happy, happy") with ["happy"; "happy"]
      by (vm_compute; reflexivity).
    simpl. unfold adjective_piece_spec. rewrite Hdoc. simpl.
    rewrite Hsents. simpl. unfold adjective_retained, lemma_lower.
    rewrite Hpos, Hstop, Hpunct. simpl. rewrite Hlemma.
    vm_compute. reflexivity.
  - intros nlp doc1 doc2 token1 token2 Hdoc1 Hsents1 Hpos1 Hlemma1 Hstop1
      Hpunct1 Hdoc2 Hsents2 Hpos2 Hlemma2 Hstop2 Hpunct2.
    rewrite tokenize_adjective_cell_spec. unfold adjective_list_spec.
    replace (adjective_pieces _) with ["Happy"; "ÉLÉGANT"]
      by (vm_compute; reflexivity).
    simpl. unfold adjective_piece_spec. rewrite Hdoc1, Hdoc2. simpl.
    rewrite Hsents1, Hsents2. simpl. unfold adjective_retained, lemma_lower.
    rewrite Hpos1, Hstop1, Hpunct1, Hpos2, Hstop2, Hpunct2. simpl.
    rewrite Hlemma1, Hlemma2. vm_compute. reflexivity.
  - intros nlp doc other glad stop sad mark Hdoc Hsents Hother Hstop Hmark
      Hpos1 Hstop1 Hpunct1 Hlemma1 Hpos2 Hstop2 Hpunct2 Hlemma2.
    rewrite tokenize_adjective_cell_spec. unfold adjective_list_spec.
    replace (adjective_pieces _) with ["so glad. not sad!"]
      by (vm_compute; reflexivity).
    simpl. unfold adjective_piece_spec. rewrite Hdoc. simpl.
    rewrite Hsents. simpl. unfold adjective_retained, lemma_lower.
    apply String.eqb_neq in Hother.
    rewrite Hother, Hstop, Hmark, Hpos1, Hstop1, Hpunct1, Hpos2, Hstop2, Hpunct2.
    rewrite !andb_false_r. simpl. rewrite Hlemma1, Hlemma2.
    vm_compute. reflexivity.
Qed.

Lemma tokenize_adjective_cell_adjective_list_witness :
  nlp_happy "happy" = Ok {| sents := [[happy_token]];
                            ents := [ {| text := "happy" |} ] |}
  ∧ tokenize_adjective_cell "happy, happy" nlp_happy = Ok ["happy"; "happy"]
  ∧ nlp_echo "Happy" = Ok {| sents := [[word "Happy" "ADJ"]]; ents := [] |}
  ∧ nlp_echo "ÉLÉGANT" = Ok {| sents := [[word "ÉLÉGANT" "ADJ"]]; ents := [] |}
  ∧ tokenize_adjective_cell
      ("Happy," +:+ Str.encode 0xA0 +:+ "ÉLÉGANT" +:+ Str.encode 0x2009)
      nlp_echo
    = Ok ["happy"; "élégant"].
Proof.
  split; [reflexivity|]. split.
  { apply (proj1 (proj2 (proj2 (proj2 tokenize_adjective_cell_adjective_list)))
             nlp_happy
             {| sents := [[happy_token]]; ents := [ {| text := "happy" |} ] |}
             happy_token); reflexivity. }
  split; [reflexivity|]. split; [reflexivity|].
  apply (proj1 (proj2 (proj2 (proj2 (proj2
             tokenize_adjective_cell_adjective_list))))
           nlp_echo
           {| sents := [[word "Happy" "ADJ"]]; ents := [] |}
           {| sents := [[word "ÉLÉGANT" "ADJ"]]; ents := [] |}
           (word "Happy" "ADJ") (word "ÉLÉGANT" "ADJ")); reflexivity.
Defined.

(* ===================================================================== *)
(** * More on the frequency aggregator *)
(* ===================================================================== *)

Lemma mapM_is_Ok {A B : Type} (f : A → result B) (l : list A) :
  (∃ ys, mapM f l = Ok ys) ↔ ∀ x, x ∈ l → ∃ y, f x = Ok y.
Proof.
  induction l as [|x l IH]; simpl.
  - split; [|by eexists]. intros _ x Hx. by apply elem_of_nil in Hx.
  - split.
    + intros (ys & (y & Hy & (ys' & Hys' & _)%bind_Ok)%bind_Ok).
      intros x' [->|Hx']%elem_of_cons; [by exists y|].
      apply IH; [by exists ys'|done].
    + intros Hall. destruct (Hall x) as [y Hy]; [left|].
      destruct (proj2 IH) as [ys Hys].
      { intros x' Hx'. apply Hall. by right. }
      exists (y :: ys). by rewrite Hy, Ok_bind, Hys.
Qed.

Lemma mapM_Raise {A B : Type} (f : A → result B) (l : list A) (e : exn) :
  mapM f l = Raise e → ∃ x, x ∈ l ∧ f x = Raise e.
Proof.
  induction l as [|x l IH]; simpl; [done|].
  destruct (f x) as [y|e'] eqn:Hx; simpl.
  - destruct (mapM f l) as [ys|e'] eqn:Hl; simpl; [done|].
    intros [= ->]. destruct IH as (x' & Hx' & Hf); [done|].
    exists x'. split; [by right|done].
  - intros [= ->]. exists x. split; [left|done].
Qed.

Lemma mapM_length {A B : Type} (f : A → result B) (l : list A) (ys : list B) :
  mapM f l = Ok ys → length ys = length l.
Proof. intros H%mapM_Ok. symmetry. by eapply Forall2_length. Qed.

Lemma count_elements_app (c : Counter) (a b : list string) :
  count_elements c (a ++ b) = count_elements (count_elements c a) b.
Proof. unfold count_elements. by rewrite foldl_app. Qed.

Lemma empty_counters_lookup (columns : list string) (col : string) :
  empty_counters columns !! col
  = if decide (col ∈ columns) then Some [] else None.
Proof.
  unfold empty_counters.
  assert (Hgen : ∀ m : gmap string Counter,
    foldl (λ counters col, <[col := []]> counters) m columns !! col
    = if decide (col ∈ columns) then Some [] else m !! col).
  { induction columns as [|c columns IH]; intros m; simpl.
    - destruct (decide (col ∈ [])) as [Hin|_]; [by apply elem_of_nil in Hin|done].
    - rewrite IH. destruct (decide (col ∈ columns)) as [Hin|Hin].
      + by rewrite decide_True by by right.
      + destruct (decide (c = col)) as [->|Hne].
        * rewrite decide_True by left. apply lookup_insert_eq.
        * rewrite lookup_insert_ne by done. rewrite decide_False; [done|].
          rewrite not_elem_of_cons. naive_solver. }
  rewrite Hgen. by case_decide.
Qed.

Lemma count_cell_alter tokenize_func (nlp : Language) (row : Row)
    (counters : gmap string Counter) (col : string) :
  is_Some (counters !! col) →
  count_cell tokenize_func nlp row counters col
  = tokens ← cell_tokens tokenize_func nlp row col;
    Ok (alter (λ c, count_elements c tokens) col counters).
Proof.
  intros [c Hc]. unfold count_cell, cell_tokens.
  destruct (getitem row col) as [[|cell]|e]; simpl; [| |done].
  - f_equal. apply map_eq. intros col'. rewrite lookup_alter.
    case_decide; [|done]. subst. by rewrite Hc.
  - destruct (tokenize_func cell nlp) as [tokens|e]; simpl; [|done].
    rewrite (getitem_Some _ _ _ Hc). simpl. f_equal.
    apply map_eq. intros col'. rewrite lookup_alter, lookup_insert.
    case_decide; [|done]. subst. by rewrite Hc.
Qed.

Lemma feed_lookup (counters : gmap string Counter)
    (fed : list (string * list string)) (col : string) :
  feed counters fed !! col
  = (λ c, count_elements c (pick col fed)) <$> counters !! col.
Proof.
  unfold feed, pick. revert counters.
  induction fed as [|[col' tokens] fed IH]; intros counters; simpl.
  - by destruct (counters !! col).
  - rewrite IH, lookup_alter. simpl.
    destruct (decide (col' = col)) as [->|Hne].
    + rewrite filter_cons_True by done. simpl.
      destruct (counters !! col); simpl; [|done].
      by rewrite count_elements_app.
    + by rewrite filter_cons_False by done.
Qed.

Lemma count_row_feed tokenize_func (nlp : Language) (columns : list string)
    (counters : gmap string Counter) (row : Row) :
  (∀ col, col ∈ columns → is_Some (counters !! col)) →
  count_row tokenize_func nlp columns counters row
  = tl ← mapM (cell_tokens tokenize_func nlp row) columns;
    Ok (feed counters (zip columns tl)).
Proof.
  unfold count_row. revert counters.
  induction columns as [|col columns IH]; intros counters Hdom; [done|].
  rewrite for_each_cons, count_cell_alter by (apply Hdom; left).
  simpl. destruct (cell_tokens _ _ row col) as [tokens|e]; simpl; [|done].
  rewrite IH.
  - by destruct (mapM _ columns).
  - intros col' Hcol'. apply lookup_alter_is_Some, Hdom. by right.
Qed.

Lemma compute_counters_feed (data : list Row) (columns : list string)
    tokenize_func (nlp : Language) :
  compute_counters data columns tokenize_func nlp
  = rows ← mapM (λ row, mapM (cell_tokens tokenize_func nlp row) columns) data;
    Ok (foldl (λ m tl, feed m (zip columns tl)) (empty_counters columns) rows).
Proof.
  unfold compute_counters.
  assert (Hgen : ∀ m : gmap string Counter,
    (∀ col, col ∈ columns → is_Some (m !! col)) →
    for_each data (count_row tokenize_func nlp columns) m
    = rows ← mapM (λ row, mapM (cell_tokens tokenize_func nlp row) columns) data;
      Ok (foldl (λ m tl, feed m (zip columns tl)) m rows)).
  { induction data as [|row data IH]; intros m Hdom; [done|].
    rewrite for_each_cons, count_row_feed by done. simpl.
    destruct (mapM _ columns) as [tl|e]; simpl; [|done].
    rewrite IH.
    - by destruct (mapM _ data).
    - intros col Hcol. rewrite feed_lookup. apply fmap_is_Some. by apply Hdom. }
  apply Hgen. intros col Hcol.
  by rewrite empty_counters_lookup, decide_True.
Qed.

Lemma feed_rows_lookup (columns : list string) (m : gmap string Counter)
    (rows : list (list (list string))) (col : string) :
  foldl (λ m tl, feed m (zip columns tl)) m rows !! col
  = (λ c, count_elements c
            (concat ((λ tl, pick col (zip columns tl)) <$> rows)))
      <$> m !! col.
Proof.
  revert m. induction rows as [|tl rows IH]; intros m; simpl.
  - by destruct (m !! col).
  - rewrite IH, feed_lookup. destruct (m !! col); simpl; [|done].
    by rewrite count_elements_app.
Qed.

(** X5. The aggregator succeeds exactly when every designated cell of every
    row can be read and tokenized: the row has the column, and the cell is
    missing or the tokenizer returns for its text. *)
Theorem compute_counters_succeeds_iff (data : list Row)
    (columns : list string) tokenize_func (nlp : Language) :
  (∃ counters, compute_counters data columns tokenize_func nlp = Ok counters)
  ↔ ∀ row col, row ∈ data → col ∈ columns →
      ∃ tokens, cell_tokens tokenize_func nlp row col = Ok tokens.
Proof.
  rewrite compute_counters_feed. split.
  - intros (counters & (rows & Hrows & _)%bind_Ok) row col Hrow Hcol.
    assert (Hall : ∃ rows, mapM (λ row, mapM (cell_tokens tokenize_func nlp row)
                                          columns) data = Ok rows)
      by by exists rows.
    rewrite mapM_is_Ok in Hall. destruct (Hall row Hrow) as (tl & Htl).
    assert (Hrow' : ∃ tl, mapM (cell_tokens tokenize_func nlp row) columns = Ok tl)
      by by exists tl.
    rewrite mapM_is_Ok in Hrow'. by apply Hrow'.
  - intros Hall.
    destruct (proj2 (mapM_is_Ok
      (λ row, mapM (cell_tokens tokenize_func nlp row) columns) data))
      as (rows & Hrows).
    { intros row Hrow. apply mapM_is_Ok. intros col Hcol. by apply Hall. }
    rewrite Hrows. by eexists.
Qed.

(** X6. When the aggregator raises, the exception is the one of a
    designated cell of some row: the [KeyError] of a column the row does not
    have, or what the tokenizer raised on the text of the cell. *)
Theorem compute_counters_raises (data : list Row) (columns : list string)
    tokenize_func (nlp : Language) (e : exn) :
  compute_counters data columns tokenize_func nlp = Raise e →
  ∃ row col, row ∈ data ∧ col ∈ columns
    ∧ cell_tokens tokenize_func nlp row col = Raise e
    ∧ (row !! col = None ∧ e = KeyError col
       ∨ ∃ cell, row !! col = Some (Value cell)
                 ∧ tokenize_func cell nlp = Raise e).
Proof.
  rewrite compute_counters_feed.
  destruct (mapM _ data) as [rows|e'] eqn:Hrows; simpl; [done|].
  intros [= ->].
  apply mapM_Raise in Hrows as (row & Hrow & Hcols).
  apply mapM_Raise in Hcols as (col & Hcol & Hcell).
  exists row, col. split_and!; [done|done|done|].
  unfold cell_tokens, getitem in Hcell.
  destruct (row !! col) as [[|cell]|]; simpl in Hcell; [done| |].
  - right. by exists cell.
  - left. by injection Hcell as <-.
Qed.

Lemma compute_counters_raises_witness :
  compute_counters [ <["Adjectives_1" := Value ""]> ∅ ] ["Adjectives_1"]
    tokenize_description nlp_strict
  = Raise (CapabilityFailure "empty text")
  ∧ ∃ row col, row ∈ [ (<["Adjectives_1" := Value ""]> ∅ : Row) ]
      ∧ col ∈ ["Adjectives_1"]
      ∧ cell_tokens tokenize_description nlp_strict row col
        = Raise (CapabilityFailure "empty text").
Proof.
  assert (Hrun : compute_counters [ <["Adjectives_1" := Value ""]> ∅ ]
                   ["Adjectives_1"] tokenize_description nlp_strict
                 = Raise (CapabilityFailure "empty text")) by reflexivity.
  split; [exact Hrun|].
  destruct (compute_counters_raises _ _ _ _ _ Hrun)
    as (row & col & Hrow & Hcol & Hcell & _).
  by exists row, col.
Defined.

(** X7. The aggregator returns a counter for each designated column and for
    nothing else. *)
Theorem compute_counters_dom (data : list Row) (columns : list string)
    tokenize_func (nlp : Language) (counters : gmap string Counter) :
  compute_counters data columns tokenize_func nlp = Ok counters →
  ∀ col, is_Some (counters !! col) ↔ col ∈ columns.
Proof.
  rewrite compute_counters_feed.
  intros (rows & _ & [= <-])%bind_Ok col.
  rewrite feed_rows_lookup, fmap_is_Some, empty_counters_lookup.
  case_decide; [by split; [|eexists]|].
  split; [by intros [? ?]|done].
Qed.

Lemma compute_counters_dom_witness :
  compute_counters sample_data ["Adjectives_1"] tokenize_adjective_cell nlp_happy
  = Ok (<["Adjectives_1" := [("happy", 2%Z)]]> ∅)
  ∧ (is_Some ((<["Adjectives_1" := [("happy", 2%Z)]]> ∅ : gmap string Counter)
                !! "Timestamp")
     ↔ "Timestamp" ∈ ["Adjectives_1"]).
Proof.
  assert (Hrun : compute_counters sample_data ["Adjectives_1"]
                   tokenize_adjective_cell nlp_happy
                 = Ok (<["Adjectives_1" := [("happy", 2%Z)]]> ∅)).
  { vm_compute. reflexivity. }
  split; [exact Hrun|].
  exact (compute_counters_dom _ _ _ _ _ Hrun "Timestamp").
Defined.

Lemma compute_counters_succeeds_iff_witness :
  (∃ counters, compute_counters sample_data ["Adjectives_1"]
                 tokenize_adjective_cell nlp_happy = Ok counters)
  ∧ ∃ tokens, cell_tokens tokenize_adjective_cell nlp_happy
                (<["Adjectives_1" := Value "happy, happy"]> ∅) "Adjectives_1"
              = Ok tokens.
Proof.
  assert (Hrun : ∃ counters, compute_counters sample_data ["Adjectives_1"]
                               tokenize_adjective_cell nlp_happy = Ok counters).
  { eexists. vm_compute. reflexivity. }
  split; [exact Hrun|].
  apply (proj1 (compute_counters_succeeds_iff _ _ _ _) Hrun); left.
Defined.

Lemma pick_cons (col c : string) (t : list string)
    (fed : list (string * list string)) :
  pick col ((c, t) :: fed)
  = if decide (c = col) then t ++ pick col fed else pick col fed.
Proof.
  unfold pick. case_decide.
  - by rewrite filter_cons_True.
  - by rewrite filter_cons_False.
Qed.

Lemma pick_absent (col : string) (columns : list string)
    (tl : list (list string)) :
  col ∉ columns → pick col (zip columns tl) = [].
Proof.
  revert tl.
  induction columns as [|c columns IH]; intros tl Hcol; [done|].
  apply not_elem_of_cons in Hcol as [Hne Hcol].
  destruct tl as [|t tl]; [done|].
  change (zip (c :: columns) (t :: tl)) with ((c, t) :: zip columns tl).
  rewrite pick_cons, decide_False by congruence. by apply IH.
Qed.

Lemma pick_cell (f : string → result (list string))
    (columns : list string) (tl : list (list string)) (col : string) :
  NoDup columns → col ∈ columns → mapM f columns = Ok tl →
  f col = Ok (pick col (zip columns tl)).
Proof.
  intros Hnd. revert tl.
  induction Hnd as [|c columns Hc Hnd IH]; intros tl Hcol Hrun.
  - by apply elem_of_nil in Hcol.
  - simpl in Hrun. apply bind_Ok in Hrun as (t & Ht & Hrun).
    apply bind_Ok in Hrun as (ts & Hts & [= <-]).
    change (zip (c :: columns) (t :: ts)) with ((c, t) :: zip columns ts).
    rewrite pick_cons. destruct (decide (c = col)) as [->|Hne].
    + by rewrite pick_absent, app_nil_r.
    + apply elem_of_cons in Hcol as [->|Hcol]; [done|]. by apply IH.
Qed.

Lemma column_stream_rows tokenize_func (nlp : Language) (data : list Row)
    (columns : list string) (rows : list (list (list string))) (col : string) :
  NoDup columns → col ∈ columns →
  mapM (λ row, mapM (cell_tokens tokenize_func nlp row) columns) data = Ok rows →
  column_stream tokenize_func nlp data col
  = Ok ((λ tl, pick col (zip columns tl)) <$> rows).
Proof.
  intros Hnd Hcol. unfold column_stream. revert rows.
  induction data as [|row data IH]; intros rows; simpl.
  - by intros [= <-].
  - intros (tl & Htl & (rows' & Hrows' & [= <-])%bind_Ok)%bind_Ok.
    rewrite (pick_cell _ columns tl col Hnd Hcol Htl), Ok_bind.
    by rewrite (IH rows' Hrows').
Qed.

Lemma counter_get_nil (t : string) : counter_get [] t = 0%Z.
Proof. reflexivity. Qed.

(** X8. With distinct designated columns, the counter that the aggregator
    returns for a column is a function of that column alone: it counts, for
    every token, the occurrences in the tokens of the column's cells that
    are not missing, taken in row order (a token repeated in one cell counts
    each time), and it lists the tokens in the order of their first
    appearance. *)
Theorem compute_counters_column (data : list Row) (columns : list string)
    tokenize_func (nlp : Language) (counters : gmap string Counter)
    (col : string) :
  NoDup columns → col ∈ columns →
  compute_counters data columns tokenize_func nlp = Ok counters →
  ∃ streams c,
    column_stream tokenize_func nlp data col = Ok streams
    ∧ counters !! col = Some c
    ∧ (∀ t, counter_get c t = occurrences t (concat streams))
    ∧ c.*1 = first_seen [] (concat streams)
    ∧ well_formed c.
Proof.
  intros Hnd Hcol. rewrite compute_counters_feed.
  intros (rows & Hrows & [= <-])%bind_Ok.
  eexists _, _. split; [by apply (column_stream_rows _ _ _ columns)|].
  rewrite feed_rows_lookup, empty_counters_lookup, decide_True by done.
  split; [done|]. split_and!.
  - intros t. by rewrite count_elements_get, counter_get_nil, Z.add_0_l.
  - by rewrite count_elements_keys.
  - apply count_elements_well_formed, NoDup_nil_2.
Qed.

Lemma compute_counters_column_witness :
  NoDup ["Adjectives_1"] ∧ "Adjectives_1" ∈ ["Adjectives_1"]
  ∧ ∃ streams,
      column_stream tokenize_adjective_cell nlp_happy sample_data "Adjectives_1"
      = Ok streams.
Proof.
  assert (Hnd : NoDup ["Adjectives_1"]).
  { apply NoDup_singleton. }
  assert (Hin : "Adjectives_1" ∈ ["Adjectives_1"]) by left.
  split; [exact Hnd|]. split; [exact Hin|].
  assert (Hrun : compute_counters sample_data ["Adjectives_1"]
                   tokenize_adjective_cell nlp_happy
                 = Ok (<["Adjectives_1" := [("happy", 2%Z)]]> ∅)).
  { vm_compute. reflexivity. }
  destruct (compute_counters_column sample_data ["Adjectives_1"]
              tokenize_adjective_cell nlp_happy _ "Adjectives_1" Hnd Hin Hrun)
    as (streams & c & Hstreams & _).
  by exists streams.
Defined.

Lemma mapM_Permutation {A B : Type} (f : A → result B) (l l' : list A)
    (ys : list B) :
  l ≡ₚ l' → mapM f l = Ok ys → ∃ ys', mapM f l' = Ok ys' ∧ ys ≡ₚ ys'.
Proof.
  intros Hp. revert ys.
  induction Hp as [|x l l' Hp IH|x y l|l l' l'' Hp1 IH1 Hp2 IH2]; intros ys.
  - intros [= <-]. by exists [].
  - simpl. intros (y & Hy & (ys0 & Hys0 & [= <-])%bind_Ok)%bind_Ok.
    destruct (IH _ Hys0) as (ys' & Hys' & Hperm).
    exists (y :: ys'). rewrite Hy, Ok_bind, Hys'. split; [done|].
    by constructor.
  - simpl. intros (b & Hb & (ys0 & Hrest & [= <-])%bind_Ok)%bind_Ok.
    apply bind_Ok in Hrest as (a & Ha & (ys1 & Hys1 & [= <-])%bind_Ok).
    exists (a :: b :: ys1). rewrite Ha, Ok_bind, Hb, Ok_bind, Hys1.
    split; [done|]. apply Permutation_swap.
  - intros Hys. destruct (IH1 _ Hys) as (ys' & Hys' & Hp).
    destruct (IH2 _ Hys') as (ys'' & Hys'' & Hp').
    exists ys''. split; [done|]. by etrans.
Qed.

Lemma concat_Permutation {A : Type} (l l' : list (list A)) :
  l ≡ₚ l' → concat l ≡ₚ concat l'.
Proof.
  induction 1 as [|x l l' Hp IH|x y l|l l' l'' Hp1 IH1 Hp2 IH2]; simpl.
  - done.
  - by rewrite IH.
  - rewrite !app_assoc. f_equiv. apply Permutation_app_comm.
  - by etrans.
Qed.

Lemma occurrences_Permutation (t : string) (l l' : list string) :
  l ≡ₚ l' → occurrences t l = occurrences t l'.
Proof. intros Hp. unfold occurrences. by rewrite Hp. Qed.

(** X9. The order of the rows does not change any count: the aggregator
    succeeds on a table whose rows are rearranged when it succeeds on the
    table, and every token has the same count in the counter of every
    column.  (Only the order of the entries, and with it the tie-break of
    the ranking, can differ.) *)
Theorem compute_counters_row_order (data data' : list Row)
    (columns : list string) tokenize_func (nlp : Language)
    (counters : gmap string Counter) :
  data ≡ₚ data' →
  compute_counters data columns tokenize_func nlp = Ok counters →
  ∃ counters',
    compute_counters data' columns tokenize_func nlp = Ok counters'
    ∧ ∀ col c, counters !! col = Some c →
        ∃ c', counters' !! col = Some c'
              ∧ ∀ t, counter_get c t = counter_get c' t.
Proof.
  intros Hp. rewrite !compute_counters_feed.
  intros (rows & Hrows & [= <-])%bind_Ok.
  destruct (mapM_Permutation _ _ _ _ Hp Hrows) as (rows' & -> & Hperm).
  eexists. split; [done|]. intros col c.
  rewrite !feed_rows_lookup. destruct (empty_counters columns !! col) as [c0|];
    simpl; [|done].
  intros [= <-]. eexists. split; [done|]. intros t.
  rewrite !count_elements_get. f_equal.
  apply occurrences_Permutation, concat_Permutation.
  by apply fmap_Permutation.
Qed.

Lemma compute_counters_row_order_witness :
  sample_data ≡ₚ reverse sample_data
  ∧ ∃ counters', compute_counters (reverse sample_data) ["Adjectives_1"]
                   tokenize_adjective_cell nlp_happy = Ok counters'.
Proof.
  assert (Hp : sample_data ≡ₚ reverse sample_data).
  { symmetry. apply reverse_Permutation. }
  split; [exact Hp|].
  assert (Hrun : compute_counters sample_data ["Adjectives_1"]
                   tokenize_adjective_cell nlp_happy
                 = Ok (<["Adjectives_1" := [("happy", 2%Z)]]> ∅)).
  { vm_compute. reflexivity. }
  destruct (compute_counters_row_order sample_data (reverse sample_data)
              ["Adjectives_1"] tokenize_adjective_cell nlp_happy _ Hp Hrun)
    as (counters' & Hrun' & _).
  by exists counters'.
Defined.

Lemma first_seen_app (seen a b : list string) :
  first_seen seen (a ++ b) = first_seen (first_seen seen a) b.
Proof. unfold first_seen. by rewrite foldl_app. Qed.

Lemma first_seen_snoc (seen l : list string) (x : string) :
  first_seen seen (l ++ [x])
  = if decide (x ∈ first_seen seen l) then first_seen seen l
    else first_seen seen l ++ [x].
Proof. by rewrite first_seen_app. Qed.

Lemma first_seen_elem (seen l : list string) (x : string) :
  x ∈ first_seen seen l ↔ x ∈ seen ∨ x ∈ l.
Proof.
  induction l as [|y l IH] using rev_ind.
  - simpl. split; [by left|]. intros [?|Hnil]; [done|].
    by apply elem_of_nil in Hnil.
  - rewrite first_seen_snoc. case_decide as Hy.
    + rewrite IH, elem_of_app, list_elem_of_singleton. split.
      * intros [?|?]; [by left|]. right. by left.
      * intros [?|[?| ->]]; [by left|by right|]. by apply IH.
    + rewrite !elem_of_app, IH, list_elem_of_singleton. split.
      * intros [[?|?]|?]; [by left|right; by left|right; by right].
      * intros [?|[?|?]]; [left; by left|left; by right|by right].
Qed.

Lemma first_seen_dedup (seen l : list string) :
  first_seen seen (first_seen [] l) = first_seen seen l.
Proof.
  induction l as [|x l IH] using rev_ind; [done|].
  rewrite (first_seen_snoc [] l), (first_seen_snoc seen l).
  destruct (decide (x ∈ first_seen [] l)) as [Hx|Hx].
  - rewrite IH, decide_True; [done|].
    apply first_seen_elem. right.
    apply first_seen_elem in Hx as [Hx|Hx]; [by apply elem_of_nil in Hx|done].
  - by rewrite first_seen_snoc, IH.
Qed.

Lemma update_mapping_keys_order (self iterable : Counter) :
  (update_mapping self iterable).*1 = first_seen self.*1 iterable.*1.
Proof.
  assert (Hgen : ∀ (f : Counter → string * Z → Z) (items self : Counter),
            (foldl (λ self item, dict_set item.1 (f self item) self)
                   self items).*1
            = first_seen self.*1 items.*1).
  { intros f items. induction items as [|[k n] items IH]; intros d; [done|].
    simpl. by rewrite IH, dict_set_keys. }
  destruct self as [|item self].
  - apply (Hgen (λ _ item, item.2)).
  - apply (Hgen (λ self item, (item.2 + counter_get self item.1)%Z)).
Qed.

(** Two dictionaries without repeated keys that list the same keys in the
    same order with the same counts are the same. *)
Lemma counter_ext (c c' : Counter) :
  well_formed c → c.*1 = c'.*1 →
  (∀ t, counter_get c t = counter_get c' t) → c = c'.
Proof.
  unfold well_formed. revert c'.
  induction c as [|[k n] c IH]; intros [|[k' n'] c']; try done.
  rewrite !fmap_cons, NoDup_cons. simpl.
  intros [Hk Hnd] [= <- Hkeys] Hget.
  assert (n = n') as <-.
  { specialize (Hget k). by rewrite !counter_get_cons, !decide_True in Hget. }
  f_equal. apply IH; [done|done|].
  intros t. specialize (Hget t). rewrite !counter_get_cons in Hget.
  case_decide as Hkt; [|done]. subst.
  rewrite (counter_get_absent c) by done.
  rewrite (counter_get_absent c'); [done|]. by rewrite <- Hkeys.
Qed.

Lemma occurrences_app (t : string) (a b : list string) :
  occurrences t (a ++ b) = (occurrences t a + occurrences t b)%Z.
Proof. unfold occurrences. rewrite filter_app, length_app. lia. Qed.

Lemma count_elements_merge (a b : list string) :
  count_elements [] (a ++ b)
  = update_mapping (count_elements [] a) (count_elements [] b).
Proof.
  apply counter_ext.
  - apply count_elements_well_formed, NoDup_nil_2.
  - rewrite update_mapping_keys_order, !count_elements_keys.
    by rewrite first_seen_dedup, first_seen_app.
  - intros t. rewrite update_mapping_get
      by apply count_elements_well_formed, NoDup_nil_2.
    rewrite !count_elements_get, !counter_get_nil, occurrences_app. lia.
Qed.

Lemma mapM_app_Ok {A B : Type} (f : A → result B) (l1 l2 : list A)
    (ys : list B) :
  mapM f (l1 ++ l2) = Ok ys →
  ∃ ys1 ys2, mapM f l1 = Ok ys1 ∧ mapM f l2 = Ok ys2 ∧ ys = ys1 ++ ys2.
Proof.
  rewrite mapM_app.
  intros (ys1 & H1 & (ys2 & H2 & [= <-])%bind_Ok)%bind_Ok.
  by exists ys1, ys2.
Qed.

(** X10. Aggregation can be done in parts.  When the aggregator succeeds on
    a table, it succeeds on its first rows and on its remaining rows taken
    as tables of their own, and the counter of every column is the counter
    of the first part updated with the counter of the second part by
    [Counter.update], the operation that the table builder uses for the
    overall counter: same counts, same order of the entries. *)
Theorem compute_counters_merge (data1 data2 : list Row)
    (columns : list string) tokenize_func (nlp : Language)
    (counters : gmap string Counter) :
  compute_counters (data1 ++ data2) columns tokenize_func nlp = Ok counters →
  ∃ counters1 counters2,
    compute_counters data1 columns tokenize_func nlp = Ok counters1
    ∧ compute_counters data2 columns tokenize_func nlp = Ok counters2
    ∧ ∀ col c, counters !! col = Some c →
        ∃ a b, counters1 !! col = Some a ∧ counters2 !! col = Some b
               ∧ c = update_mapping a b.
Proof.
  rewrite !compute_counters_feed.
  intros (rows & Hrows & [= <-])%bind_Ok.
  apply mapM_app_Ok in Hrows as (rows1 & rows2 & -> & -> & ->).
  eexists _, _. split; [done|]. split; [done|]. intros col c.
  rewrite !feed_rows_lookup, empty_counters_lookup.
  case_decide; simpl; [|done]. intros [= <-].
  eexists _, _. split; [done|]. split; [done|].
  by rewrite fmap_app, concat_app, count_elements_merge.
Qed.

Lemma compute_counters_merge_witness :
  ∃ counters1 counters2,
    compute_counters (take 1 sample_data) ["Adjectives_1"]
      tokenize_adjective_cell nlp_happy = Ok counters1
    ∧ compute_counters (drop 1 sample_data) ["Adjectives_1"]
        tokenize_adjective_cell nlp_happy = Ok counters2.
Proof.
  assert (Hrun : compute_counters (take 1 sample_data ++ drop 1 sample_data)
                   ["Adjectives_1"] tokenize_adjective_cell nlp_happy
                 = Ok (<["Adjectives_1" := [("happy", 2%Z)]]> ∅)).
  { vm_compute. reflexivity. }
  destruct (compute_counters_merge _ _ _ _ _ _ Hrun)
    as (counters1 & counters2 & H1 & H2 & _).
  by exists counters1, counters2.
Defined.

(* ===================================================================== *)
(** * More on the table builder *)
(* ===================================================================== *)

Lemma counters_of_exists (counters : gmap string Counter)
    (columns : list string) :
  (∀ col, col ∈ columns → is_Some (counters !! col)) →
  ∃ cs, counters_of counters columns cs.
Proof.
  induction columns as [|col columns IH]; intros Hall.
  - exists []. constructor.
  - destruct (Hall col) as [c Hc]; [left|].
    destruct IH as [cs Hcs]. { intros col' Hcol'. apply Hall. by right. }
    exists (c :: cs). by constructor.
Qed.

Lemma first_seen_cons (seen l : list string) (x : string) :
  first_seen seen (x :: l)
  = first_seen (if decide (x ∈ seen) then seen else seen ++ [x]) l.
Proof. reflexivity. Qed.

Lemma first_seen_NoDup (seen l : list string) :
  NoDup (seen ++ l) → first_seen seen l = seen ++ l.
Proof.
  revert seen. induction l as [|x l IH]; intros seen Hnd.
  - by rewrite app_nil_r.
  - rewrite first_seen_cons.
    assert (Hx : x ∉ seen).
    { apply NoDup_app in Hnd as (_ & Hdisj & _). intros Hx.
      apply (Hdisj x Hx). left. }
    rewrite decide_False by done.
    rewrite IH; rewrite <- app_assoc; done.
Qed.

Lemma mk_DataFrame_columns (df_dict : list (string * Column)) (df : DataFrame) :
  mk_DataFrame df_dict = Ok df → df_columns df = df_dict.
Proof.
  unfold mk_DataFrame. destruct df_dict as [|[hdr c] rest].
  - by intros [= <-].
  - destruct (forallb _ _); [|done]. by intros [= <-].
Qed.

Lemma emit_column_keys (r : Ranking) (d d' : list (string * Column))
    (col : string) :
  emit_column r d col = Ok d' →
  d'.*1 = first_seen d.*1 [col +:+ "_Word"; col +:+ "_Frequency"].
Proof.
  unfold emit_column. intros ([words freqs] & _ & [= <-])%bind_Ok.
  by rewrite !dict_set_keys.
Qed.

Lemma emit_loop_keys (r : Ranking) (columns : list string)
    (d d' : list (string * Column)) :
  for_each columns (emit_column r) d = Ok d' →
  d'.*1 = first_seen d.*1
            (columns ≫= λ col, [col +:+ "_Word"; col +:+ "_Frequency"]).
Proof.
  revert d. induction columns as [|col columns IH]; intros d.
  - by intros [= <-].
  - rewrite for_each_cons. intros (d1 & Hd1 & Hrest)%bind_Ok.
    rewrite (IH _ Hrest), (emit_column_keys _ _ _ _ Hd1).
    by rewrite bind_cons, first_seen_app.
Qed.

Lemma build_master_dataframe_keys (counters : gmap string Counter)
    (columns : list string) (df : DataFrame) :
  build_master_dataframe counters columns = Ok df →
  (df_columns df).*1 = first_seen [] (headers columns).
Proof.
  unfold build_master_dataframe, build_df_dict.
  intros (r & _ & (d & Hd & ->%mk_DataFrame_columns)%bind_Ok)%bind_Ok.
  apply bind_Ok in Hd as (d1 & Hd1%emit_loop_keys & Hd).
  apply bind_Ok in Hd as ([ows ofs] & _ & [= <-]).
  rewrite !dict_set_keys, Hd1. unfold headers.
  by rewrite first_seen_app.
Qed.

Lemma column_headers_elem (columns : list string) (h : string) :
  h ∈ (columns ≫= λ col, [col +:+ "_Word"; col +:+ "_Frequency"]) →
  ∃ col, col ∈ columns ∧ (h = col +:+ "_Word" ∨ h = col +:+ "_Frequency").
Proof.
  intros (col & Hh & Hcol)%list_elem_of_bind. exists col. split; [done|].
  apply elem_of_cons in Hh as [->|Hh]; [by left|].
  apply list_elem_of_singleton in Hh as ->. by right.
Qed.

Lemma column_headers_NoDup (columns : list string) :
  NoDup columns →
  NoDup (columns ≫= λ col, [col +:+ "_Word"; col +:+ "_Frequency"]).
Proof.
  induction 1 as [|col columns Hcol Hnd IH].
  - constructor.
  - rewrite bind_cons. simpl.
    assert (Hfresh : ∀ h, h = col +:+ "_Word" ∨ h = col +:+ "_Frequency" →
               h ∉ (columns ≫= λ col, [col +:+ "_Word"; col +:+ "_Frequency"])).
    { intros h Hh (col' & Hcol' & Hh')%column_headers_elem.
      assert (col' ≠ col) by (by intros ->).
      destruct Hh as [Hh|Hh], Hh' as [Hh'|Hh'];
        rewrite Hh in Hh'; revert Hh'; header_ne. }
    constructor.
    { rewrite not_elem_of_cons. split; [header_ne|]. apply Hfresh. by left. }
    constructor; [|done]. apply Hfresh. by right.
Qed.

Lemma headers_NoDup (columns : list string) :
  NoDup columns → "Overall" ∉ columns → NoDup (headers columns).
Proof.
  intros Hnd Hov. unfold headers. apply NoDup_app. split_and!.
  - by apply column_headers_NoDup.
  - intros h (col & Hcol & Hh)%column_headers_elem.
    change "Overall_Word" with ("Overall" +:+ "_Word").
    change "Overall_Frequency" with ("Overall" +:+ "_Frequency").
    assert (col ≠ "Overall") by (by intros ->).
    intros [Heq|[Heq|Hnil]%elem_of_cons]%elem_of_cons.
    + destruct Hh as [Hh|Hh]; rewrite Hh in Heq; revert Heq; header_ne.
    + destruct Hh as [Hh|Hh]; rewrite Hh in Heq; revert Heq; header_ne.
    + by apply elem_of_nil in Hnil.
  - apply NoDup_cons. split; [|apply NoDup_singleton].
    intros H%list_elem_of_singleton. discriminate H.
Qed.

(** X11. The columns of the table come in the order of the designated
    columns: for distinct designated columns, none of them called
    "Overall", the headers are the word header and the frequency header of
    each column in turn, then the two overall headers, each once; so the
    table has two columns per designated column and two more. *)
Theorem build_master_dataframe_headers (counters : gmap string Counter)
    (columns : list string) (df : DataFrame) :
  NoDup columns → "Overall" ∉ columns →
  build_master_dataframe counters columns = Ok df →
  (df_columns df).*1 = headers columns
  ∧ NoDup (df_columns df).*1
  ∧ length (df_columns df) = 2 * length columns + 2.
Proof.
  intros Hnd Hov Hbuild.
  pose proof (headers_NoDup columns Hnd Hov) as Hheaders.
  assert (Hkeys : (df_columns df).*1 = headers columns).
  { rewrite (build_master_dataframe_keys _ _ _ Hbuild).
    by apply first_seen_NoDup. }
  split; [done|]. split; [by rewrite Hkeys|].
  rewrite <- (length_fmap fst), Hkeys. unfold headers.
  rewrite length_app. simpl.
  assert (Hlen : length (columns ≫= λ col, [col +:+ "_Word"; col +:+ "_Frequency"])
                 = 2 * length columns); [|lia].
  clear. induction columns as [|col columns IH]; [done|].
  rewrite bind_cons, length_app, IH. simpl. lia.
Qed.

Lemma build_master_dataframe_headers_witness :
  NoDup ["A"; "B"] ∧ ("Overall" ∉ ["A"; "B"])
  ∧ ∃ df, build_master_dataframe sample_counters ["A"; "B"] = Ok df
          ∧ (df_columns df).*1
            = ["A_Word"; "A_Frequency"; "B_Word"; "B_Frequency";
               "Overall_Word"; "Overall_Frequency"].
Proof.
  assert (Hnd : NoDup ["A"; "B"]).
  { apply (bool_decide_unpack _). vm_compute. exact I. }
  assert (Hov : "Overall" ∉ ["A"; "B"]).
  { apply (bool_decide_unpack _). vm_compute. exact I. }
  split; [exact Hnd|]. split; [exact Hov|].
  eexists. split; [vm_compute; reflexivity|].
  refine (proj1 (build_master_dataframe_headers sample_counters ["A"; "B"]
                   _ Hnd Hov _)).
  vm_compute. reflexivity.
Defined.

Lemma rank_step_None (counters : gmap string Counter) sd (ov : Counter)
    (ml : nat) (col : string) :
  counters !! col = None →
  rank_step counters (sd, ov, ml) col = Raise (KeyError col).
Proof. intros Hc. unfold rank_step, getitem. by rewrite Hc. Qed.

(** X12. A designated column without a counter stops the builder: when the
    columns before it all have a counter, the builder raises the [KeyError]
    of that column, whatever follows. *)
Theorem build_master_dataframe_KeyError (counters : gmap string Counter)
    (before after : list string) (col : string) :
  (∀ col', col' ∈ before → is_Some (counters !! col')) →
  counters !! col = None →
  build_master_dataframe counters (before ++ col :: after)
  = Raise (KeyError col).
Proof.
  intros Hbefore Hcol.
  destruct (counters_of_exists _ _ Hbefore) as [cs Hcs].
  unfold build_master_dataframe, rank_columns.
  rewrite for_each_app.
  destruct (rank_loop counters before cs ∅ [] 0 Hcs)
    as (sd & ov & ml & -> & _).
  by rewrite Ok_bind, for_each_cons, rank_step_None.
Qed.

Lemma build_master_dataframe_KeyError_witness :
  (∀ col', col' ∈ ["A"] → is_Some (sample_counters !! col'))
  ∧ sample_counters !! "C" = None
  ∧ build_master_dataframe sample_counters (["A"] ++ "C" :: ["B"])
    = Raise (KeyError "C").
Proof.
  assert (Hbefore : ∀ col', col' ∈ ["A"] → is_Some (sample_counters !! col')).
  { intros col' ->%list_elem_of_singleton. by eexists. }
  assert (Hcol : sample_counters !! "C" = None) by reflexivity.
  split; [exact Hbefore|]. split; [exact Hcol|].
  exact (build_master_dataframe_KeyError _ _ ["B"] _ Hbefore Hcol).
Defined.

Lemma rank_loop_overall_keys (counters : gmap string Counter)
    (columns : list string) (cs : list Counter) sd (ov : Counter) (ml : nat)
    sd' (ov' : Counter) (ml' : nat) :
  counters_of counters columns cs →
  for_each columns (rank_step counters) (sd, ov, ml) = Ok (sd', ov', ml') →
  ov'.*1 = first_seen ov.*1 (concat ((λ c : Counter, c.*1) <$> cs)).
Proof.
  intros Hcs. revert sd ov ml.
  induction Hcs as [|col c columns cs Hc Hcs IH]; intros sd ov ml.
  - by intros [= <- <- <-].
  - rewrite for_each_cons, (rank_step_Some _ _ _ _ _ _ Hc), Ok_bind.
    intros Hrun%IH. rewrite Hrun, update_mapping_keys_order.
    by rewrite fmap_cons, concat_cons, first_seen_app.
Qed.

Lemma rank_columns_overall_keys (counters : gmap string Counter)
    (columns : list string) (cs : list Counter) (r : Ranking) :
  counters_of counters columns cs →
  rank_columns counters columns = Ok r →
  (overall r).*1 = first_seen [] (concat ((λ c : Counter, c.*1) <$> cs)).
Proof.
  intros Hcs. unfold rank_columns.
  intros ([[sd ov] ml] & Hrun & [= <-])%bind_Ok. simpl.
  by apply (rank_loop_overall_keys _ _ _ _ _ _ _ _ _ Hcs) in Hrun.
Qed.

(** X13. The entries of the overall counter stand in the order in which the
    builder first meets their tokens: going through the designated columns
    in order and through each column's counter in its own order.  This is
    the order that breaks the ties of the overall ranking. *)
Theorem overall_counter_order (counters : gmap string Counter)
    (columns : list string) (cs : list Counter) :
  counters_of counters columns cs →
  ∃ r, rank_columns counters columns = Ok r
       ∧ (overall r).*1
         = first_seen [] (concat ((λ c : Counter, c.*1) <$> cs)).
Proof.
  intros Hcs.
  destruct (rank_columns_spec counters columns cs Hcs) as (r & Hr & _).
  exists r. split; [done|]. by apply (rank_columns_overall_keys counters columns).
Qed.

Lemma overall_counter_order_witness :
  counters_of sample_counters ["A"; "B"]
    [[("x", 2%Z); ("y", 1%Z); ("z", 1%Z)]; [("x", 1%Z)]]
  ∧ ∃ r, rank_columns sample_counters ["A"; "B"] = Ok r
         ∧ (overall r).*1 = ["x"; "y"; "z"].
Proof.
  assert (Hcs : counters_of sample_counters ["A"; "B"]
                  [[("x", 2%Z); ("y", 1%Z); ("z", 1%Z)]; [("x", 1%Z)]]).
  { repeat constructor. }
  split; [exact Hcs|].
  destruct (overall_counter_order _ _ _ Hcs) as (r & Hr & Hkeys).
  exists r. split; [exact Hr|]. rewrite Hkeys. reflexivity.
Defined.

Lemma max_list_le (l : list nat) (m : nat) :
  Forall (λ n, n ≤ m) l → max_list l ≤ m.
Proof. induction 1 as [|n l Hn Hl IH]; simpl; lia. Qed.

Lemma overall_covers (counters : gmap string Counter)
    (columns : list string) (cs : list Counter) (r : Ranking) (c : Counter) :
  counters_of counters columns cs → Forall well_formed cs →
  rank_columns counters columns = Ok r → c ∈ cs →
  length c ≤ length (overall r).
Proof.
  intros Hcs Hwf Hr Hc.
  rewrite <- (length_fmap fst c), <- (length_fmap fst (overall r)).
  apply submseteq_length, NoDup_submseteq.
  - rewrite Forall_forall in Hwf. by apply Hwf.
  - intros t Ht. rewrite (rank_columns_overall_keys _ _ _ _ Hcs Hr).
    apply first_seen_elem. right. apply elem_of_concat.
    exists c.*1. split; [done|]. apply list_elem_of_fmap. by exists c.
Qed.

(** X14. The overall pair is never padded.  For counters without repeated
    keys, the number of rows of the table is the number of entries of the
    overall counter, that is the number of distinct tokens of the
    designated columns, and the overall columns hold the overall ranked
    list and nothing else. *)
Theorem overall_pair_not_padded (counters : gmap string Counter)
    (columns : list string) (cs : list Counter) :
  counters_of counters columns cs → Forall well_formed cs →
  ∃ r df,
    rank_columns counters columns = Ok r
    ∧ build_master_dataframe counters columns = Ok df
    ∧ df_rows df = length (overall r)
    ∧ df_rows df
      = length (first_seen [] (concat ((λ c : Counter, c.*1) <$> cs)))
    ∧ dict_get "Overall_Word" (df_columns df)
      = Some (Words (get_sorted_list (overall r)).*1)
    ∧ dict_get "Overall_Frequency" (df_columns df)
      = Some (Freqs (get_sorted_list (overall r)).*2).
Proof.
  intros Hcs Hwf.
  destruct (build_master_dataframe_spec counters columns cs Hcs)
    as (r & df & Hr & Hdf & Hos & Hm & Hrows & Hw & Hf & _).
  assert (Hlen : max_length r = length (overall r)).
  { rewrite Hm, Hos, get_sorted_list_length.
    apply Nat.max_r, max_list_le, Forall_fmap, Forall_forall.
    intros c Hc. simpl. rewrite get_sorted_list_length.
    by apply (overall_covers counters columns cs). }
  exists r, df. split; [done|]. split; [done|].
  assert (Hpadw : padded_words (overall_sorted r) (max_length r)
                  = (get_sorted_list (overall r)).*1).
  { unfold padded_words.
    rewrite Hlen, Hos, get_sorted_list_length, Nat.sub_diag. apply app_nil_r. }
  assert (Hpadf : padded_freqs (overall_sorted r) (max_length r)
                  = (get_sorted_list (overall r)).*2).
  { unfold padded_freqs.
    rewrite Hlen, Hos, get_sorted_list_length, Nat.sub_diag. apply app_nil_r. }
  rewrite Hrows, Hlen. split_and!; [done| |congruence|congruence].
  by rewrite <- (rank_columns_overall_keys _ _ _ _ Hcs Hr), length_fmap.
Qed.

Lemma overall_pair_not_padded_witness :
  counters_of sample_counters ["A"; "B"]
    [[("x", 2%Z); ("y", 1%Z); ("z", 1%Z)]; [("x", 1%Z)]]
  ∧ Forall well_formed [[("x", 2%Z); ("y", 1%Z); ("z", 1%Z)]; [("x", 1%Z)]]
  ∧ ∃ df, build_master_dataframe sample_counters ["A"; "B"] = Ok df
          ∧ df_rows df = 3.
Proof.
  assert (Hcs : counters_of sample_counters ["A"; "B"]
                  [[("x", 2%Z); ("y", 1%Z); ("z", 1%Z)]; [("x", 1%Z)]]).
  { repeat constructor. }
  assert (Hwf : Forall well_formed
                  [[("x", 2%Z); ("y", 1%Z); ("z", 1%Z)]; [("x", 1%Z)]]).
  { repeat constructor; unfold well_formed;
      apply (bool_decide_unpack _); vm_compute; exact I. }
  split; [exact Hcs|]. split; [exact Hwf|].
  destruct (overall_pair_not_padded _ _ _ Hcs Hwf)
    as (r & df & _ & Hdf & _ & Hrows & _).
  exists df. split; [exact Hdf|]. rewrite Hrows. reflexivity.
Defined.

Lemma padded_lookup (ranked : list (string * Z)) (n i : nat) :
  i < length ranked →
  padded_words ranked n !! i = fst <$> ranked !! i
  ∧ padded_freqs ranked n !! i = snd <$> ranked !! i.
Proof.
  intros Hi. unfold padded_words, padded_freqs.
  rewrite !lookup_app_l by by rewrite length_fmap.
  by rewrite !list_lookup_fmap.
Qed.

(** X15. The table reports every counter entry once and reports nothing
    else above the padding: for a designated column not called "Overall",
    the pairs (word, frequency) in the rows before the padding of the
    column's two sequences are exactly the entries of the column's
    counter. *)
Theorem table_reports_counter (counters : gmap string Counter)
    (columns : list string) (cs : list Counter) (col : string) (c : Counter) :
  counters_of counters columns cs →
  col ∈ columns → col ≠ "Overall" → counters !! col = Some c →
  ∃ df words freqs,
    build_master_dataframe counters columns = Ok df
    ∧ dict_get (col +:+ "_Word") (df_columns df) = Some (Words words)
    ∧ dict_get (col +:+ "_Frequency") (df_columns df) = Some (Freqs freqs)
    ∧ ∀ t n, (t, n) ∈ c ↔
        ∃ i, i < length c ∧ words !! i = Some t ∧ freqs !! i = Some n.
Proof.
  intros Hcs Hin Hne Hc.
  destruct (build_master_dataframe_spec counters columns cs Hcs)
    as (r & df & _ & Hdf & _ & _ & _ & _ & _ & Hcols & _).
  destruct (Hcols col c Hin Hc) as (_ & _ & Hget).
  destruct (Hget Hne) as [Hw Hf].
  eexists df, _, _. split; [done|]. split; [exact Hw|]. split; [exact Hf|].
  intros t n. rewrite <- (get_sorted_list_length c).
  assert (Hperm : (t, n) ∈ c ↔ (t, n) ∈ get_sorted_list c).
  { unfold get_sorted_list. by rewrite sorted_Permutation. }
  rewrite Hperm, list_elem_of_lookup. split.
  - intros [i Hi]. exists i.
    pose proof (lookup_lt_Some _ _ _ Hi) as Hlt.
    destruct (padded_lookup (get_sorted_list c) (max_length r) i Hlt) as [-> ->].
    by rewrite Hi.
  - intros (i & Hlt & Hwi & Hfi). exists i.
    destruct (padded_lookup (get_sorted_list c) (max_length r) i Hlt)
      as [Hpw Hpf].
    rewrite Hpw in Hwi. rewrite Hpf in Hfi.
    destruct (get_sorted_list c !! i) as [[t' n']|]; [|done].
    simpl in *. congruence.
Qed.

Lemma table_reports_counter_witness :
  counters_of sample_counters ["A"; "B"]
    [[("x", 2%Z); ("y", 1%Z); ("z", 1%Z)]; [("x", 1%Z)]]
  ∧ "B" ∈ ["A"; "B"] ∧ "B" ≠ "Overall"
  ∧ sample_counters !! "B" = Some [("x", 1%Z)]
  ∧ ∃ df, build_master_dataframe sample_counters ["A"; "B"] = Ok df.
Proof.
  assert (Hcs : counters_of sample_counters ["A"; "B"]
                  [[("x", 2%Z); ("y", 1%Z); ("z", 1%Z)]; [("x", 1%Z)]]).
  { repeat constructor. }
  assert (Hin : "B" ∈ ["A"; "B"]) by (right; left).
  assert (Hne : "B" ≠ "Overall") by discriminate.
  assert (Hc : sample_counters !! "B" = Some [("x", 1%Z)]) by reflexivity.
  split; [exact Hcs|]. split; [exact Hin|]. split; [exact Hne|].
  split; [exact Hc|].
  destruct (table_reports_counter _ _ _ _ _ Hcs Hin Hne Hc)
    as (df & _ & _ & Hdf & _).
  by exists df.
Defined.

(* ===================================================================== *)
(** * More on the pipeline and the script *)
(* ===================================================================== *)

Lemma compute_counters_covers (data : list Row) (columns : list string)
    tokenize_func (nlp : Language) (counters : gmap string Counter) :
  compute_counters data columns tokenize_func nlp = Ok counters →
  ∃ cs, counters_of counters columns cs ∧ Forall well_formed cs.
Proof.
  rewrite compute_counters_feed. intros (rows & _ & [= <-])%bind_Ok.
  set (counters := foldl _ _ rows).
  assert (Hlook : ∀ col, col ∈ columns → ∃ c, counters !! col = Some c).
  { intros col Hcol. unfold counters.
    rewrite feed_rows_lookup, empty_counters_lookup, decide_True by done.
    by eexists. }
  destruct (counters_of_exists counters columns) as [cs Hcs].
  { intros col Hcol. destruct (Hlook col Hcol) as [c Hc]. by exists c. }
  exists cs. split; [done|]. apply Forall_forall. intros c Hc.
  destruct (counters_of_elem _ _ _ _ Hcs Hc) as (col & Hcol & Hget).
  unfold counters in Hget.
  rewrite feed_rows_lookup, empty_counters_lookup, decide_True in Hget by done.
  injection Hget as <-. apply count_elements_well_formed, NoDup_nil_2.
Qed.




Lemma column_totals (data : list Row) (columns : list string)
    tokenize_func (nlp : Language) (rows : list (list (list string)))
    (cols : list string) (cs : list Counter) :
  NoDup columns →
  mapM (λ row, mapM (cell_tokens tokenize_func nlp row) columns) data = Ok rows →
  (∀ col, col ∈ cols → col ∈ columns) →
  counters_of
    (foldl (λ m tl, feed m (zip columns tl)) (empty_counters columns) rows)
    cols cs →
  ∃ streams,
    Forall2 (λ col column, column_stream tokenize_func nlp data col = Ok column)
            cols streams
    ∧ ∀ t, sum_counts cs t = total_occurrences t streams.
Proof.
  intros Hnd Hrows Hsub Hcs.
  induction Hcs as [|col c cols cs Hc Hcs IH].
  - exists []. split; [constructor|done].
  - destruct IH as (streams & Hstreams & Hsum).
    { intros col' Hcol'. apply Hsub. by right. }
    assert (Hcol : col ∈ columns) by (apply Hsub; left).
    rewrite feed_rows_lookup, empty_counters_lookup, decide_True in Hc by done.
    injection Hc as <-.
    eexists (_ :: streams). split.
    + constructor; [|done]. by apply (column_stream_rows _ _ _ columns).
    + intros t. simpl. rewrite Hsum.
      by rewrite count_elements_get, counter_get_nil, Z.add_0_l.
Qed.

(** X17. From end to end, for distinct designated columns: the count of a
    token in the overall counter that the builder forms from the
    aggregator's counters is the number of times the tokenizer emitted the
    token over all cells of all designated columns. *)
Theorem overall_counts_all_occurrences (data : list Row)
    (columns : list string) tokenize_func (nlp : Language)
    (counters : gmap string Counter) :
  NoDup columns →
  compute_counters data columns tokenize_func nlp = Ok counters →
  ∃ r streams,
    rank_columns counters columns = Ok r
    ∧ Forall2 (λ col column,
                 column_stream tokenize_func nlp data col = Ok column)
              columns streams
    ∧ ∀ t, counter_get (overall r) t = total_occurrences t streams.
Proof.
  intros Hnd Hrun.
  destruct (compute_counters_covers _ _ _ _ _ Hrun) as (cs & Hcs & Hwf).
  destruct (rank_columns_spec counters columns cs Hcs) as (r & Hr & Hsum & _).
  rewrite compute_counters_feed in Hrun.
  apply bind_Ok in Hrun as (rows & Hrows & [= <-]).
  destruct (column_totals data columns tokenize_func nlp rows columns cs
              Hnd Hrows) as (streams & Hstreams & Htotal); [done|done|].
  exists r, streams. split; [done|]. split; [done|].
  intros t. by rewrite Hsum, Htotal.
Qed.

Lemma overall_counts_all_occurrences_witness :
  NoDup ["Adjectives_1"]
  ∧ ∃ r, rank_columns (<["Adjectives_1" := [("happy", 2%Z)]]> ∅)
           ["Adjectives_1"] = Ok r
         ∧ counter_get (overall r) "happy" = 2%Z.
Proof.
  assert (Hnd : NoDup ["Adjectives_1"]) by apply NoDup_singleton.
  split; [exact Hnd|].
  assert (Hrun : compute_counters sample_data ["Adjectives_1"]
                   tokenize_adjective_cell nlp_happy
                 = Ok (<["Adjectives_1" := [("happy", 2%Z)]]> ∅)).
  { vm_compute. reflexivity. }
  destruct (overall_counts_all_occurrences _ _ _ _ _ Hnd Hrun)
    as (r & streams & Hr & Hstreams & Hcount).
  exists r. split; [exact Hr|].
  vm_compute in Hr. injection Hr as <-. reflexivity.
Defined.

Lemma set_columns_Ok (names : list string) (sheet : Sheet) (data : list Row) :
  set_columns names sheet = Ok data →
  ncols sheet = length names
  ∧ data = (λ cells, list_to_map (zip names cells) : Row) <$> sheet_rows sheet.
Proof.
  unfold set_columns. destruct (Nat.eqb_spec (ncols sheet) (length names));
    [|done].
  by intros [= <-].
Qed.










(** X19. When the script succeeds, the sheet had 16 columns, exactly the two
    output files were written, first the descriptions then the adjectives,
    one line was printed for each, and each file has fourteen columns: the
    word and frequency headers of its six designated columns in order,
    followed by the two overall headers. *)
Theorem main_success (sheet : Sheet) (nlp : Language) (w w' : World) :
  main sheet nlp w = (w', None) →
  ncols sheet = 16
  ∧ ∃ df_desc df_adj,
      files w' = <["adjectives_frequencies.csv" := df_adj]>
                   (<["descriptions_frequencies.csv" := df_desc]> (files w))
      ∧ stdout w' = stdout w ++ [ "Saved: descriptions_frequencies.csv";
                                  "Saved: adjectives_frequencies.csv" ]
      ∧ (df_columns df_desc).*1 = headers description_cols
      ∧ (df_columns df_adj).*1 = headers adjective_cols
      ∧ length (df_columns df_desc) = 14
      ∧ length (df_columns df_adj) = 14.
Proof.
  unfold main.
  destruct (set_columns column_names sheet) as [data|e0] eqn:Hdata; [|done].
  apply set_columns_Ok in Hdata as [Hn _].
  destruct (process_and_save data description_cols _ _ _ w)
    as [w1|e1] eqn:Hdesc; [|done].
  destruct (process_and_save data adjective_cols _ _ _ w1)
    as [w2|e2] eqn:Hadj; [|done].
  intros [= <-]. split; [exact Hn|].
  apply process_and_save_Ok in Hdesc as (c1 & df1 & _ & Hdf1 & _ & ->).
  apply process_and_save_Ok in Hadj as (c2 & df2 & _ & Hdf2 & _ & ->).
  exists df1, df2. simpl.
  assert (H1 : (df_columns df1).*1 = headers description_cols).
  { rewrite (build_master_dataframe_keys _ _ _ Hdf1).
    apply first_seen_NoDup, headers_NoDup;
      apply (bool_decide_unpack _); vm_compute; exact I. }
  assert (H2 : (df_columns df2).*1 = headers adjective_cols).
  { rewrite (build_master_dataframe_keys _ _ _ Hdf2).
    apply first_seen_NoDup, headers_NoDup;
      apply (bool_decide_unpack _); vm_compute; exact I. }
  split_and!; [done| |done|done| |].
  - by rewrite <- app_assoc.
  - by rewrite <- (length_fmap fst), H1.
  - by rewrite <- (length_fmap fst), H2.
Qed.

Lemma main_success_witness :
  main sample_sheet nlp_survey fresh_world
  = ((main sample_sheet nlp_survey fresh_world).1, None)
  ∧ stdout (main sample_sheet nlp_survey fresh_world).1
    = [ "Saved: descriptions_frequencies.csv";
        "Saved: adjectives_frequencies.csv" ].
Proof.
  assert (Hrun : main sample_sheet nlp_survey fresh_world
                 = ((main sample_sheet nlp_survey fresh_world).1, None)).
  { vm_compute. reflexivity. }
  split; [exact Hrun|].
  destruct (main_success sample_sheet nlp_survey fresh_world _ Hrun)
    as (_ & df1 & df2 & _ & Hout & _).
  exact Hout.
Defined.
